(** * Vectorised technical-analysis backtesters: a shallow embedding

    The repository holds five near-identical classes ([SMABacktester],
    [EMABacktester], [MACDBacktester], [RSIBacktester], [SOBacktester]);
    each keeps a pandas frame of candles with indicator columns, re-computes
    the columns when a parameter is set, runs a backtest over the frame and
    searches a parameter grid with [scipy.optimize.brute].

    Numbers.  A cell of a frame is a real number or pandas' missing value
    [nan]; a cell is an [option R] and [None] is [nan].  The model is the
    exact-arithmetic reading of the floating-point code: rounding and
    overflow are not represented, and neither are the two infinities.  For
    candles with positive prices and [low <= close <= high] no operation of
    the code produces an infinity (see [valid_candles]). *)

From Stdlib Require Import String.
From Stdlib Require Import Reals Lra Lia List ZArith QArith Qround Bool.
Import ListNotations.

Open Scope R_scope.

(** ** Cells and series *)

Definition cell := option R.
Definition column := list cell.

Definition Rgtb (a b : R) : bool := if Rgt_dec a b then true else false.
Definition Rltb (a b : R) : bool := if Rlt_dec a b then true else false.
Definition Reqb (a b : R) : bool := if Req_dec_T a b then true else false.

Definition notna (x : cell) : bool :=
  match x with Some _ => true | None => false end.

Definition cell_lift2 (f : R -> R -> R) (x y : cell) : cell :=
  match x, y with
  | Some a, Some b => Some (f a b)
  | _, _ => None
  end.

Definition cadd := cell_lift2 Rplus.
Definition csub := cell_lift2 Rminus.
Definition cmul := cell_lift2 Rmult.
Definition cneg (x : cell) : cell := option_map Ropp x.
Definition cabs (x : cell) : cell := option_map Rabs x.
Definition cexp (x : cell) : cell := option_map exp x.

(** [a / b] on floats: [0 / 0] is [nan].  A non-zero numerator over a zero
    denominator is an infinity in floating point, which a cell cannot hold;
    the model maps it to [None] as well, and the places where the code
    divides are shown to meet only [0 / 0] on valid candles. *)
Definition cdiv (x y : cell) : cell :=
  match x, y with
  | Some a, Some b => if Reqb b 0 then None else Some (a / b)
  | _, _ => None
  end.

(** [np.log]: [nan] on a negative number (and minus infinity at 0, see
    above). *)
Definition clog (x : cell) : cell :=
  match x with
  | Some a => if Rltb 0 a then Some (ln a) else None
  | None => None
  end.

(** Comparisons of series give booleans; a comparison with [nan] is
    [False]. *)
Definition cgt (x y : cell) : bool :=
  match x, y with Some a, Some b => Rgtb a b | _, _ => false end.
Definition clt (x y : cell) : bool :=
  match x, y with Some a, Some b => Rltb a b | _, _ => false end.

Definition zip_with {A B C} (f : A -> B -> C) (l : list A) (l' : list B)
  : list C :=
  map (fun p => f (fst p) (snd p)) (combine l l').

Definition series_add : column -> column -> column := zip_with cadd.
Definition series_sub : column -> column -> column := zip_with csub.
Definition series_mul : column -> column -> column := zip_with cmul.
Definition series_div : column -> column -> column := zip_with cdiv.
Definition series_gt : column -> column -> list bool := zip_with cgt.
Definition series_scale (c : column) (k : R) : column :=
  map (fun x => cmul x (Some k)) c.
Definition series_neg : column -> column := map cneg.
Definition series_abs : column -> column := map cabs.
Definition series_exp : column -> column := map cexp.
Definition series_log : column -> column := map clog.
Definition series_gt_scalar (c : column) (k : R) : list bool :=
  map (fun x => cgt x (Some k)) c.
Definition series_lt_scalar (c : column) (k : R) : list bool :=
  map (fun x => clt x (Some k)) c.

(** [Series.shift(1)] *)
Definition shift1 (c : column) : column :=
  match c with
  | [] => []
  | _ :: _ => None :: removelast c
  end.

(** [Series.diff()] *)
Definition diff (c : column) : column := series_sub c (shift1 c).

(** [Series.fillna(v)] *)
Definition fillna (v : R) (c : column) : column :=
  map (fun x => match x with Some a => Some a | None => Some v end) c.

(** [Series.cumsum()]: a [nan] entry stays [nan] and is skipped by the
    running sum. *)
Fixpoint cumsum_from (acc : R) (c : column) : column :=
  match c with
  | [] => []
  | Some a :: rest => Some (acc + a) :: cumsum_from (acc + a) rest
  | None :: rest => None :: cumsum_from acc rest
  end.
Definition cumsum : column -> column := cumsum_from 0.

(** [np.where] with the three shapes of arguments the code uses. *)
Definition np_where (cond : list bool) (x y : cell) : column :=
  map (fun b : bool => if b then x else y) cond.
Definition np_where_series_scalar (cond : list bool) (xs : column) (y : cell)
  : column :=
  zip_with (fun (b : bool) x => if b then x else y) cond xs.
Definition np_where_scalar_series (cond : list bool) (x : cell) (ys : column)
  : column :=
  zip_with (fun (b : bool) y => if b then x else y) cond ys.

(** ** Exceptions *)

Inductive exn := ValueError | IndexError | ZeroDivisionError.

(** [Series.iloc[-1]] *)
Definition iloc_last (c : column) : exn + cell :=
  match c with
  | [] => inl IndexError
  | _ :: _ => inr (last c None)
  end.

(** ** Rolling and exponentially weighted windows *)

Definition sequence (l : list cell) : option (list R) :=
  fold_right (fun x acc =>
                match x, acc with
                | Some v, Some vs => Some (v :: vs)
                | _, _ => None
                end) (Some []) l.

Definition Rsum (xs : list R) : R := fold_right Rplus 0 xs.
Definition mean (xs : list R) : R := Rsum xs / IZR (Z.of_nat (length xs)).
Definition Rlist_min (xs : list R) : R :=
  match xs with [] => 0 | x :: rest => fold_left Rmin rest x end.
Definition Rlist_max (xs : list R) : R :=
  match xs with [] => 0 | x :: rest => fold_left Rmax rest x end.

(** Entry [i] of [Series.rolling(w).agg()]: the trailing window of [w]
    entries ending at [i]; [min_periods] defaults to [w], so the entry is
    [nan] unless the window is complete and free of [nan]. *)
Definition rolling_at (agg : list R -> R) (w : nat) (c : column) (i : nat)
  : cell :=
  if (1 <=? w)%nat && (w <=? S i)%nat
  then option_map agg (sequence (firstn w (skipn (S i - w) c)))
  else None.

(** [Series.rolling(window)] raises on a negative window. *)
Definition rolling (agg : list R -> R) (window : Z) (c : column)
  : exn + column :=
  if (window <? 0)%Z then inl ValueError
  else inr (map (rolling_at agg (Z.to_nat window) c) (seq 0 (length c))).

Definition rolling_mean := rolling mean.
Definition rolling_min := rolling Rlist_min.
Definition rolling_max := rolling Rlist_max.

(** [Series.ewm(span, min_periods).mean()] with pandas' defaults
    [adjust=True, ignore_na=False]: the running weighted average, the weight
    of the past and the number of observations seen so far. *)
Record ewm_acc := { weighted : cell; old_wt : R; nobs : nat }.

Definition ewm_step (alpha : R) (acc : ewm_acc) (cur : cell) : ewm_acc :=
  match weighted acc, cur with
  | Some w, Some x =>
      let wt := old_wt acc * (1 - alpha) in
      {| weighted := Some ((wt * w + 1 * x) / (wt + 1));
         old_wt := wt + 1;
         nobs := S (nobs acc) |}
  | Some w, None =>
      {| weighted := Some w;
         old_wt := old_wt acc * (1 - alpha);
         nobs := nobs acc |}
  | None, Some x =>
      {| weighted := Some x; old_wt := old_wt acc; nobs := S (nobs acc) |}
  | None, None => acc
  end.

Fixpoint ewm_scan (alpha : R) (minp : nat) (acc : ewm_acc) (c : column)
  : column :=
  match c with
  | [] => []
  | cur :: rest =>
      let acc' := ewm_step alpha acc cur in
      (if (minp <=? nobs acc')%nat then weighted acc' else None)
        :: ewm_scan alpha minp acc' rest
  end.

(** [span] must be at least 1; [alpha = 2 / (span + 1)]. *)
Definition ewm_mean (span min_periods : Z) (c : column) : exn + column :=
  if (span <? 1)%Z then inl ValueError
  else inr (ewm_scan (2 / (IZR span + 1)) (Z.to_nat (Z.max min_periods 1))
              {| weighted := None; old_wt := 1; nobs := 0 |} c).

(** ** Frames *)

Record DataFrame := { df_index : list Z; df_cols : list (string * column) }.

Definition nrows (df : DataFrame) : nat := length (df_index df).

Fixpoint assoc_get (name : string) (cs : list (string * column)) : column :=
  match cs with
  | [] => []
  | (n, c) :: rest => if String.eqb n name then c else assoc_get name rest
  end.

Fixpoint assoc_set (name : string) (c : column) (cs : list (string * column))
  : list (string * column) :=
  match cs with
  | [] => [(name, c)]
  | (n, c') :: rest =>
      if String.eqb n name then (n, c) :: rest
      else (n, c') :: assoc_set name c rest
  end.

(** [df[name]]; every column the code reads was created by [get_data] or
    earlier in the same method (see [has_columns]). *)
Definition df_get (name : string) (df : DataFrame) : column :=
  assoc_get name (df_cols df).

(** [df[name] = c]: an existing column is replaced where it stands, a new
    one is appended. *)
Definition df_set (name : string) (c : column) (df : DataFrame) : DataFrame :=
  {| df_index := df_index df; df_cols := assoc_set name c (df_cols df) |}.

Fixpoint select {A} (mask : list bool) (l : list A) : list A :=
  match mask, l with
  | b :: m, x :: l' => if b then x :: select m l' else select m l'
  | _, _ => []
  end.

Definition row_notna (cs : list (string * column)) (i : nat) : bool :=
  forallb (fun nc => notna (nth i (snd nc) None)) cs.

Definition notna_mask (df : DataFrame) : list bool :=
  map (row_notna (df_cols df)) (seq 0 (nrows df)).

(** [df.dropna()]: the rows with no [nan] in any column. *)
Definition dropna (df : DataFrame) : DataFrame :=
  let mask := notna_mask df in
  {| df_index := select mask (df_index df);
     df_cols := map (fun nc => (fst nc, select mask (snd nc))) (df_cols df) |}.

(** ** Methods: state that survives an exception

    A method of a backtester reads and assigns attributes of [self] and may
    raise; what it assigned before raising stays assigned. *)

Definition M (St A : Type) : Type := St -> (exn + A) * St.

Definition ret {St A} (a : A) : M St A := fun s => (inr a, s).
Definition bind {St A B} (m : M St A) (k : A -> M St B) : M St B :=
  fun s => match m s with
           | (inr a, s') => k a s'
           | (inl e, s') => (inl e, s')
           end.
Definition get {St} : M St St := fun s => (inr s, s).
Definition modify {St} (f : St -> St) : M St unit := fun s => (inr tt, f s).
Definition lift {St A} (x : exn + A) : M St A := fun s => (x, s).
Definition when_given {St A} (arg : option A) (k : A -> M St unit)
  : M St unit :=
  match arg with Some a => k a | None => ret tt end.

Notation "x <- m ;; k" := (bind m (fun x => k))
  (at level 61, m at next level, right associativity).
Notation "m ;;; k" := (bind m (fun _ => k))
  (at level 61, right associativity).

(** ** Candles *)

Record Candle := {
  c_time : Z; c_open : R; c_high : R; c_low : R; c_close : R; c_volume : Z
}.

Open Scope string_scope.

(** The frame every [get_data] builds from the candles of the response. *)
Definition candle_frame (candles : list Candle) : DataFrame :=
  {| df_index := map c_time candles;
     df_cols :=
       [("Open", map (fun k => Some (c_open k)) candles);
        ("High", map (fun k => Some (c_high k)) candles);
        ("Low", map (fun k => Some (c_low k)) candles);
        ("Close", map (fun k => Some (c_close k)) candles);
        ("Volume", map (fun k => Some (IZR (c_volume k))) candles)] |}.

(** [np.log(data.Close / data.Close.shift(1))] *)
Definition log_returns (data : DataFrame) : column :=
  series_log (series_div (df_get "Close" data) (shift1 (df_get "Close" data))).

Definition valid_candle (k : Candle) : Prop :=
  0 < c_low k /\ c_low k <= c_close k <= c_high k.
Definition valid_candles (candles : list Candle) : Prop :=
  Forall valid_candle candles.

(** The value [test_strategy] returns: [[perf, outperf, self.results]]. *)
Definition outcome : Type := cell * cell * DataFrame.

(** ** [scipy.optimize.brute] with [finish=None]

    A range is a tuple [(start, stop, step)]; grid coordinates are rationals
    (the exact reading of the floats of [np.mgrid]). *)

Definition prange : Type := Q * Q * Q.
Definition point : Type := list Q.

(** [int(x)] on a float truncates towards zero. *)
Definition py_int (x : Q) : Z := Z.quot (Qnum x) (Zpos (Qden x)).

(** [x[k]] *)
Definition item (k : nat) (x : point) : exn + Q :=
  match nth_error x k with Some v => inr v | None => inl IndexError end.

Fixpoint map_exn {A B} (f : A -> exn + B) (l : list A) : exn + list B :=
  match l with
  | [] => inr []
  | a :: rest =>
      match f a with
      | inl e => inl e
      | inr b =>
          match map_exn f rest with
          | inl e => inl e
          | inr bs => inr (b :: bs)
          end
      end
  end.

(** [int(math.ceil((stop - start) / (step * 1.0)))] *)
Definition axis_size (r : prange) : exn + Z :=
  let '(start, stop, step) := r in
  if Qeq_bool step 0 then inl ZeroDivisionError
  else inr (Qceiling ((stop - start) / step)).

(** The coordinates [start + i * step] of one axis. *)
Definition axis_points (r : prange) (size : Z) : list Q :=
  let '(start, _, step) := r in
  map (fun i => (inject_Z (Z.of_nat i) * step + start)%Q)
    (seq 0 (Z.to_nat size)).

(** The points of the grid in row-major order (last axis fastest). *)
Fixpoint cartesian (axes : list (list Q)) : list point :=
  match axes with
  | [] => [[]]
  | a :: rest => flat_map (fun x => map (cons x) (cartesian rest)) a
  end.

(** [np.mgrid] over two or more slices: a negative size is refused. *)
Definition mgrid (ranges : list prange) : exn + list point :=
  match map_exn axis_size ranges with
  | inl e => inl e
  | inr sizes =>
      if existsb (fun n => (n <? 0)%Z) sizes then inl ValueError
      else inr (cartesian (map (fun rs => axis_points (fst rs) (snd rs))
                             (combine ranges sizes)))
  end.

(** [np.argmin] over the flattened values: the first [nan] if there is one,
    else the first least value. *)
Fixpoint argmin_from (best_i : nat) (best : cell) (i : nat) (l : list cell)
  : nat :=
  match l with
  | [] => best_i
  | x :: rest =>
      match best, x with
      | None, _ => best_i
      | Some _, None => i
      | Some b, Some v =>
          if Rltb v b then argmin_from i (Some v) (S i) rest
          else argmin_from best_i best (S i) rest
      end
  end.

Definition argmin (l : list cell) : exn + nat :=
  match l with
  | [] => inl ValueError
  | x :: rest => inr (argmin_from 0 x 1 rest)
  end.

(** The objective is called on every point, in order; an exception stops
    the search. *)
Fixpoint eval_points {St} (func : point -> M St cell) (grid : list point)
  : M St (list cell) :=
  match grid with
  | [] => ret []
  | x :: rest =>
      v <- func x ;;
      vs <- eval_points func rest ;;
      ret (v :: vs)
  end.

Definition brute {St} (func : point -> M St cell) (ranges : list prange)
  : M St point :=
  grid <- lift (mgrid ranges) ;;
  Jout <- eval_points func grid ;;
  indx <- lift (argmin Jout) ;;
  ret (nth indx grid []).

(** ** SMABacktester *)

Module SMA.

Record t := {
  symbol : string; SMA_S : Z; SMA_L : Z; tc : R;
  results : option DataFrame; data : DataFrame
}.

Definition set_SMA_S (v : Z) (self : t) : t :=
  {| symbol := symbol self; SMA_S := v; SMA_L := SMA_L self; tc := tc self;
     results := results self; data := data self |}.
Definition set_SMA_L (v : Z) (self : t) : t :=
  {| symbol := symbol self; SMA_S := SMA_S self; SMA_L := v; tc := tc self;
     results := results self; data := data self |}.
Definition set_results (r : DataFrame) (self : t) : t :=
  {| symbol := symbol self; SMA_S := SMA_S self; SMA_L := SMA_L self;
     tc := tc self; results := Some r; data := data self |}.
Definition set_data (d : DataFrame) (self : t) : t :=
  {| symbol := symbol self; SMA_S := SMA_S self; SMA_L := SMA_L self;
     tc := tc self; results := results self; data := d |}.

(** [get_data], given the candles of the response. *)
Definition get_data (candles : list Candle) : M t unit :=
  let data := candle_frame candles in
  let data := df_set "returns" (log_returns data) data in
  self <- get ;;
  s <- lift (rolling_mean (SMA_S self) (df_get "Close" data)) ;;
  let data := df_set "SMA_S" s data in
  l <- lift (rolling_mean (SMA_L self) (df_get "Close" data)) ;;
  let data := df_set "SMA_L" l data in
  modify (set_data data).

(** [__init__]: no object exists when [get_data] raises. *)
Definition init (symbol : string) (SMA_S SMA_L : Z) (tc : R)
    (candles : list Candle) : exn + t :=
  let self := {| symbol := symbol; SMA_S := SMA_S; SMA_L := SMA_L; tc := tc;
                 results := None; data := candle_frame [] |} in
  match get_data candles self with
  | (inr _, self') => inr self'
  | (inl e, _) => inl e
  end.

Definition set_parameters (SMA_S SMA_L : option Z) : M t unit :=
  when_given SMA_S (fun v =>
    modify (set_SMA_S v) ;;;
    self <- get ;;
    c <- lift (rolling_mean (SMA.SMA_S self) (df_get "Close" (data self))) ;;
    modify (set_data (df_set "SMA_S" c (data self)))) ;;;
  when_given SMA_L (fun v =>
    modify (set_SMA_L v) ;;;
    self <- get ;;
    c <- lift (rolling_mean (SMA.SMA_L self) (df_get "Close" (data self))) ;;
    modify (set_data (df_set "SMA_L" c (data self)))).

(** [test_strategy]; the cost [tc] is not read. *)
Definition test_strategy : M t outcome :=
  self <- get ;;
  let data := dropna (data self) in
  let data :=
    df_set "position"
      (np_where (series_gt (df_get "SMA_S" data) (df_get "SMA_L" data))
         (Some 1) (Some (-1))) data in
  let data :=
    df_set "strategy"
      (series_mul (shift1 (df_get "position" data)) (df_get "returns" data))
      data in
  let data := dropna data in
  let data :=
    df_set "creturns" (series_exp (cumsum (df_get "returns" data))) data in
  let data :=
    df_set "cstrategy" (series_exp (cumsum (df_get "strategy" data))) data in
  modify (set_results data) ;;;
  perf <- lift (iloc_last (df_get "cstrategy" data)) ;;
  last_creturns <- lift (iloc_last (df_get "creturns" data)) ;;
  let outperf := csub perf last_creturns in
  ret (perf, outperf, data).

Definition update_and_run (SMA : point) : M t cell :=
  p0 <- lift (item 0 SMA) ;;
  p1 <- lift (item 1 SMA) ;;
  set_parameters (Some (py_int p0)) (Some (py_int p1)) ;;;
  r <- test_strategy ;;
  ret (cneg (fst (fst r))).

Definition optimize_parameters (SMA1_range SMA2_range : prange)
  : M t (point * cell) :=
  opt <- brute update_and_run [SMA1_range; SMA2_range] ;;
  v <- update_and_run opt ;;
  ret (opt, cneg v).

End SMA.

(** ** EMABacktester *)

Module EMA.

Record t := {
  symbol : string; EMA_S : Z; EMA_L : Z; tc : R;
  results : option DataFrame; data : DataFrame
}.

Definition set_EMA_S (v : Z) (self : t) : t :=
  {| symbol := symbol self; EMA_S := v; EMA_L := EMA_L self; tc := tc self;
     results := results self; data := data self |}.
Definition set_EMA_L (v : Z) (self : t) : t :=
  {| symbol := symbol self; EMA_S := EMA_S self; EMA_L := v; tc := tc self;
     results := results self; data := data self |}.
Definition set_results (r : DataFrame) (self : t) : t :=
  {| symbol := symbol self; EMA_S := EMA_S self; EMA_L := EMA_L self;
     tc := tc self; results := Some r; data := data self |}.
Definition set_data (d : DataFrame) (self : t) : t :=
  {| symbol := symbol self; EMA_S := EMA_S self; EMA_L := EMA_L self;
     tc := tc self; results := results self; data := d |}.

Definition get_data (candles : list Candle) : M t unit :=
  let data := candle_frame candles in
  let data := df_set "returns" (log_returns data) data in
  self <- get ;;
  s <- lift (ewm_mean (EMA_S self) (EMA_S self) (df_get "Close" data)) ;;
  let data := df_set "EMA_S" s data in
  l <- lift (ewm_mean (EMA_L self) (EMA_L self) (df_get "Close" data)) ;;
  let data := df_set "EMA_L" l data in
  modify (set_data data).

Definition init (symbol : string) (EMA_S EMA_L : Z) (tc : R)
    (candles : list Candle) : exn + t :=
  let self := {| symbol := symbol; EMA_S := EMA_S; EMA_L := EMA_L; tc := tc;
                 results := None; data := candle_frame [] |} in
  match get_data candles self with
  | (inr _, self') => inr self'
  | (inl e, _) => inl e
  end.

Definition set_parameters (EMA_S EMA_L : option Z) : M t unit :=
  when_given EMA_S (fun v =>
    modify (set_EMA_S v) ;;;
    self <- get ;;
    c <- lift (ewm_mean (EMA.EMA_S self) (EMA.EMA_S self)
                 (df_get "Close" (data self))) ;;
    modify (set_data (df_set "EMA_S" c (data self)))) ;;;
  when_given EMA_L (fun v =>
    modify (set_EMA_L v) ;;;
    self <- get ;;
    c <- lift (ewm_mean (EMA.EMA_L self) (EMA.EMA_L self)
                 (df_get "Close" (data self))) ;;
    modify (set_data (df_set "EMA_L" c (data self)))).

Definition test_strategy : M t outcome :=
  self <- get ;;
  let data := dropna (data self) in
  let data :=
    df_set "position"
      (np_where (series_gt (df_get "EMA_S" data) (df_get "EMA_L" data))
         (Some 1) (Some (-1))) data in
  let data :=
    df_set "strategy"
      (series_mul (shift1 (df_get "position" data)) (df_get "returns" data))
      data in
  let data := dropna data in
  let data :=
    df_set "trades" (series_abs (fillna 0 (diff (df_get "position" data))))
      data in
  let data :=
    df_set "strategy"
      (series_sub (df_get "strategy" data)
         (series_scale (df_get "trades" data) (tc self))) data in
  let data :=
    df_set "creturns" (series_exp (cumsum (df_get "returns" data))) data in
  let data :=
    df_set "cstrategy" (series_exp (cumsum (df_get "strategy" data))) data in
  modify (set_results data) ;;;
  perf <- lift (iloc_last (df_get "cstrategy" data)) ;;
  last_creturns <- lift (iloc_last (df_get "creturns" data)) ;;
  let outperf := csub perf last_creturns in
  ret (perf, outperf, data).

Definition update_and_run (EMA : point) : M t cell :=
  p0 <- lift (item 0 EMA) ;;
  p1 <- lift (item 1 EMA) ;;
  set_parameters (Some (py_int p0)) (Some (py_int p1)) ;;;
  r <- test_strategy ;;
  ret (cneg (fst (fst r))).

Definition optimize_parameters (EMA1_range EMA2_range : prange)
  : M t (point * cell) :=
  opt <- brute update_and_run [EMA1_range; EMA2_range] ;;
  v <- update_and_run opt ;;
  ret (opt, cneg v).

End EMA.

(** ** MACDBacktester *)

Module MACD.

Record t := {
  symbol : string; EMA_S : Z; EMA_L : Z; signal_mw : Z; tc : R;
  results : option DataFrame; data : DataFrame
}.

Definition set_EMA_S (v : Z) (self : t) : t :=
  {| symbol := symbol self; EMA_S := v; EMA_L := EMA_L self;
     signal_mw := signal_mw self; tc := tc self; results := results self;
     data := data self |}.
Definition set_EMA_L (v : Z) (self : t) : t :=
  {| symbol := symbol self; EMA_S := EMA_S self; EMA_L := v;
     signal_mw := signal_mw self; tc := tc self; results := results self;
     data := data self |}.
Definition set_signal_mw (v : Z) (self : t) : t :=
  {| symbol := symbol self; EMA_S := EMA_S self; EMA_L := EMA_L self;
     signal_mw := v; tc := tc self; results := results self;
     data := data self |}.
Definition set_results (r : DataFrame) (self : t) : t :=
  {| symbol := symbol self; EMA_S := EMA_S self; EMA_L := EMA_L self;
     signal_mw := signal_mw self; tc := tc self; results := Some r;
     data := data self |}.
Definition set_data (d : DataFrame) (self : t) : t :=
  {| symbol := symbol self; EMA_S := EMA_S self; EMA_L := EMA_L self;
     signal_mw := signal_mw self; tc := tc self; results := results self;
     data := d |}.

Definition get_data (candles : list Candle) : M t unit :=
  let data := candle_frame candles in
  let data := df_set "returns" (log_returns data) data in
  self <- get ;;
  s <- lift (ewm_mean (EMA_S self) (EMA_S self) (df_get "Close" data)) ;;
  let data := df_set "EMA_S" s data in
  l <- lift (ewm_mean (EMA_L self) (EMA_L self) (df_get "Close" data)) ;;
  let data := df_set "EMA_L" l data in
  let data :=
    df_set "MACD" (series_sub (df_get "EMA_S" data) (df_get "EMA_L" data))
      data in
  g <- lift (ewm_mean (signal_mw self) (signal_mw self)
               (df_get "MACD" data)) ;;
  let data := df_set "MACD_Signal" g data in
  modify (set_data data).

Definition init (symbol : string) (EMA_S EMA_L signal_mw : Z) (tc : R)
    (candles : list Candle) : exn + t :=
  let self := {| symbol := symbol; EMA_S := EMA_S; EMA_L := EMA_L;
                 signal_mw := signal_mw; tc := tc; results := None;
                 data := candle_frame [] |} in
  match get_data candles self with
  | (inr _, self') => inr self'
  | (inl e, _) => inl e
  end.

(** The two lines that end the first two branches of [set_parameters]. *)
Definition refresh_MACD : M t unit :=
  self <- get ;;
  modify (set_data
            (df_set "MACD"
               (series_sub (df_get "EMA_S" (data self))
                  (df_get "EMA_L" (data self))) (data self))) ;;;
  self <- get ;;
  g <- lift (ewm_mean (signal_mw self) (signal_mw self)
               (df_get "MACD" (data self))) ;;
  modify (set_data (df_set "MACD_Signal" g (data self))).

Definition set_parameters (EMA_S EMA_L signal_mw : option Z) : M t unit :=
  when_given EMA_S (fun v =>
    modify (set_EMA_S v) ;;;
    self <- get ;;
    c <- lift (ewm_mean (MACD.EMA_S self) (MACD.EMA_S self)
                 (df_get "Close" (data self))) ;;
    modify (set_data (df_set "EMA_S" c (data self))) ;;;
    refresh_MACD) ;;;
  when_given EMA_L (fun v =>
    modify (set_EMA_L v) ;;;
    self <- get ;;
    c <- lift (ewm_mean (MACD.EMA_L self) (MACD.EMA_L self)
                 (df_get "Close" (data self))) ;;
    modify (set_data (df_set "EMA_L" c (data self))) ;;;
    refresh_MACD) ;;;
  when_given signal_mw (fun v =>
    modify (set_signal_mw v) ;;;
    self <- get ;;
    g <- lift (ewm_mean (MACD.signal_mw self) (MACD.signal_mw self)
                 (df_get "MACD" (data self))) ;;
    modify (set_data (df_set "MACD_Signal" g (data self)))).

Definition test_strategy : M t outcome :=
  self <- get ;;
  let data := dropna (data self) in
  let data :=
    df_set "position"
      (np_where (series_gt (df_get "MACD" data) (df_get "MACD_Signal" data))
         (Some 1) (Some (-1))) data in
  let data :=
    df_set "strategy"
      (series_mul (shift1 (df_get "position" data)) (df_get "returns" data))
      data in
  let data := dropna data in
  let data :=
    df_set "trades" (series_abs (fillna 0 (diff (df_get "position" data))))
      data in
  let data :=
    df_set "strategy"
      (series_sub (df_get "strategy" data)
         (series_scale (df_get "trades" data) (tc self))) data in
  let data :=
    df_set "creturns" (series_exp (cumsum (df_get "returns" data))) data in
  let data :=
    df_set "cstrategy" (series_exp (cumsum (df_get "strategy" data))) data in
  modify (set_results data) ;;;
  perf <- lift (iloc_last (df_get "cstrategy" data)) ;;
  last_creturns <- lift (iloc_last (df_get "creturns" data)) ;;
  let outperf := csub perf last_creturns in
  ret (perf, outperf, data).

Definition update_and_run (MACD : point) : M t cell :=
  p0 <- lift (item 0 MACD) ;;
  p1 <- lift (item 1 MACD) ;;
  p2 <- lift (item 2 MACD) ;;
  set_parameters (Some (py_int p0)) (Some (py_int p1)) (Some (py_int p2)) ;;;
  r <- test_strategy ;;
  ret (cneg (fst (fst r))).

Definition optimize_parameters (EMA_S_range EMA_L_range signal_mw_range : prange)
  : M t (point * cell) :=
  opt <- brute update_and_run [EMA_S_range; EMA_L_range; signal_mw_range] ;;
  v <- update_and_run opt ;;
  ret (opt, cneg v).

End MACD.

(** ** RSIBacktester *)

Module RSI.

Record t := {
  symbol : string; periods : Z; rsi_upper : Z; rsi_lower : Z; tc : R;
  results : option DataFrame; data : DataFrame
}.

Definition set_periods (v : Z) (self : t) : t :=
  {| symbol := symbol self; periods := v; rsi_upper := rsi_upper self;
     rsi_lower := rsi_lower self; tc := tc self; results := results self;
     data := data self |}.
Definition set_rsi_upper (v : Z) (self : t) : t :=
  {| symbol := symbol self; periods := periods self; rsi_upper := v;
     rsi_lower := rsi_lower self; tc := tc self; results := results self;
     data := data self |}.
Definition set_rsi_lower (v : Z) (self : t) : t :=
  {| symbol := symbol self; periods := periods self;
     rsi_upper := rsi_upper self; rsi_lower := v; tc := tc self;
     results := results self; data := data self |}.
Definition set_results (r : DataFrame) (self : t) : t :=
  {| symbol := symbol self; periods := periods self;
     rsi_upper := rsi_upper self; rsi_lower := rsi_lower self; tc := tc self;
     results := Some r; data := data self |}.
Definition set_data (d : DataFrame) (self : t) : t :=
  {| symbol := symbol self; periods := periods self;
     rsi_upper := rsi_upper self; rsi_lower := rsi_lower self; tc := tc self;
     results := results self; data := d |}.

(** [data.MA_U / (data.MA_U + data.MA_D) * 100] *)
Definition rsi_formula (data : DataFrame) : column :=
  series_scale
    (series_div (df_get "MA_U" data)
       (series_add (df_get "MA_U" data) (df_get "MA_D" data))) 100.

Definition get_data (candles : list Candle) : M t unit :=
  let data := candle_frame candles in
  let data := df_set "returns" (log_returns data) data in
  let data :=
    df_set "U"
      (np_where_series_scalar (series_gt_scalar (diff (df_get "Close" data)) 0)
         (diff (df_get "Close" data)) (Some 0)) data in
  let data :=
    df_set "D"
      (np_where_series_scalar (series_lt_scalar (diff (df_get "Close" data)) 0)
         (series_neg (diff (df_get "Close" data))) (Some 0)) data in
  self <- get ;;
  u <- lift (rolling_mean (periods self) (df_get "U" data)) ;;
  let data := df_set "MA_U" u data in
  d <- lift (rolling_mean (periods self) (df_get "D" data)) ;;
  let data := df_set "MA_D" d data in
  let data := df_set "RSI" (rsi_formula data) data in
  modify (set_data data).

Definition init (symbol : string) (periods rsi_upper rsi_lower : Z) (tc : R)
    (candles : list Candle) : exn + t :=
  let self := {| symbol := symbol; periods := periods;
                 rsi_upper := rsi_upper; rsi_lower := rsi_lower; tc := tc;
                 results := None; data := candle_frame [] |} in
  match get_data candles self with
  | (inr _, self') => inr self'
  | (inl e, _) => inl e
  end.

Definition set_parameters (periods rsi_upper rsi_lower : option Z)
  : M t unit :=
  when_given periods (fun v =>
    modify (set_periods v) ;;;
    self <- get ;;
    u <- lift (rolling_mean (RSI.periods self) (df_get "U" (data self))) ;;
    modify (set_data (df_set "MA_U" u (data self))) ;;;
    self <- get ;;
    d <- lift (rolling_mean (RSI.periods self) (df_get "D" (data self))) ;;
    modify (set_data (df_set "MA_D" d (data self))) ;;;
    self <- get ;;
    modify (set_data (df_set "RSI" (rsi_formula (data self)) (data self)))) ;;;
  when_given rsi_upper (fun v => modify (set_rsi_upper v)) ;;;
  when_given rsi_lower (fun v => modify (set_rsi_lower v)).

Definition test_strategy : M t outcome :=
  self <- get ;;
  let data := dropna (data self) in
  let data :=
    df_set "position"
      (np_where (series_gt_scalar (df_get "RSI" data) (IZR (rsi_upper self)))
         (Some (-1)) None) data in
  let data :=
    df_set "position"
      (np_where_scalar_series
         (series_lt_scalar (df_get "RSI" data) (IZR (rsi_lower self)))
         (Some 1) (df_get "position" data)) data in
  let data := df_set "position" (fillna 0 (df_get "position" data)) data in
  let data :=
    df_set "strategy"
      (series_mul (shift1 (df_get "position" data)) (df_get "returns" data))
      data in
  let data := dropna data in
  let data :=
    df_set "trades" (series_abs (fillna 0 (diff (df_get "position" data))))
      data in
  let data :=
    df_set "strategy"
      (series_sub (df_get "strategy" data)
         (series_scale (df_get "trades" data) (tc self))) data in
  let data :=
    df_set "creturns" (series_exp (cumsum (df_get "returns" data))) data in
  let data :=
    df_set "cstrategy" (series_exp (cumsum (df_get "strategy" data))) data in
  modify (set_results data) ;;;
  perf <- lift (iloc_last (df_get "cstrategy" data)) ;;
  last_creturns <- lift (iloc_last (df_get "creturns" data)) ;;
  let outperf := csub perf last_creturns in
  ret (perf, outperf, data).

Definition update_and_run (RSI : point) : M t cell :=
  p0 <- lift (item 0 RSI) ;;
  p1 <- lift (item 1 RSI) ;;
  p2 <- lift (item 2 RSI) ;;
  set_parameters (Some (py_int p0)) (Some (py_int p1)) (Some (py_int p2)) ;;;
  r <- test_strategy ;;
  ret (cneg (fst (fst r))).

Definition optimize_parameters (periods_range rsi_upper_range rsi_lower_range : prange)
  : M t (point * cell) :=
  opt <- brute update_and_run [periods_range; rsi_upper_range; rsi_lower_range] ;;
  v <- update_and_run opt ;;
  ret (opt, cneg v).

End RSI.

(** ** SOBacktester *)

Module SO.

Record t := {
  symbol : string; periods : Z; D_mw : Z; tc : R;
  results : option DataFrame; data : DataFrame
}.

Definition set_periods (v : Z) (self : t) : t :=
  {| symbol := symbol self; periods := v; D_mw := D_mw self; tc := tc self;
     results := results self; data := data self |}.
Definition set_D_mw (v : Z) (self : t) : t :=
  {| symbol := symbol self; periods := periods self; D_mw := v; tc := tc self;
     results := results self; data := data self |}.
Definition set_results (r : DataFrame) (self : t) : t :=
  {| symbol := symbol self; periods := periods self; D_mw := D_mw self;
     tc := tc self; results := Some r; data := data self |}.
Definition set_data (d : DataFrame) (self : t) : t :=
  {| symbol := symbol self; periods := periods self; D_mw := D_mw self;
     tc := tc self; results := results self; data := d |}.

(** [(data.Close - data.roll_low) / (data.roll_high - data.roll_low) * 100] *)
Definition k_formula (data : DataFrame) : column :=
  series_scale
    (series_div (series_sub (df_get "Close" data) (df_get "roll_low" data))
       (series_sub (df_get "roll_high" data) (df_get "roll_low" data))) 100.

Definition get_data (candles : list Candle) : M t unit :=
  let data := candle_frame candles in
  let data := df_set "returns" (log_returns data) data in
  self <- get ;;
  lo <- lift (rolling_min (periods self) (df_get "Low" data)) ;;
  let data := df_set "roll_low" lo data in
  hi <- lift (rolling_max (periods self) (df_get "High" data)) ;;
  let data := df_set "roll_high" hi data in
  let data := df_set "K" (k_formula data) data in
  d <- lift (rolling_mean (D_mw self) (df_get "K" data)) ;;
  let data := df_set "D" d data in
  modify (set_data data).

Definition init (symbol : string) (periods D_mw : Z) (tc : R)
    (candles : list Candle) : exn + t :=
  let self := {| symbol := symbol; periods := periods; D_mw := D_mw; tc := tc;
                 results := None; data := candle_frame [] |} in
  match get_data candles self with
  | (inr _, self') => inr self'
  | (inl e, _) => inl e
  end.

Definition set_parameters (periods D_mw : option Z) : M t unit :=
  when_given periods (fun v =>
    modify (set_periods v) ;;;
    self <- get ;;
    lo <- lift (rolling_min (SO.periods self) (df_get "Low" (data self))) ;;
    modify (set_data (df_set "roll_low" lo (data self))) ;;;
    self <- get ;;
    hi <- lift (rolling_max (SO.periods self) (df_get "High" (data self))) ;;
    modify (set_data (df_set "roll_high" hi (data self))) ;;;
    self <- get ;;
    modify (set_data (df_set "K" (k_formula (data self)) (data self))) ;;;
    self <- get ;;
    d <- lift (rolling_mean (SO.D_mw self) (df_get "K" (data self))) ;;
    modify (set_data (df_set "D" d (data self)))) ;;;
  when_given D_mw (fun v =>
    modify (set_D_mw v) ;;;
    self <- get ;;
    d <- lift (rolling_mean (SO.D_mw self) (df_get "K" (data self))) ;;
    modify (set_data (df_set "D" d (data self)))).

Definition test_strategy : M t outcome :=
  self <- get ;;
  let data := dropna (data self) in
  let data :=
    df_set "position"
      (np_where (series_gt (df_get "K" data) (df_get "D" data))
         (Some 1) (Some (-1))) data in
  let data :=
    df_set "strategy"
      (series_mul (shift1 (df_get "position" data)) (df_get "returns" data))
      data in
  let data := dropna data in
  let data :=
    df_set "trades" (series_abs (fillna 0 (diff (df_get "position" data))))
      data in
  let data :=
    df_set "strategy"
      (series_sub (df_get "strategy" data)
         (series_scale (df_get "trades" data) (tc self))) data in
  let data :=
    df_set "creturns" (series_exp (cumsum (df_get "returns" data))) data in
  let data :=
    df_set "cstrategy" (series_exp (cumsum (df_get "strategy" data))) data in
  modify (set_results data) ;;;
  perf <- lift (iloc_last (df_get "cstrategy" data)) ;;
  last_creturns <- lift (iloc_last (df_get "creturns" data)) ;;
  let outperf := csub perf last_creturns in
  ret (perf, outperf, data).

Definition update_and_run (SO : point) : M t cell :=
  p0 <- lift (item 0 SO) ;;
  p1 <- lift (item 1 SO) ;;
  set_parameters (Some (py_int p0)) (Some (py_int p1)) ;;;
  r <- test_strategy ;;
  ret (cneg (fst (fst r))).

Definition optimize_parameters (periods_range D_mw_range : prange)
  : M t (point * cell) :=
  opt <- brute update_and_run [periods_range; D_mw_range] ;;
  v <- update_and_run opt ;;
  ret (opt, cneg v).

End SO.

(** ** The five classes as one type

    [Backetester.py] picks a class from the strategy name; an instance of
    any of the classes present is an [instance]. *)

Inductive instance :=
| SMA_of (self : SMA.t)
| EMA_of (self : EMA.t)
| MACD_of (self : MACD.t)
| RSI_of (self : RSI.t)
| SO_of (self : SO.t).

Definition on {St A} (inj : St -> instance) (m : M St A) (self : St)
  : (exn + A) * instance :=
  let (r, self') := m self in (r, inj self').

Definition test_strategy : M instance outcome := fun i =>
  match i with
  | SMA_of self => on SMA_of SMA.test_strategy self
  | EMA_of self => on EMA_of EMA.test_strategy self
  | MACD_of self => on MACD_of MACD.test_strategy self
  | RSI_of self => on RSI_of RSI.test_strategy self
  | SO_of self => on SO_of SO.test_strategy self
  end.

Definition update_and_run (x : point) : M instance cell := fun i =>
  match i with
  | SMA_of self => on SMA_of (SMA.update_and_run x) self
  | EMA_of self => on EMA_of (EMA.update_and_run x) self
  | MACD_of self => on MACD_of (MACD.update_and_run x) self
  | RSI_of self => on RSI_of (RSI.update_and_run x) self
  | SO_of self => on SO_of (SO.update_and_run x) self
  end.

(** [set_parameters] with one optional value per axis of the class. *)
Definition set_parameters (args : list (option Z)) : M instance unit :=
  fun i =>
  let arg k := nth k args None in
  match i with
  | SMA_of self =>
      on SMA_of (SMA.set_parameters (arg 0%nat) (arg 1%nat)) self
  | EMA_of self =>
      on EMA_of (EMA.set_parameters (arg 0%nat) (arg 1%nat)) self
  | MACD_of self =>
      on MACD_of (MACD.set_parameters (arg 0%nat) (arg 1%nat) (arg 2%nat))
        self
  | RSI_of self =>
      on RSI_of (RSI.set_parameters (arg 0%nat) (arg 1%nat) (arg 2%nat)) self
  | SO_of self => on SO_of (SO.set_parameters (arg 0%nat) (arg 1%nat)) self
  end.

(** [optimize_parameters] with one range per axis of the class. *)
Definition optimize_parameters (ranges : list prange)
  : M instance (point * cell) := fun i =>
  let r k := nth k ranges (0, 0, 0)%Q in
  match i with
  | SMA_of self =>
      on SMA_of (SMA.optimize_parameters (r 0%nat) (r 1%nat)) self
  | EMA_of self =>
      on EMA_of (EMA.optimize_parameters (r 0%nat) (r 1%nat)) self
  | MACD_of self =>
      on MACD_of (MACD.optimize_parameters (r 0%nat) (r 1%nat) (r 2%nat)) self
  | RSI_of self =>
      on RSI_of (RSI.optimize_parameters (r 0%nat) (r 1%nat) (r 2%nat)) self
  | SO_of self => on SO_of (SO.optimize_parameters (r 0%nat) (r 1%nat)) self
  end.

Definition data_of (i : instance) : DataFrame :=
  match i with
  | SMA_of self => SMA.data self
  | EMA_of self => EMA.data self
  | MACD_of self => MACD.data self
  | RSI_of self => RSI.data self
  | SO_of self => SO.data self
  end.

Definition results_of (i : instance) : option DataFrame :=
  match i with
  | SMA_of self => SMA.results self
  | EMA_of self => EMA.results self
  | MACD_of self => MACD.results self
  | RSI_of self => RSI.results self
  | SO_of self => SO.results self
  end.

Definition tc_of (i : instance) : R :=
  match i with
  | SMA_of self => SMA.tc self
  | EMA_of self => EMA.tc self
  | MACD_of self => MACD.tc self
  | RSI_of self => RSI.tc self
  | SO_of self => SO.tc self
  end.

(** The current parameter values, one per axis. *)
Definition parameters_of (i : instance) : list Z :=
  match i with
  | SMA_of self => [SMA.SMA_S self; SMA.SMA_L self]
  | EMA_of self => [EMA.EMA_S self; EMA.EMA_L self]
  | MACD_of self => [MACD.EMA_S self; MACD.EMA_L self; MACD.signal_mw self]
  | RSI_of self => [RSI.periods self; RSI.rsi_upper self; RSI.rsi_lower self]
  | SO_of self => [SO.periods self; SO.D_mw self]
  end.

(** The columns each class reads: those of the candles, the returns and its
    indicators. *)
Definition base_columns : list string :=
  ["Open"; "High"; "Low"; "Close"; "Volume"; "returns"].

Definition indicator_columns (i : instance) : list string :=
  match i with
  | SMA_of _ => ["SMA_S"; "SMA_L"]
  | EMA_of _ => ["EMA_S"; "EMA_L"]
  | MACD_of _ => ["EMA_S"; "EMA_L"; "MACD"; "MACD_Signal"]
  | RSI_of _ => ["U"; "D"; "MA_U"; "MA_D"; "RSI"]
  | SO_of _ => ["roll_low"; "roll_high"; "K"; "D"]
  end.

Definition column_names (df : DataFrame) : list string :=
  map fst (df_cols df).

Definition has_columns (names : list string) (df : DataFrame) : bool :=
  forallb (fun n => existsb (String.eqb n) (column_names df)) names.

Definition rectangular (df : DataFrame) : bool :=
  forallb (fun nc => (length (snd nc) =? nrows df)%nat) (df_cols df).

Fixpoint nodup_names (names : list string) : bool :=
  match names with
  | [] => true
  | n :: rest => negb (existsb (String.eqb n) rest) && nodup_names rest
  end.

(** What holds of the frame of an instance once [__init__] has returned:
    every column has one cell per row, no name occurs twice, and the columns
    the methods read are there. *)
Definition wf_frame (names : list string) (df : DataFrame) : bool :=
  rectangular df && nodup_names (column_names df) && has_columns names df.

Definition wf (i : instance) : bool :=
  wf_frame (base_columns ++ indicator_columns i) (data_of i).

(** ** The backtest as a function of the frame

    The body of every [test_strategy] is the same text from the line that
    assigns the strategy column on; [SMABacktester] alone has no trades
    column and no cost line. *)

Definition gross_tail (data : DataFrame) : DataFrame :=
  let data :=
    df_set "strategy"
      (series_mul (shift1 (df_get "position" data)) (df_get "returns" data))
      data in
  let data := dropna data in
  let data :=
    df_set "creturns" (series_exp (cumsum (df_get "returns" data))) data in
  df_set "cstrategy" (series_exp (cumsum (df_get "strategy" data))) data.

Definition costed_tail (tc : R) (data : DataFrame) : DataFrame :=
  let data :=
    df_set "strategy"
      (series_mul (shift1 (df_get "position" data)) (df_get "returns" data))
      data in
  let data := dropna data in
  let data :=
    df_set "trades" (series_abs (fillna 0 (diff (df_get "position" data))))
      data in
  let data :=
    df_set "strategy"
      (series_sub (df_get "strategy" data)
         (series_scale (df_get "trades" data) tc)) data in
  let data :=
    df_set "creturns" (series_exp (cumsum (df_get "returns" data))) data in
  df_set "cstrategy" (series_exp (cumsum (df_get "strategy" data))) data.

(** The last three lines: the two [iloc[-1]] and the returned list. *)
Definition finish (data : DataFrame) : exn + outcome :=
  match iloc_last (df_get "cstrategy" data) with
  | inl e => inl e
  | inr perf =>
      match iloc_last (df_get "creturns" data) with
      | inl e => inl e
      | inr last_creturns => inr (perf, csub perf last_creturns, data)
      end
  end.

(** The position series each class computes over the rows its first
    [dropna] keeps. *)
Definition crossover (fast slow : string) (data : DataFrame) : column :=
  np_where (series_gt (df_get fast data) (df_get slow data))
    (Some 1) (Some (-1)).

Definition threshold (upper lower : Z) (data : DataFrame) : column :=
  fillna 0
    (np_where_scalar_series
       (series_lt_scalar (df_get "RSI" data) (IZR lower)) (Some 1)
       (np_where (series_gt_scalar (df_get "RSI" data) (IZR upper))
          (Some (-1)) None)).

Definition positions (i : instance) : column :=
  match i with
  | SMA_of self => crossover "SMA_S" "SMA_L" (dropna (SMA.data self))
  | EMA_of self => crossover "EMA_S" "EMA_L" (dropna (EMA.data self))
  | MACD_of self => crossover "MACD" "MACD_Signal" (dropna (MACD.data self))
  | RSI_of self =>
      threshold (RSI.rsi_upper self) (RSI.rsi_lower self)
        (dropna (RSI.data self))
  | SO_of self => crossover "K" "D" (dropna (SO.data self))
  end.

Definition with_position (i : instance) : DataFrame :=
  df_set "position" (positions i) (dropna (data_of i)).

Definition backtest_frame (i : instance) : DataFrame :=
  match i with
  | SMA_of _ => gross_tail (with_position i)
  | _ => costed_tail (tc_of i) (with_position i)
  end.

Definition with_results (r : DataFrame) (i : instance) : instance :=
  match i with
  | SMA_of self => SMA_of (SMA.set_results r self)
  | EMA_of self => EMA_of (EMA.set_results r self)
  | MACD_of self => MACD_of (MACD.set_results r self)
  | RSI_of self => RSI_of (RSI.set_results r self)
  | SO_of self => SO_of (SO.set_results r self)
  end.

(** ** Vocabulary of the statements *)

(** A column without [nan]. *)
Definition full (c : column) : Prop := Forall (fun x => notna x = true) c.

Definition all_notna (df : DataFrame) : Prop :=
  Forall (fun nc => full (snd nc)) (df_cols df).

(** Dropping the first row of every column. *)
Definition df_tail (df : DataFrame) : DataFrame :=
  {| df_index := tl (df_index df);
     df_cols := map (fun nc => (fst nc, tl (snd nc))) (df_cols df) |}.

(** The gross strategy return of a period: the position of the period
    before times the log-return of the period. *)
Definition lagged (P Rt : column) : column :=
  tl (series_mul (shift1 P) Rt).

(** The trades column over the rows that remain once the first is gone. *)
Definition trades_of (P : column) : column :=
  series_abs (fillna 0 (diff (tl P))).

(** The rows the first [dropna] keeps, and their log-returns. *)
Definition kept (i : instance) : DataFrame := dropna (data_of i).
Definition kept_returns (i : instance) : column := df_get "returns" (kept i).

(** The net strategy return as the class of [i] computes it. *)
Definition net_strategy (i : instance) : column :=
  match i with
  | SMA_of _ => lagged (positions i) (kept_returns i)
  | _ =>
      series_sub (lagged (positions i) (kept_returns i))
        (series_scale (trades_of (positions i)) (tc_of i))
  end.


(** The arguments of a call that gives a value for one axis only. *)
Definition only (axis : nat) (v : Z) : list (option Z) :=
  match axis with
  | 0%nat => [Some v; None; None]
  | 1%nat => [None; Some v; None]
  | 2%nat => [None; None; Some v]
  | _ => [None; None; None]
  end.

(** The frame [SMABacktester.get_data] builds: the candles, the returns and
    the two rolling means. *)
Definition sma_frame (S L : Z) (candles : list Candle) : DataFrame :=
  let close := map (fun k => Some (c_close k)) candles in
  let frame := candle_frame candles in
  df_set "SMA_L"
    (map (rolling_at mean (Z.to_nat L) close) (seq 0 (length close)))
    (df_set "SMA_S"
       (map (rolling_at mean (Z.to_nat S) close) (seq 0 (length close)))
       (df_set "returns" (log_returns frame) frame)).

(** The frames [RSIBacktester.get_data] and [SOBacktester.get_data] build
    when the windows are not negative. *)
Definition rolled (agg : list R -> R) (window : Z) (c : column) : column :=
  map (rolling_at agg (Z.to_nat window) c) (seq 0 (length c)).

Definition rsi_frame (periods : Z) (candles : list Candle) : DataFrame :=
  let data := candle_frame candles in
  let data := df_set "returns" (log_returns data) data in
  let data :=
    df_set "U"
      (np_where_series_scalar (series_gt_scalar (diff (df_get "Close" data)) 0)
         (diff (df_get "Close" data)) (Some 0)) data in
  let data :=
    df_set "D"
      (np_where_series_scalar (series_lt_scalar (diff (df_get "Close" data)) 0)
         (series_neg (diff (df_get "Close" data))) (Some 0)) data in
  let data := df_set "MA_U" (rolled mean periods (df_get "U" data)) data in
  let data := df_set "MA_D" (rolled mean periods (df_get "D" data)) data in
  df_set "RSI" (RSI.rsi_formula data) data.

Definition so_frame (periods D_mw : Z) (candles : list Candle) : DataFrame :=
  let data := candle_frame candles in
  let data := df_set "returns" (log_returns data) data in
  let data :=
    df_set "roll_low" (rolled Rlist_min periods (df_get "Low" data)) data in
  let data :=
    df_set "roll_high" (rolled Rlist_max periods (df_get "High" data)) data in
  let data := df_set "K" (SO.k_formula data) data in
  df_set "D" (rolled mean D_mw (df_get "K" data)) data.

(** ** Vocabulary of the grid search *)

(** The number of parameters of a class. *)
Definition axes (i : instance) : nat :=
  match i with
  | MACD_of _ | RSI_of _ => 3
  | _ => 2
  end.

(** The ranges [optimize_parameters] passes to [brute]. *)
Definition ranges_of (i : instance) (ranges : list prange) : list prange :=
  map (fun k => nth k ranges (0, 0, 0)%Q) (seq 0 (axes i)).

(** The arguments [update_and_run] passes to [set_parameters]. *)
Definition coerced (x : point) : list (option Z) :=
  map (fun q => Some (py_int q)) x.

(** The absolute performance of the backtest at a grid point: what
    [test_strategy] returns first once [set_parameters] has been called
    with the coordinates of the point made integers. *)
Definition performance (i : instance) (x : point) : exn + cell :=
  match set_parameters (coerced x) i with
  | (inl e, _) => inl e
  | (inr _, i1) =>
      match fst (test_strategy i1) with
      | inl e => inl e
      | inr r => inr (fst (fst r))
      end
  end.

(** The indicator columns are those computed from the price columns with
    the current parameters. *)
Definition indicators_current (i : instance) : Prop :=
  match i with
  | SMA_of self =>
      let d := SMA.data self in
      rolling_mean (SMA.SMA_S self) (df_get "Close" d)
        = inr (df_get "SMA_S" d) /\
      rolling_mean (SMA.SMA_L self) (df_get "Close" d)
        = inr (df_get "SMA_L" d)
  | EMA_of self =>
      let d := EMA.data self in
      ewm_mean (EMA.EMA_S self) (EMA.EMA_S self) (df_get "Close" d)
        = inr (df_get "EMA_S" d) /\
      ewm_mean (EMA.EMA_L self) (EMA.EMA_L self) (df_get "Close" d)
        = inr (df_get "EMA_L" d)
  | MACD_of self =>
      let d := MACD.data self in
      ewm_mean (MACD.EMA_S self) (MACD.EMA_S self) (df_get "Close" d)
        = inr (df_get "EMA_S" d) /\
      ewm_mean (MACD.EMA_L self) (MACD.EMA_L self) (df_get "Close" d)
        = inr (df_get "EMA_L" d) /\
      df_get "MACD" d = series_sub (df_get "EMA_S" d) (df_get "EMA_L" d) /\
      ewm_mean (MACD.signal_mw self) (MACD.signal_mw self) (df_get "MACD" d)
        = inr (df_get "MACD_Signal" d)
  | RSI_of self =>
      let d := RSI.data self in
      rolling_mean (RSI.periods self) (df_get "U" d)
        = inr (df_get "MA_U" d) /\
      rolling_mean (RSI.periods self) (df_get "D" d)
        = inr (df_get "MA_D" d) /\
      df_get "RSI" d = RSI.rsi_formula d
  | SO_of self =>
      let d := SO.data self in
      rolling_min (SO.periods self) (df_get "Low" d)
        = inr (df_get "roll_low" d) /\
      rolling_max (SO.periods self) (df_get "High" d)
        = inr (df_get "roll_high" d) /\
      df_get "K" d = SO.k_formula d /\
      rolling_mean (SO.D_mw self) (df_get "K" d) = inr (df_get "D" d)
  end.


(** The columns a call of [set_parameters] with every value given
    assigns. *)
Definition recomputed (i : instance) : list string :=
  match i with
  | SMA_of _ => ["SMA_S"; "SMA_L"]
  | EMA_of _ => ["EMA_S"; "EMA_L"]
  | MACD_of _ => ["EMA_S"; "EMA_L"; "MACD"; "MACD_Signal"]
  | RSI_of _ => ["MA_U"; "MA_D"; "RSI"]
  | SO_of _ => ["roll_low"; "roll_high"; "K"; "D"]
  end.

(** A parameter that a later call of [set_parameters] reads before it
    assigns it must be one the window operations accept, as it is once
    [__init__] has returned. *)
Definition valid_parameters (i : instance) : Prop :=
  match i with
  | MACD_of self => (1 <= MACD.signal_mw self)%Z
  | SO_of self => (0 <= SO.D_mw self)%Z
  | _ => True
  end.

Definition good (i : instance) : Prop := wf i = true /\ valid_parameters i.

(** Two frames with the same index and the same column names that agree on
    every column outside [names]. *)
Definition frames_agree (names : list string) (d d0 : DataFrame) : Prop :=
  df_index d = df_index d0 /\
  column_names d = column_names d0 /\
  forall n, ~ In n names -> df_get n d = df_get n d0.

(** [i] is an instance of the class of [i0] with the same cost and the same
    frame but for the recomputed columns. *)
Definition same_inputs (i0 i : instance) : Prop :=
  good i /\
  match i0, i with
  | SMA_of a, SMA_of b => SMA.tc a = SMA.tc b
  | EMA_of a, EMA_of b => EMA.tc a = EMA.tc b
  | MACD_of a, MACD_of b => MACD.tc a = MACD.tc b
  | RSI_of a, RSI_of b => RSI.tc a = RSI.tc b
  | SO_of a, SO_of b => SO.tc a = SO.tc b
  | _, _ => False
  end /\
  frames_agree (recomputed i0) (data_of i) (data_of i0).

(** [np.argmin] on values without [nan]: the index of the first least
    value. *)
Definition first_least (J : list cell) (k : nat) : Prop :=
  (k < length J)%nat /\
  exists v, nth k J None = Some v /\
    (forall j w, nth j J None = Some w -> v <= w) /\
    (forall j w, (j < k)%nat -> nth j J None = Some w -> v < w).


(** The parameter values the window operations of a class accept: a
    rolling window must not be negative, a span must be at least 1. *)
Definition accepted (i : instance) (zs : list Z) : Prop :=
  match i, zs with
  | SMA_of _, a :: b :: _ => (0 <= a)%Z /\ (0 <= b)%Z
  | EMA_of _, a :: b :: _ => (1 <= a)%Z /\ (1 <= b)%Z
  | MACD_of _, a :: b :: c :: _ => (1 <= a)%Z /\ (1 <= b)%Z /\ (1 <= c)%Z
  | RSI_of _, a :: _ :: _ :: _ => (0 <= a)%Z
  | SO_of _, a :: b :: _ => (0 <= a)%Z /\ (0 <= b)%Z
  | _, _ => False
  end.

(** The column [ewm(span, min_periods=span).mean()] gives for a span of at
    least 1, and the frames of the two classes that use it. *)
Definition ewmed (span : Z) (c : column) : column :=
  ewm_scan (2 / (IZR span + 1)) (Z.to_nat (Z.max span 1))
    {| weighted := None; old_wt := 1; nobs := 0 |} c.

Definition ema_frame (EMA_S EMA_L : Z) (candles : list Candle) : DataFrame :=
  let data := candle_frame candles in
  let data := df_set "returns" (log_returns data) data in
  let data := df_set "EMA_S" (ewmed EMA_S (df_get "Close" data)) data in
  df_set "EMA_L" (ewmed EMA_L (df_get "Close" data)) data.

Definition macd_frame (EMA_S EMA_L signal_mw : Z) (candles : list Candle)
  : DataFrame :=
  let data := candle_frame candles in
  let data := df_set "returns" (log_returns data) data in
  let data := df_set "EMA_S" (ewmed EMA_S (df_get "Close" data)) data in
  let data := df_set "EMA_L" (ewmed EMA_L (df_get "Close" data)) data in
  let data :=
    df_set "MACD" (series_sub (df_get "EMA_S" data) (df_get "EMA_L" data))
      data in
  df_set "MACD_Signal" (ewmed signal_mw (df_get "MACD" data)) data.

(** ** The five classes as one family

    The constructors take the same arguments but for the parameters; a
    [family] names the class and [params] is the tuple of its parameters in
    the order of [__init__]. *)

Inductive family := SMA_class | EMA_class | MACD_class | RSI_class | SO_class.

Definition family_of (i : instance) : family :=
  match i with
  | SMA_of _ => SMA_class
  | EMA_of _ => EMA_class
  | MACD_of _ => MACD_class
  | RSI_of _ => RSI_class
  | SO_of _ => SO_class
  end.

Definition params (f : family) : Type :=
  match f with
  | MACD_class | RSI_class => (Z * Z * Z)%type
  | _ => (Z * Z)%type
  end.

(** [Class(symbol, *params, start, end, granularity, tc)] on the candles the
    request returns. *)
Definition construct (f : family) (symbol : string) : params f -> R ->
    list Candle -> exn + instance :=
  match f with
  | SMA_class => fun p tc candles =>
      match SMA.init symbol (fst p) (snd p) tc candles with
      | inl e => inl e
      | inr self => inr (SMA_of self)
      end
  | EMA_class => fun p tc candles =>
      match EMA.init symbol (fst p) (snd p) tc candles with
      | inl e => inl e
      | inr self => inr (EMA_of self)
      end
  | MACD_class => fun p tc candles =>
      match MACD.init symbol (fst (fst p)) (snd (fst p)) (snd p) tc candles
      with
      | inl e => inl e
      | inr self => inr (MACD_of self)
      end
  | RSI_class => fun p tc candles =>
      match RSI.init symbol (fst (fst p)) (snd (fst p)) (snd p) tc candles
      with
      | inl e => inl e
      | inr self => inr (RSI_of self)
      end
  | SO_class => fun p tc candles =>
      match SO.init symbol (fst p) (snd p) tc candles with
      | inl e => inl e
      | inr self => inr (SO_of self)
      end
  end.

(** The parameters as a list, one per axis. *)
Definition values (f : family) : params f -> list Z :=
  match f with
  | MACD_class | RSI_class => fun p => [fst (fst p); snd (fst p); snd p]
  | _ => fun p => [fst p; snd p]
  end.

(** The parameters the window operations of the class accept: a rolling
    window must not be negative, a span must be at least 1; the thresholds
    of the RSI are not looked at. *)
Definition acceptable (f : family) : params f -> Prop :=
  match f with
  | SMA_class | SO_class => fun p => (0 <= fst p)%Z /\ (0 <= snd p)%Z
  | EMA_class => fun p => (1 <= fst p)%Z /\ (1 <= snd p)%Z
  | MACD_class => fun p =>
      (1 <= fst (fst p))%Z /\ (1 <= snd (fst p))%Z /\ (1 <= snd p)%Z
  | RSI_class => fun p => (0 <= fst (fst p))%Z
  end.

(** The frame the constructor of the class builds. *)
Definition frame_of (f : family) : params f -> list Candle -> DataFrame :=
  match f with
  | SMA_class => fun p => sma_frame (fst p) (snd p)
  | EMA_class => fun p => ema_frame (fst p) (snd p)
  | MACD_class => fun p => macd_frame (fst (fst p)) (snd (fst p)) (snd p)
  | RSI_class => fun p => rsi_frame (fst (fst p))
  | SO_class => fun p => so_frame (fst p) (snd p)
  end.

(** The classes whose position is a comparison of two columns, and the two
    columns. *)
Definition fast_slow (i : instance) : option (string * string) :=
  match i with
  | SMA_of _ => Some ("SMA_S", "SMA_L")
  | EMA_of _ => Some ("EMA_S", "EMA_L")
  | MACD_of _ => Some ("MACD", "MACD_Signal")
  | RSI_of _ => None
  | SO_of _ => Some ("K", "D")
  end.

(** The instance [__init__] leaves: the attributes as given, no stored
    result, and the frame of [get_data]. *)
Definition fresh (f : family) (symbol : string) : params f -> R ->
    DataFrame -> instance :=
  match f with
  | SMA_class => fun p tc d =>
      SMA_of {| SMA.symbol := symbol; SMA.SMA_S := fst p;
                SMA.SMA_L := snd p; SMA.tc := tc; SMA.results := None;
                SMA.data := d |}
  | EMA_class => fun p tc d =>
      EMA_of {| EMA.symbol := symbol; EMA.EMA_S := fst p;
                EMA.EMA_L := snd p; EMA.tc := tc; EMA.results := None;
                EMA.data := d |}
  | MACD_class => fun p tc d =>
      MACD_of {| MACD.symbol := symbol; MACD.EMA_S := fst (fst p);
                 MACD.EMA_L := snd (fst p); MACD.signal_mw := snd p;
                 MACD.tc := tc; MACD.results := None; MACD.data := d |}
  | RSI_class => fun p tc d =>
      RSI_of {| RSI.symbol := symbol; RSI.periods := fst (fst p);
                RSI.rsi_upper := snd (fst p); RSI.rsi_lower := snd p;
                RSI.tc := tc; RSI.results := None; RSI.data := d |}
  | SO_class => fun p tc d =>
      SO_of {| SO.symbol := symbol; SO.periods := fst p; SO.D_mw := snd p;
               SO.tc := tc; SO.results := None; SO.data := d |}
  end.

(** ** FibonacciBacktester

    The class keeps a frame with the closes and their log-returns;
    [find_local_highs_lows] adds two columns of flags, and [plot_results]
    draws the closes, the flagged rows and three retracement levels.  The
    frame has its own type here: its last two columns hold booleans and
    exist only once [find_local_highs_lows] has run. *)

Module Fib.

Record frame := {
  index : list Z;
  Close : column;
  returns : column;
  local_high : option (list bool);
  local_low : option (list bool)
}.

Record t := { symbol : string; data : option frame }.

(** [__init__] stores its arguments and no data. *)
Definition init (symbol : string) : t := {| symbol := symbol; data := None |}.

(** [get_data]: the time and the close of every candle of the response,
    and the log-returns. *)
Definition get_data (candles : list Candle) (self : t) : t :=
  let close := map (fun k => Some (c_close k)) candles in
  {| symbol := symbol self;
     data :=
       Some {| index := map c_time candles;
               Close := close;
               returns := series_log (series_div close (shift1 close));
               local_high := None;
               local_low := None |} |}.

(** [data.at[label, column] = True]: every row with that label. *)
Definition set_at (label : Z) (idx : list Z) (flags : list bool) : list bool :=
  map (fun p : Z * bool => if (fst p =? label)%Z then true else snd p)
    (combine idx flags).

(** The body of the loop at position [i]; the two columns of flags are the
    state.  The labels of the frame are times, not integers, so the
    subscript [i] of the column of closes is a position, while [data.at]
    goes by the label of that position. *)
Definition mark (close : column) (idx : list Z) (flags : list bool * list bool)
    (i : nat) : list bool * list bool :=
  let c k := nth k close None in
  if cgt (c i) (c (i - 1)%nat) && cgt (c i) (c (i + 1)%nat)
  then (set_at (nth i idx 0%Z) idx (fst flags), snd flags)
  else if clt (c i) (c (i - 1)%nat) && clt (c i) (c (i + 1)%nat)
  then (fst flags, set_at (nth i idx 0%Z) idx (snd flags))
  else flags.

Definition no_data_to_search : string :=
  "No data available for finding local highs and lows. Use get_data() to fetch data.".

(** [find_local_highs_lows]: what is printed, and the instance. *)
Definition find_local_highs_lows (self : t) : list string * t :=
  match data self with
  | None => ([no_data_to_search], self)
  | Some d =>
      let n := length (index d) in
      let flags :=
        fold_left (mark (Close d) (index d)) (seq 1 (n - 2))
          (repeat false n, repeat false n) in
      ([],
       {| symbol := symbol self;
          data :=
            Some {| index := index d; Close := Close d;
                    returns := returns d;
                    local_high := Some (fst flags);
                    local_low := Some (snd flags) |} |})
  end.

(** What [plot_results] can raise: a column that is not there, and the
    greatest of no value. *)
Inductive raised := KeyError | ValueError.

(** [ndarray.max()] and [ndarray.min()]: [nan] when a value is [nan]. *)
Definition np_max (c : column) : raised + cell :=
  match c with
  | [] => inl ValueError
  | _ :: _ => inr (option_map Rlist_max (sequence c))
  end.

Definition np_min (c : column) : raised + cell :=
  match c with
  | [] => inl ValueError
  | _ :: _ => inr (option_map Rlist_min (sequence c))
  end.

(** What is drawn: the line of the closes, the two scatters and one
    horizontal line per level. *)
Record figure := {
  title : string;
  price : list (Z * cell);
  highs : list (Z * cell);
  lows : list (Z * cell);
  levels : list (R * cell)
}.

Definition fib_levels : list R := [236 / 1000; 382 / 1000; 618 / 1000].

Definition no_data_to_plot : string :=
  "No data available for plotting. Use get_data() to fetch data.".

(** [plot_results]: what is printed, and the figure or the exception. *)
Definition plot_results (self : t) : list string * (raised + option figure) :=
  match data self with
  | None => ([no_data_to_plot], inr None)
  | Some d =>
      match local_high d with
      | None => ([], inl KeyError)
      | Some high =>
          match local_low d with
          | None => ([], inl KeyError)
          | Some low =>
              match np_max (Close d), np_min (Close d) with
              | inl e, _ => ([], inl e)
              | _, inl e => ([], inl e)
              | inr top, inr bottom =>
                  ([],
                   inr (Some
                     {| title :=
                          String.append "Local Highs and Lows for "
                            (symbol self);
                        price := combine (index d) (Close d);
                        highs :=
                          combine (select high (index d))
                            (select high (Close d));
                        lows :=
                          combine (select low (index d))
                            (select low (Close d));
                        levels :=
                          map (fun level =>
                                 (level,
                                  csub top
                                    (cmul (csub top bottom) (Some level))))
                            fib_levels |}))
              end
          end
      end
  end.

End Fib.

(** ** Concrete candles and instances

    The instances below are written out; each is what the constructor of
    its class returns on the candles named (lemmas [sma_zigzag_init] and
    the like). *)

(** A candle whose four prices are equal. *)
Definition flat_candle (t : Z) (price : R) : Candle :=
  {| c_time := t; c_open := price; c_high := price; c_low := price;
     c_close := price; c_volume := 1 |}.

Definition zigzag : list Candle :=
  [flat_candle 0 100; flat_candle 1 101; flat_candle 2 100; flat_candle 3 101].

Definition up_up_down : list Candle :=
  [flat_candle 0 100; flat_candle 1 101; flat_candle 2 102; flat_candle 3 101].

Definition rising : list Candle :=
  [flat_candle 0 100; flat_candle 1 101; flat_candle 2 102].

Definition two_candles : list Candle :=
  [flat_candle 0 100; flat_candle 1 101].

(** The frame of flat candles with the given closes, the returns column
    and the indicator columns of a class. *)
Definition flat_frame (closes : column) (returns : column)
    (indicators : list (string * column)) : DataFrame :=
  {| df_index := map Z.of_nat (seq 0 (length closes));
     df_cols :=
       ([("Open", closes); ("High", closes); ("Low", closes);
         ("Close", closes); ("Volume", map (fun _ => Some 1) closes);
         ("returns", returns)] ++ indicators)%list |}.

Definition zigzag_closes : column := [Some 100; Some 101; Some 100; Some 101].
Definition zigzag_returns : column :=
  [None; Some (ln (101 / 100)); Some (ln (100 / 101)); Some (ln (101 / 100))].

(** [SMABacktester("X", 1, 2, ..., tc=0.01)] on [zigzag]. *)
Definition sma_zigzag : SMA.t :=
  {| SMA.symbol := "X"; SMA.SMA_S := 1; SMA.SMA_L := 2; SMA.tc := 1 / 100;
     SMA.results := None;
     SMA.data :=
       flat_frame zigzag_closes zigzag_returns
         [("SMA_S", zigzag_closes);
          ("SMA_L", [None; Some (201 / 2); Some (201 / 2); Some (201 / 2)])]
  |}.

(** [EMABacktester("X", 1, 2, ..., tc=0.01)] on [zigzag]. *)
Definition ema_zigzag : EMA.t :=
  {| EMA.symbol := "X"; EMA.EMA_S := 1; EMA.EMA_L := 2; EMA.tc := 1 / 100;
     EMA.results := None;
     EMA.data :=
       flat_frame zigzag_closes zigzag_returns
         [("EMA_S", zigzag_closes);
          ("EMA_L",
           [None; Some (403 / 4); Some (1303 / 13); Some (403 / 4)])] |}.

Definition rising_closes : column := [Some 100; Some 101; Some 102].

(** [SMABacktester("X", 1, 1, ...)] on [rising]. *)
Definition sma_unit_windows : SMA.t :=
  {| SMA.symbol := "X"; SMA.SMA_S := 1; SMA.SMA_L := 1; SMA.tc := 0;
     SMA.results := None;
     SMA.data :=
       flat_frame rising_closes
         [None; Some (ln (101 / 100)); Some (ln (102 / 101))]
         [("SMA_S", rising_closes); ("SMA_L", rising_closes)] |}.

(** [SMABacktester("X", 1, 2, ...)] on [two_candles]. *)
Definition sma_short : SMA.t :=
  {| SMA.symbol := "X"; SMA.SMA_S := 1; SMA.SMA_L := 2; SMA.tc := 0;
     SMA.results := None;
     SMA.data :=
       flat_frame [Some 100; Some 101] [None; Some (ln (101 / 100))]
         [("SMA_S", [Some 100; Some 101]); ("SMA_L", [None; Some (201 / 2)])]
  |}.

(** [RSIBacktester("X", 2, 70, 30, ..., tc=0)] on [up_up_down]. *)
Definition rsi_up_up_down : RSI.t :=
  {| RSI.symbol := "X"; RSI.periods := 2; RSI.rsi_upper := 70;
     RSI.rsi_lower := 30; RSI.tc := 0; RSI.results := None;
     RSI.data :=
       flat_frame [Some 100; Some 101; Some 102; Some 101]
         [None; Some (ln (101 / 100)); Some (ln (102 / 101));
          Some (ln (101 / 102))]
         [("U", [Some 0; Some 1; Some 1; Some 0]);
          ("D", [Some 0; Some 0; Some 0; Some 1]);
          ("MA_U", [None; Some (1 / 2); Some 1; Some (1 / 2)]);
          ("MA_D", [None; Some 0; Some 0; Some (1 / 2)]);
          ("RSI", [None; Some 100; Some 100; Some 50])] |}.

(** ** The threshold rule as the specification words it

    Modelled from the spec: the position is [-1] above the upper threshold,
    [+1] below the lower one, and otherwise the previous emitted state,
    which is [0] before the first crossing. *)
Fixpoint spec_carry_forward (upper lower prev : R) (indicator : list R)
  : list R :=
  match indicator with
  | [] => []
  | x :: rest =>
      let cur :=
        if Rgtb x upper then -1 else if Rltb x lower then 1 else prev in
      cur :: spec_carry_forward upper lower cur rest
  end.

(** The rule of [RSIBacktester.test_strategy], one indicator value at a
    time. *)
Definition threshold_rule (upper lower : Z) (x : R) : R :=
  if Rltb x (IZR lower) then 1
  else if Rgtb x (IZR upper) then -1
  else 0.

Definition flat_prices : list Candle := [flat_candle 0 100; flat_candle 1 100].

(** The grid [brute] builds for [SMABacktester.optimize_parameters((1, 2, 1),
    (2, 4, 1))]: the two points [(1, 2)] and [(1, 3)]. *)
Definition zigzag_ranges : list prange := [(1, 2, 1)%Q; (2, 4, 1)%Q].

(** [sma_zigzag] after that search: the windows are 1 and 3, and the stored
    result is the one row the backtest keeps with these windows. *)
Definition sma_zigzag_best : SMA.t :=
  {| SMA.symbol := "X"; SMA.SMA_S := 1; SMA.SMA_L := 3; SMA.tc := 1 / 100;
     SMA.results :=
       Some
         {| df_index := [3%Z];
            df_cols :=
              [("Open", [Some 101]); ("High", [Some 101]);
               ("Low", [Some 101]); ("Close", [Some 101]);
               ("Volume", [Some 1]); ("returns", [Some (ln (101 / 100))]);
               ("SMA_S", [Some 101]); ("SMA_L", [Some (302 / 3)]);
               ("position", [Some 1]);
               ("strategy", [Some (- ln (101 / 100))]);
               ("creturns", [Some (101 / 100)]);
               ("cstrategy", [Some (100 / 101)])] |};
     SMA.data :=
       flat_frame zigzag_closes zigzag_returns
         [("SMA_S", zigzag_closes);
          ("SMA_L", [None; None; Some (301 / 3); Some (302 / 3)])] |}.

(** * Properties *)

(** ** Deciding the tests on reals *)

Lemma Rgtb_true a b : a > b -> Rgtb a b = true.
Proof. intros; unfold Rgtb; destruct (Rgt_dec a b); tauto. Qed.
Lemma Rgtb_false a b : ~ a > b -> Rgtb a b = false.
Proof. intros; unfold Rgtb; destruct (Rgt_dec a b); tauto. Qed.
Lemma Rltb_true a b : a < b -> Rltb a b = true.
Proof. intros; unfold Rltb; destruct (Rlt_dec a b); tauto. Qed.
Lemma Rltb_false a b : ~ a < b -> Rltb a b = false.
Proof. intros; unfold Rltb; destruct (Rlt_dec a b); tauto. Qed.
Lemma Reqb_true a b : a = b -> Reqb a b = true.
Proof. intros; unfold Reqb; destruct (Req_dec_T a b); tauto. Qed.
Lemma Reqb_false a b : a <> b -> Reqb a b = false.
Proof. intros; unfold Reqb; destruct (Req_dec_T a b); tauto. Qed.

(** Running the model on concrete candles: unfold everything but the
    operations on reals, then settle each test with [lra]. *)
Ltac run :=
  cbv -[Rplus Rmult Rdiv Rminus Ropp IZR ln exp Rgtb Rltb Reqb Rinv Rabs
        Rmin Rmax].
Ltac real_fact :=
  first [ lra
        | solve [field_simplify; lra]
        | solve [let H := fresh in intro H; field_simplify in H; lra] ].
Ltac tests :=
  repeat match goal with
    | |- context [Rgtb ?a ?b] =>
        first [rewrite (Rgtb_true a b) by real_fact
              | rewrite (Rgtb_false a b) by real_fact]
    | |- context [Rltb ?a ?b] =>
        first [rewrite (Rltb_true a b) by real_fact
              | rewrite (Rltb_false a b) by real_fact]
    | |- context [Reqb ?a ?b] =>
        first [rewrite (Reqb_true a b) by real_fact
              | rewrite (Reqb_false a b) by real_fact]
    end.
Ltac eval_py := repeat (run; tests).

(** ** Columns of a frame *)

Lemma assoc_get_set (n m : string) c cs :
  assoc_get m (assoc_set n c cs) =
  if String.eqb n m then c else assoc_get m cs.
Proof.
  induction cs as [|[k c'] cs IH]; simpl.
  - destruct (String.eqb n m); reflexivity.
  - destruct (String.eqb_spec k n) as [->|Hkn]; simpl.
    + destruct (String.eqb n m); reflexivity.
    + destruct (String.eqb_spec k m) as [->|Hkm].
      * destruct (String.eqb_spec n m) as [->|_]; [congruence|reflexivity].
      * exact IH.
Qed.

Lemma df_get_set (n m : string) c df :
  df_get m (df_set n c df) = if String.eqb n m then c else df_get m df.
Proof. apply assoc_get_set. Qed.

Lemma df_index_set n c df : df_index (df_set n c df) = df_index df.
Proof. reflexivity. Qed.

Lemma nrows_set n c df : nrows (df_set n c df) = nrows df.
Proof. reflexivity. Qed.

Lemma assoc_set_set n c c' cs :
  assoc_set n c (assoc_set n c' cs) = assoc_set n c cs.
Proof.
  induction cs as [|[k c0] cs IH]; simpl.
  - rewrite String.eqb_refl; reflexivity.
  - destruct (String.eqb_spec k n) as [->|Hkn]; simpl.
    + rewrite String.eqb_refl; reflexivity.
    + destruct (String.eqb_spec k n); [contradiction|]. now rewrite IH.
Qed.

Lemma df_set_set n c c' df :
  df_set n c (df_set n c' df) = df_set n c df.
Proof. unfold df_set; simpl. now rewrite assoc_set_set. Qed.

Lemma existsb_eqb_In n (l : list string) :
  existsb (String.eqb n) l = true <-> In n l.
Proof.
  rewrite existsb_exists; split.
  - intros (x & Hx & E). apply String.eqb_eq in E. now subst.
  - intros H; exists n; split; [assumption|apply String.eqb_refl].
Qed.

Lemma names_assoc_set n c cs :
  In n (map fst cs) -> map fst (assoc_set n c cs) = map fst cs.
Proof.
  induction cs as [|[k c'] cs IH]; simpl; [tauto|].
  intros H. destruct (String.eqb_spec k n) as [->|Hkn]; simpl.
  - reflexivity.
  - f_equal. apply IH. destruct H; [contradiction|assumption].
Qed.

Lemma names_assoc_set_new n c cs :
  ~ In n (map fst cs) -> map fst (assoc_set n c cs) = (map fst cs ++ [n])%list.
Proof.
  induction cs as [|[k c'] cs IH]; simpl; [reflexivity|].
  intros H. destruct (String.eqb_spec k n) as [->|Hkn]; simpl.
  - tauto.
  - f_equal. apply IH. tauto.
Qed.

Lemma nodup_names_NoDup l : nodup_names l = true <-> NoDup l.
Proof.
  induction l as [|n l IH]; simpl.
  - split; [constructor|reflexivity].
  - rewrite andb_true_iff, negb_true_iff, IH. split.
    + intros [H1 H2]. constructor; [|assumption].
      intros Hin. apply existsb_eqb_In in Hin. congruence.
    + intros H; inversion_clear H as [|? ? H1 H2]. split; [|assumption].
      destruct (existsb (String.eqb n) l) eqn:E; [|reflexivity].
      apply existsb_eqb_In in E. contradiction.
Qed.

(** Two association lists with the same names, none repeated, are equal
    when every lookup agrees. *)
Lemma assoc_ext cs cs' :
  map fst cs = map fst cs' -> NoDup (map fst cs) ->
  (forall n, In n (map fst cs) -> assoc_get n cs = assoc_get n cs') ->
  cs = cs'.
Proof.
  revert cs'; induction cs as [|[k c] cs IH]; intros [|[k' c'] cs'];
    simpl; try discriminate; [reflexivity|].
  intros E ND H. injection E as -> E. inversion_clear ND as [|? ? Hk ND'].
  assert (c = c') as ->.
  { specialize (H k' (or_introl eq_refl)).
    now rewrite String.eqb_refl in H. }
  f_equal. apply IH; [assumption|assumption|].
  intros n Hn. specialize (H n (or_intror Hn)).
  destruct (String.eqb_spec k' n) as [->|_]; [contradiction|assumption].
Qed.

(** ** Selecting rows *)

Lemma select_repeat_true {A} (l : list A) n :
  (length l <= n)%nat -> select (repeat true n) l = l.
Proof.
  revert n; induction l as [|x l IH]; intros [|n]; simpl; try reflexivity.
  - lia.
  - intros H. f_equal. apply IH. lia.
Qed.

Lemma select_nil {A} (mask : list bool) : select mask (@nil A) = [].
Proof. destruct mask; reflexivity. Qed.

Lemma select_map {A B} (f : A -> B) mask l :
  select mask (map f l) = map f (select mask l).
Proof.
  revert l; induction mask as [|b mask IH]; intros [|x l]; simpl;
    try reflexivity.
  destruct b; simpl; now rewrite IH.
Qed.

Lemma select_length_le {A} mask (l : list A) :
  (length (select mask l) <= length l)%nat.
Proof.
  revert l; induction mask as [|b mask IH]; intros [|x l]; simpl; try lia.
  specialize (IH l). destruct b; simpl; lia.
Qed.

Lemma select_length {A B} mask (l : list A) (l' : list B) :
  length l = length l' -> length (select mask l) = length (select mask l').
Proof.
  revert l l'; induction mask as [|b mask IH]; intros [|x l] [|y l'];
    simpl; try reflexivity; try discriminate.
  intros H. injection H as H. specialize (IH _ _ H).
  destruct b; simpl; congruence.
Qed.

Lemma assoc_get_map (f : column -> column) n cs :
  f [] = [] ->
  assoc_get n (map (fun nc => (fst nc, f (snd nc))) cs) = f (assoc_get n cs).
Proof.
  intros Hf; induction cs as [|[k c] cs IH]; simpl; [now rewrite Hf|].
  destruct (String.eqb k n); [reflexivity|exact IH].
Qed.

Lemma df_get_dropna n df :
  df_get n (dropna df) = select (notna_mask df) (df_get n df).
Proof.
  unfold df_get, dropna; simpl.
  apply (assoc_get_map (select (notna_mask df))). apply select_nil.
Qed.

Lemma names_dropna df : column_names (dropna df) = column_names df.
Proof.
  unfold column_names, dropna; simpl. rewrite map_map. reflexivity.
Qed.

(** ** Dropping rows *)

Lemma rectangular_spec df :
  rectangular df = true <->
  Forall (fun nc => length (snd nc) = nrows df) (df_cols df).
Proof.
  unfold rectangular. rewrite forallb_forall, Forall_forall.
  split; intros H x Hx; specialize (H x Hx);
    [now apply Nat.eqb_eq|now apply Nat.eqb_eq].
Qed.

Lemma select_seq_Forall (P : cell -> Prop) (f : nat -> bool) c :
  forall k n,
    (forall i x, nth_error c i = Some x -> f (k + i)%nat = true -> P x) ->
    Forall P (select (map f (seq k n)) c).
Proof.
  induction c as [|x c IH]; intros k n H.
  - rewrite select_nil. constructor.
  - destruct n as [|n]; simpl; [constructor|].
    assert (Hrest : Forall P (select (map f (seq (S k) n)) c)).
    { apply IH. intros i y Hy Hf. apply (H (S i) y Hy).
      now rewrite Nat.add_succ_r. }
    destruct (f k) eqn:E; [|assumption].
    constructor; [|assumption].
    apply (H 0%nat x eq_refl). now rewrite Nat.add_0_r.
Qed.

Lemma dropna_all_notna df : all_notna (dropna df).
Proof.
  unfold all_notna, dropna; simpl. apply Forall_map, Forall_forall.
  intros [n c] Hin; simpl. unfold notna_mask.
  apply select_seq_Forall. intros i x Hx Hrow; simpl in Hrow.
  unfold row_notna in Hrow. rewrite forallb_forall in Hrow.
  specialize (Hrow _ Hin); simpl in Hrow.
  now rewrite (nth_error_nth _ _ _ Hx) in Hrow.
Qed.

Lemma dropna_rectangular df :
  rectangular df = true -> rectangular (dropna df) = true.
Proof.
  rewrite !rectangular_spec. unfold dropna, nrows; simpl.
  intros H. apply Forall_map. revert H. apply Forall_impl.
  intros [n c] Hc; simpl in *. now apply select_length.
Qed.

Lemma full_nth c i :
  full c -> (i < length c)%nat -> exists x, nth i c None = Some x.
Proof.
  intros H Hi. unfold full in H. rewrite Forall_forall in H.
  specialize (H (nth i c None) (nth_In _ _ Hi)).
  destruct (nth i c None); [eauto|discriminate].
Qed.

Lemma map_nth_seq {A B} (f : A -> B) (l : list A) d :
  map (fun i => f (nth i l d)) (seq 0 (length l)) = map f l.
Proof.
  induction l as [|x l IH]; simpl; [reflexivity|].
  f_equal. rewrite <- seq_shift, map_map. exact IH.
Qed.

(** The mask of a frame whose columns are all full but one. *)
Lemma row_notna_set n s cs i :
  Forall (fun nc => notna (nth i (snd nc) None) = true) cs ->
  row_notna (assoc_set n s cs) i = notna (nth i s None).
Proof.
  unfold row_notna.
  induction 1 as [|[k c] cs Hc Hcs IH]; simpl in *.
  - apply andb_true_r.
  - destruct (String.eqb k n); simpl.
    + replace (forallb _ cs) with true; [apply andb_true_r|].
      symmetry. apply forallb_forall. rewrite Forall_forall in Hcs.
      exact Hcs.
    + now rewrite Hc.
Qed.

Lemma notna_mask_set n s df :
  all_notna df -> rectangular df = true -> length s = nrows df ->
  notna_mask (df_set n s df) = map notna s.
Proof.
  intros Hfull Hrect Hlen. unfold notna_mask. rewrite nrows_set, <- Hlen.
  rewrite <- (map_nth_seq notna s None). apply map_ext_in.
  intros i Hi. apply in_seq in Hi. simpl. apply row_notna_set.
  apply rectangular_spec in Hrect. unfold all_notna in Hfull.
  rewrite Forall_forall in *. intros nc Hnc.
  destruct (full_nth (snd nc) i (Hfull _ Hnc)) as [x Hx].
  - specialize (Hrect _ Hnc). unfold column, cell in *. lia.
  - unfold column, cell in *. now rewrite Hx.
Qed.

Lemma all_notna_set n s df :
  all_notna df -> full s -> all_notna (df_set n s df).
Proof.
  unfold all_notna, df_set; simpl. intros H Hs.
  induction H as [|[k c] cs Hc Hcs IH]; simpl.
  - constructor; [exact Hs|constructor].
  - destruct (String.eqb k n); constructor; auto.
Qed.

Lemma rectangular_set n s df :
  rectangular df = true -> length s = nrows df ->
  rectangular (df_set n s df) = true.
Proof.
  rewrite !rectangular_spec. unfold df_set, nrows; simpl. intros H Hs.
  induction H as [|[k c] cs Hc Hcs IH]; simpl.
  - constructor; [exact Hs|constructor].
  - destruct (String.eqb k n); constructor; auto.
Qed.

Lemma df_get_tail n df : df_get n (df_tail df) = tl (df_get n df).
Proof. unfold df_get, df_tail; simpl. now apply (assoc_get_map (@tl cell)). Qed.

Lemma select_first_false {A} (l : list A) k :
  (length l <= S k)%nat -> select (false :: repeat true k) l = tl l.
Proof.
  destruct l as [|x l]; simpl; [reflexivity|].
  intros H. apply select_repeat_true. lia.
Qed.

Lemma dropna_first_row df mask :
  rectangular df = true -> notna_mask df = false :: repeat true mask ->
  dropna df = df_tail df.
Proof.
  intros Hrect Hmask. unfold dropna, df_tail. rewrite Hmask.
  assert (Hn : nrows df = S mask).
  { unfold notna_mask in Hmask. apply (f_equal (@length bool)) in Hmask.
    rewrite length_map, length_seq in Hmask. simpl in Hmask.
    now rewrite repeat_length in Hmask. }
  f_equal.
  - apply select_first_false. unfold nrows in Hn. lia.
  - apply map_ext_in. intros [n c] Hin; simpl. f_equal.
    apply select_first_false. apply rectangular_spec in Hrect.
    rewrite Forall_forall in Hrect. specialize (Hrect _ Hin). simpl in Hrect.
    lia.
Qed.

Lemma dropna_empty df :
  rectangular df = true -> nrows df = 0%nat -> dropna df = df_tail df.
Proof.
  intros Hrect Hn. unfold dropna, df_tail, notna_mask. rewrite Hn; simpl.
  apply rectangular_spec in Hrect. rewrite Forall_forall in Hrect.
  unfold nrows in Hn. f_equal.
  - apply length_zero_iff_nil in Hn. now rewrite Hn.
  - apply map_ext_in. intros [n c] Hin. specialize (Hrect _ Hin).
    simpl in *. unfold nrows in Hrect. rewrite Hn in Hrect.
    apply length_zero_iff_nil in Hrect. now subst.
Qed.

(** ** The backtest lines, column by column *)

Lemma In_names_get n cs :
  In n (map fst cs) -> In (n, assoc_get n cs) cs.
Proof.
  induction cs as [|[k c] cs IH]; simpl; [tauto|].
  intros H. destruct (String.eqb_spec k n) as [->|Hkn]; [now left|].
  right. apply IH. destruct H; [contradiction|assumption].
Qed.

Lemma length_df_get n df :
  rectangular df = true -> In n (column_names df) ->
  length (df_get n df) = nrows df.
Proof.
  intros Hrect Hin. apply rectangular_spec in Hrect.
  rewrite Forall_forall in Hrect.
  apply (Hrect (n, df_get n df)). now apply In_names_get.
Qed.

Lemma full_df_get n df : all_notna df -> full (df_get n df).
Proof.
  unfold all_notna, df_get. induction 1 as [|[k c] cs Hc _ IH]; simpl.
  - constructor.
  - destruct (String.eqb k n); assumption.
Qed.

Lemma length_zip_with {A B C} (f : A -> B -> C) l l' :
  length (zip_with f l l') = Nat.min (length l) (length l').
Proof. unfold zip_with. now rewrite length_map, length_combine. Qed.

Lemma length_shift1 c : length (shift1 c) = length c.
Proof.
  destruct c as [|x c]; [reflexivity|].
  unfold shift1. cbn [length]. rewrite removelast_firstn_len.
  rewrite length_firstn. cbn [length]. lia.
Qed.

Lemma full_removelast c : full c -> full (removelast c).
Proof.
  unfold full. rewrite !Forall_forall. intros H x Hx.
  apply H. revert Hx. clear. induction c as [|y c IH]; simpl; [tauto|].
  destruct c as [|z c]; simpl in *; [tauto|].
  intros [->|Hx]; [now left|right; now apply IH].
Qed.

Lemma full_zip_with (f : R -> R -> R) a b :
  full a -> full b -> full (zip_with (cell_lift2 f) a b).
Proof.
  unfold full, zip_with. intros Ha. revert b.
  induction Ha as [|x a Hx _ IH]; intros b Hb; simpl; [constructor|].
  destruct Hb as [|y b Hy Hb]; simpl; [constructor|].
  constructor; [|now apply IH].
  destruct x, y; simpl in *; congruence.
Qed.

Lemma map_notna_full c : full c -> map notna c = repeat true (length c).
Proof.
  induction 1 as [|x c Hx _ IH]; simpl; [reflexivity|].
  now rewrite Hx, IH.
Qed.

Lemma nth_zip_with (f : cell -> cell -> cell) a b t :
  (forall y, f None y = None) -> (forall x, f x None = None) ->
  nth t (zip_with f a b) None = f (nth t a None) (nth t b None).
Proof.
  intros Hl Hr. unfold zip_with. revert b t.
  induction a as [|x a IH]; intros b t; simpl.
  - destruct t; now rewrite Hl.
  - destruct b as [|y b]; simpl.
    + destruct t; now rewrite Hr.
    + destruct t; [reflexivity|apply IH].
Qed.

Lemma cmul_None_l y : cmul None y = None.
Proof. reflexivity. Qed.
Lemma cmul_None_r x : cmul x None = None.
Proof. destruct x; reflexivity. Qed.
Lemma csub_None_l y : csub None y = None.
Proof. reflexivity. Qed.
Lemma csub_None_r x : csub x None = None.
Proof. destruct x; reflexivity. Qed.

Lemma nth_removelast {A} (l : list A) t d :
  (S t < length l)%nat -> nth t (removelast l) d = nth t l d.
Proof.
  revert t; induction l as [|x l IH]; intros t Ht; simpl in *; [lia|].
  destruct l as [|y l]; simpl in *; [lia|].
  destruct t; [reflexivity|]. apply IH. lia.
Qed.

Lemma nth_tl {A} (l : list A) t d : nth t (tl l) d = nth (S t) l d.
Proof. destruct l; simpl; [now destruct t|reflexivity]. Qed.

(** Entry [t] of the gross strategy return. *)
Lemma nth_lagged P Rt t :
  length P = length Rt ->
  nth t (lagged P Rt) None = cmul (nth t P None) (nth (S t) Rt None).
Proof.
  intros Hlen. unfold lagged, series_mul. rewrite nth_tl.
  rewrite nth_zip_with by (apply cmul_None_l || apply cmul_None_r).
  destruct P as [|p P]; unfold shift1.
  - destruct Rt; [|discriminate]. now destruct t.
  - cbn [nth]. destruct (Nat.lt_ge_cases (S t) (length (p :: P))) as [H|H].
    + now rewrite nth_removelast.
    + rewrite (nth_overflow Rt) by (rewrite <- Hlen; exact H).
      now rewrite !cmul_None_r.
Qed.

Section Pipeline.

Variables (d0 : DataFrame) (P : column).
Hypothesis Hfull : all_notna d0.
Hypothesis Hrect : rectangular d0 = true.
Hypothesis Hret : In "returns" (column_names d0).
Hypothesis HP : length P = nrows d0.
Hypothesis HPfull : full P.

Let Rt := df_get "returns" d0.
Let d1 := df_set "position" P d0.
Let d2 := df_set "strategy" (series_mul (shift1 P) Rt) d1.

Lemma length_returns : length Rt = nrows d0.
Proof. now apply length_df_get. Qed.

Lemma strategy_line :
  df_set "strategy"
    (series_mul (shift1 (df_get "position" d1)) (df_get "returns" d1)) d1
  = d2.
Proof.
  unfold d2, d1. now rewrite !df_get_set.
Qed.

Lemma rectangular_d2 : rectangular d2 = true.
Proof.
  apply rectangular_set; [now apply rectangular_set|].
  unfold series_mul, d1. rewrite length_zip_with, length_shift1, nrows_set.
  rewrite length_returns. unfold column, cell in *. lia.
Qed.

(** The second [dropna] removes the first row and nothing else. *)
Lemma second_dropna : dropna d2 = df_tail d2.
Proof.
  assert (Hr2 := rectangular_d2). assert (HR := length_returns).
  assert (Hf1 : all_notna d1) by now apply all_notna_set.
  assert (Hr1 : rectangular d1 = true) by now apply rectangular_set.
  assert (HfR : full Rt) by now apply full_df_get.
  destruct (nrows d0) as [|k] eqn:Hn.
  - apply dropna_empty; [exact Hr2|]. exact Hn.
  - apply dropna_first_row with (mask := k); [exact Hr2|].
    unfold d2. rewrite notna_mask_set.
    + destruct P as [|p P']; [simpl in HP; unfold column, cell in *; lia|].
      destruct Rt as [|r Rt'] eqn:ERt;
        [simpl in HR; unfold column, cell in *; lia|].
      unfold series_mul, zip_with. cbn [shift1 combine map fst snd cmul
                                          cell_lift2 notna].
      f_equal. change (map notna (zip_with cmul (removelast (p :: P')) Rt')
                       = repeat true k).
      rewrite map_notna_full.
      * f_equal. rewrite length_zip_with, removelast_firstn_len.
        rewrite length_firstn. simpl in *. unfold column, cell in *. lia.
      * apply full_zip_with; [now apply full_removelast|].
        now inversion HfR.
    + exact Hf1.
    + exact Hr1.
    + unfold series_mul, d1.
      rewrite length_zip_with, length_shift1, nrows_set.
      rewrite HR, Hn. unfold column, cell in *. lia.
Qed.

Lemma gross_tail_eq :
  gross_tail d1 =
  df_set "cstrategy" (series_exp (cumsum (lagged P Rt)))
    (df_set "creturns" (series_exp (cumsum (tl Rt))) (df_tail d2)).
Proof.
  unfold gross_tail. cbv zeta. rewrite strategy_line, second_dropna.
  rewrite !df_get_set. cbn [String.eqb Ascii.eqb Bool.eqb].
  rewrite !df_get_tail. unfold d2, d1. rewrite !df_get_set.
  cbn [String.eqb Ascii.eqb Bool.eqb]. reflexivity.
Qed.

Lemma costed_tail_eq tc :
  costed_tail tc d1 =
  df_set "cstrategy"
    (series_exp (cumsum (series_sub (lagged P Rt)
                           (series_scale (trades_of P) tc))))
    (df_set "creturns" (series_exp (cumsum (tl Rt)))
       (df_set "strategy"
          (series_sub (lagged P Rt) (series_scale (trades_of P) tc))
          (df_set "trades" (trades_of P) (df_tail d2)))).
Proof.
  unfold costed_tail. cbv zeta. rewrite strategy_line, second_dropna.
  rewrite !df_get_set. cbn [String.eqb Ascii.eqb Bool.eqb].
  rewrite !df_get_tail. unfold d2, d1. rewrite !df_get_set.
  cbn [String.eqb Ascii.eqb Bool.eqb]. reflexivity.
Qed.

End Pipeline.

(** ** [test_strategy] is the backtest frame, stored and summarised *)

Ltac same_frames :=
  unfold bind, get, modify, lift, ret, finish, backtest_frame, with_position,
    positions, gross_tail, costed_tail, crossover, threshold, data_of, tc_of;
  cbv zeta;
  repeat (progress (rewrite ?df_set_set, ?df_get_set;
                    cbn [String.eqb Ascii.eqb Bool.eqb]));
  repeat match goal with
    | |- context [iloc_last ?c] => destruct (iloc_last c)
    end;
  reflexivity.

Lemma SMA_test_strategy_eq self :
  SMA.test_strategy self =
  (finish (backtest_frame (SMA_of self)),
   SMA.set_results (backtest_frame (SMA_of self)) self).
Proof. unfold SMA.test_strategy. same_frames. Qed.

Lemma EMA_test_strategy_eq self :
  EMA.test_strategy self =
  (finish (backtest_frame (EMA_of self)),
   EMA.set_results (backtest_frame (EMA_of self)) self).
Proof. unfold EMA.test_strategy. same_frames. Qed.

Lemma MACD_test_strategy_eq self :
  MACD.test_strategy self =
  (finish (backtest_frame (MACD_of self)),
   MACD.set_results (backtest_frame (MACD_of self)) self).
Proof. unfold MACD.test_strategy. same_frames. Qed.

Lemma RSI_test_strategy_eq self :
  RSI.test_strategy self =
  (finish (backtest_frame (RSI_of self)),
   RSI.set_results (backtest_frame (RSI_of self)) self).
Proof. unfold RSI.test_strategy. same_frames. Qed.

Lemma SO_test_strategy_eq self :
  SO.test_strategy self =
  (finish (backtest_frame (SO_of self)),
   SO.set_results (backtest_frame (SO_of self)) self).
Proof. unfold SO.test_strategy. same_frames. Qed.

Lemma test_strategy_eq i :
  test_strategy i =
  (finish (backtest_frame i), with_results (backtest_frame i) i).
Proof.
  destruct i as [self|self|self|self|self]; unfold test_strategy, on.
  - now rewrite SMA_test_strategy_eq.
  - now rewrite EMA_test_strategy_eq.
  - now rewrite MACD_test_strategy_eq.
  - now rewrite RSI_test_strategy_eq.
  - now rewrite SO_test_strategy_eq.
Qed.

(** ** Well-formed instances *)

Lemma wf_frame_spec names df :
  wf_frame names df = true <->
  rectangular df = true /\ NoDup (column_names df) /\
  (forall n, In n names -> In n (column_names df)).
Proof.
  unfold wf_frame, has_columns.
  rewrite !andb_true_iff, nodup_names_NoDup, forallb_forall.
  split; intros [[H1 H2] H3] || intros [H1 [H2 H3]]; repeat split; auto;
    intros n Hn; apply existsb_eqb_In; auto.
Qed.

Lemma wf_rectangular i : wf i = true -> rectangular (data_of i) = true.
Proof. intros H; now apply wf_frame_spec in H. Qed.

Lemma wf_has i n :
  wf i = true -> In n (base_columns ++ indicator_columns i) ->
  In n (column_names (data_of i)).
Proof. intros H; apply wf_frame_spec in H. now apply H. Qed.

Lemma wf_has_dropna i n :
  wf i = true -> In n (base_columns ++ indicator_columns i) ->
  In n (column_names (dropna (data_of i))).
Proof. rewrite names_dropna. apply wf_has. Qed.

Lemma full_np_where cond x y :
  notna x = true -> notna y = true -> full (np_where cond x y).
Proof.
  intros Hx Hy. unfold np_where, full. apply Forall_map, Forall_forall.
  intros b _. now destruct b.
Qed.

Lemma full_fillna v c : full (fillna v c).
Proof.
  unfold fillna, full. apply Forall_map, Forall_forall.
  intros x _. now destruct x.
Qed.

Lemma length_crossover fast slow d :
  rectangular d = true -> In fast (column_names d) ->
  In slow (column_names d) -> length (crossover fast slow d) = nrows d.
Proof.
  intros Hr Hf Hs. unfold crossover, np_where, series_gt.
  rewrite length_map, length_zip_with, !length_df_get by assumption.
  apply Nat.min_id.
Qed.

Lemma length_threshold upper lower d :
  rectangular d = true -> In "RSI" (column_names d) ->
  length (threshold upper lower d) = nrows d.
Proof.
  intros Hr Hf.
  unfold threshold, fillna, np_where_scalar_series, np_where,
    series_lt_scalar, series_gt_scalar.
  rewrite length_map, length_zip_with, !length_map, !length_df_get
    by assumption.
  apply Nat.min_id.
Qed.

Lemma length_positions i :
  wf i = true -> length (positions i) = nrows (dropna (data_of i)).
Proof.
  intros Hwf. assert (Hr := dropna_rectangular _ (wf_rectangular _ Hwf)).
  assert (Hin := wf_has_dropna i).
  destruct i as [self|self|self|self|self]; simpl in *;
    (apply length_crossover || apply length_threshold); try assumption;
    apply (Hin _ Hwf); simpl; tauto.
Qed.

Lemma full_positions i : full (positions i).
Proof.
  destruct i as [self|self|self|self|self]; simpl;
    (now apply full_np_where) || apply full_fillna.
Qed.

(** ** The columns of the stored result *)

Lemma returns_present i :
  wf i = true -> In "returns" (column_names (kept i)).
Proof. intros Hwf. apply wf_has_dropna; [exact Hwf|]. simpl; tauto. Qed.

Lemma length_kept_returns i :
  wf i = true -> length (kept_returns i) = length (positions i).
Proof.
  intros Hwf. unfold kept_returns. rewrite length_positions by exact Hwf.
  apply length_df_get; [|now apply returns_present].
  apply dropna_rectangular, wf_rectangular, Hwf.
Qed.

Lemma full_kept_returns i : full (kept_returns i).
Proof. apply full_df_get, dropna_all_notna. Qed.

Lemma backtest_frame_eq i :
  wf i = true ->
  backtest_frame i =
  df_set "cstrategy" (series_exp (cumsum (net_strategy i)))
    (df_set "creturns" (series_exp (cumsum (tl (kept_returns i))))
       (match i with
        | SMA_of _ => fun d => d
        | _ => fun d =>
            df_set "strategy" (net_strategy i)
              (df_set "trades" (trades_of (positions i)) d)
        end
          (df_tail
             (df_set "strategy"
                (series_mul (shift1 (positions i)) (kept_returns i))
                (df_set "position" (positions i) (kept i)))))).
Proof.
  intros Hwf.
  assert (H1 := dropna_all_notna (data_of i)).
  assert (H2 := dropna_rectangular _ (wf_rectangular _ Hwf)).
  assert (H3 := returns_present _ Hwf).
  assert (H4 := length_positions _ Hwf).
  assert (H5 := full_positions i).
  unfold net_strategy, backtest_frame, with_position, kept_returns, kept in *.
  destruct i; (apply gross_tail_eq || apply costed_tail_eq); assumption.
Qed.

Ltac result_column i :=
  intros Hwf; rewrite backtest_frame_eq by exact Hwf;
  destruct i; rewrite !df_get_set; cbn [String.eqb Ascii.eqb Bool.eqb];
  rewrite ?df_get_tail, ?df_get_set; reflexivity.

Lemma result_position i :
  wf i = true -> df_get "position" (backtest_frame i) = tl (positions i).
Proof. result_column i. Qed.

Lemma result_returns i :
  wf i = true -> df_get "returns" (backtest_frame i) = tl (kept_returns i).
Proof. result_column i. Qed.

Lemma result_strategy i :
  wf i = true -> df_get "strategy" (backtest_frame i) = net_strategy i.
Proof. result_column i. Qed.

Lemma result_creturns i :
  wf i = true ->
  df_get "creturns" (backtest_frame i) =
  series_exp (cumsum (tl (kept_returns i))).
Proof. result_column i. Qed.

Lemma result_cstrategy i :
  wf i = true ->
  df_get "cstrategy" (backtest_frame i) =
  series_exp (cumsum (net_strategy i)).
Proof. result_column i. Qed.

Lemma result_other i n :
  wf i = true ->
  ~ In n ["position"; "strategy"; "trades"; "creturns"; "cstrategy"] ->
  df_get n (backtest_frame i) = tl (df_get n (kept i)).
Proof.
  intros Hwf Hn. rewrite backtest_frame_eq by exact Hwf.
  assert (E : forall m, In m ["position"; "strategy"; "trades"; "creturns";
                                "cstrategy"] -> String.eqb m n = false).
  { intros m Hm. apply String.eqb_neq. intros ->. contradiction. }
  destruct i; rewrite !df_get_set, ?df_get_tail, ?df_get_set;
    rewrite ?E by (simpl; tauto); try reflexivity.
Qed.

Lemma result_index i :
  wf i = true -> df_index (backtest_frame i) = tl (df_index (kept i)).
Proof. intros Hwf. rewrite backtest_frame_eq by exact Hwf. now destruct i. Qed.

Lemma result_nrows i :
  wf i = true -> nrows (backtest_frame i) = (nrows (kept i) - 1)%nat.
Proof.
  intros Hwf. unfold nrows. rewrite result_index by exact Hwf.
  destruct (df_index (kept i)); simpl; lia.
Qed.

(** ** Lengths and absence of [nan] in the result *)

Lemma length_lagged P Rt :
  length P = length Rt -> length (lagged P Rt) = (length P - 1)%nat.
Proof.
  intros H. unfold lagged, series_mul.
  rewrite length_tl, length_zip_with, length_shift1. lia.
Qed.

Lemma full_tl c : full c -> full (tl c).
Proof. destruct 1; simpl; [constructor|assumption]. Qed.

Lemma full_lagged P Rt : full P -> full Rt -> full (lagged P Rt).
Proof.
  intros HP HR. unfold lagged, series_mul, shift1.
  destruct P as [|p P]; [constructor|].
  destruct Rt as [|r Rt]; [constructor|].
  unfold zip_with. cbn [combine map tl].
  apply (full_zip_with Rmult); [now apply full_removelast|].
  now inversion HR.
Qed.

Lemma full_map_lift (f : R -> R) c : full (map (option_map f) c) <-> full c.
Proof.
  unfold full. rewrite Forall_map. split; apply Forall_impl;
    intros [x|]; simpl; congruence.
Qed.

Lemma length_trades_of P : length (trades_of P) = (length P - 1)%nat.
Proof.
  unfold trades_of, series_abs, fillna, diff, series_sub.
  rewrite !length_map, length_zip_with, length_shift1, length_tl. lia.
Qed.

Lemma full_trades_of P : full (trades_of P).
Proof. unfold trades_of, series_abs. apply full_map_lift, full_fillna. Qed.

Lemma full_series_scale c k : full c -> full (series_scale c k).
Proof.
  unfold series_scale, full. intros H. apply Forall_map. revert H.
  apply Forall_impl. intros [x|]; simpl; congruence.
Qed.

Lemma length_net_strategy i :
  wf i = true -> length (net_strategy i) = (nrows (kept i) - 1)%nat.
Proof.
  intros Hwf. assert (HR := length_kept_returns i Hwf).
  assert (HP := length_positions i Hwf). fold (kept i) in HP.
  unfold net_strategy.
  destruct i; unfold series_sub, series_scale;
    rewrite ?length_zip_with, ?length_map, ?length_trades_of,
      length_lagged by congruence; lia.
Qed.

Lemma full_net_strategy i : full (net_strategy i).
Proof.
  assert (HL : full (lagged (positions i) (kept_returns i))).
  { apply full_lagged; [apply full_positions|apply full_kept_returns]. }
  unfold net_strategy. destruct i; try exact HL;
    (apply (full_zip_with Rminus);
     [exact HL|apply full_series_scale, full_trades_of]).
Qed.

Lemma length_cumsum_from acc c : length (cumsum_from acc c) = length c.
Proof.
  revert acc; induction c as [|[x|] c IH]; intros acc; simpl;
    now rewrite ?IH.
Qed.

Lemma full_cumsum_from acc c : full c -> full (cumsum_from acc c).
Proof.
  intros H. revert acc. induction H as [|[x|] c Hx _ IH]; intros acc; simpl;
    [constructor| |simpl in Hx; congruence].
  constructor; [reflexivity|apply IH].
Qed.

Lemma iloc_last_full c :
  full c -> (0 < length c)%nat -> exists x, iloc_last c = inr (Some x).
Proof.
  intros H Hlen. destruct c as [|y c]; [simpl in Hlen; lia|].
  unfold iloc_last. unfold full in H. rewrite Forall_forall in H.
  assert (Hin : In (last (y :: c) None) (y :: c)).
  { destruct (exists_last (l := y :: c)) as (l' & a & E); [discriminate|].
    rewrite E, last_last. apply in_or_app. right. now left. }
  specialize (H _ Hin). destruct (last (y :: c) None); [eauto|discriminate].
Qed.

Lemma iloc_last_nil c : length c = 0%nat -> iloc_last c = inl IndexError.
Proof. destruct c; [reflexivity|discriminate]. Qed.

(** When [test_strategy] returns and when it raises. *)
Lemma finish_short i :
  wf i = true -> (nrows (kept i) < 2)%nat ->
  finish (backtest_frame i) = inl IndexError.
Proof.
  intros Hwf Hn. unfold finish. rewrite result_cstrategy by exact Hwf.
  rewrite iloc_last_nil; [reflexivity|].
  unfold series_exp, cumsum.
  rewrite length_map, length_cumsum_from, length_net_strategy by exact Hwf.
  lia.
Qed.

Lemma finish_long i :
  wf i = true -> (2 <= nrows (kept i))%nat ->
  exists perf last_creturns,
    iloc_last (df_get "cstrategy" (backtest_frame i)) = inr (Some perf) /\
    iloc_last (df_get "creturns" (backtest_frame i))
      = inr (Some last_creturns) /\
    finish (backtest_frame i)
      = inr (Some perf, Some (perf - last_creturns), backtest_frame i).
Proof.
  intros Hwf Hn. unfold finish.
  destruct (iloc_last_full (df_get "cstrategy" (backtest_frame i)))
    as [perf Hperf].
  { rewrite result_cstrategy by exact Hwf. unfold series_exp.
    apply full_map_lift, full_cumsum_from, full_net_strategy. }
  { rewrite result_cstrategy by exact Hwf. unfold series_exp, cumsum.
    rewrite length_map, length_cumsum_from, length_net_strategy
      by exact Hwf. lia. }
  destruct (iloc_last_full (df_get "creturns" (backtest_frame i)))
    as [lc Hlc].
  { rewrite result_creturns by exact Hwf. unfold series_exp.
    apply full_map_lift, full_cumsum_from, full_tl, full_kept_returns. }
  { rewrite result_creturns by exact Hwf. unfold series_exp, cumsum.
    rewrite length_map, length_cumsum_from, length_tl,
      length_kept_returns, length_positions by exact Hwf.
    fold (kept i). lia. }
  exists perf, lc. rewrite Hperf, Hlc. auto.
Qed.

Lemma with_results_data r i : data_of (with_results r i) = data_of i.
Proof. now destruct i. Qed.

Lemma with_results_parameters r i :
  parameters_of (with_results r i) = parameters_of i.
Proof. now destruct i. Qed.

Lemma with_results_tc r i : tc_of (with_results r i) = tc_of i.
Proof. now destruct i. Qed.

Lemma with_results_results r i : results_of (with_results r i) = Some r.
Proof. now destruct i. Qed.

Lemma with_results_twice r r' i :
  with_results r (with_results r' i) = with_results r i.
Proof. now destruct i. Qed.

Lemma backtest_frame_with_results r i :
  backtest_frame (with_results r i) = backtest_frame i.
Proof. now destruct i. Qed.

Lemma wf_with_results r i : wf (with_results r i) = wf i.
Proof. now destruct i. Qed.

(** ** The written-out instances are those the constructors return *)

Ltac same_cells :=
  repeat match goal with
    | |- inr _ = inr _ => f_equal
    | |- SMA.Build_t _ _ _ _ _ _ = SMA.Build_t _ _ _ _ _ _ => f_equal
    | |- EMA.Build_t _ _ _ _ _ _ = EMA.Build_t _ _ _ _ _ _ => f_equal
    | |- RSI.Build_t _ _ _ _ _ _ _ = RSI.Build_t _ _ _ _ _ _ _ => f_equal
    | |- Build_DataFrame _ _ = Build_DataFrame _ _ => f_equal
    | |- _ :: _ = _ :: _ => f_equal
    | |- (_, _) = (_, _) => f_equal
    | |- Some _ = Some _ => f_equal
    end;
  try reflexivity; try lra; try (field; lra).

Lemma sma_zigzag_init :
  SMA.init "X" 1 2 (1 / 100) zigzag = inr sma_zigzag.
Proof. eval_py. same_cells. Qed.

Lemma ema_zigzag_init :
  EMA.init "X" 1 2 (1 / 100) zigzag = inr ema_zigzag.
Proof. eval_py. same_cells. Qed.

Lemma sma_unit_windows_init :
  SMA.init "X" 1 1 0 rising = inr sma_unit_windows.
Proof. eval_py. same_cells. Qed.

Lemma sma_short_init : SMA.init "X" 1 2 0 two_candles = inr sma_short.
Proof. eval_py. same_cells. Qed.

Lemma rsi_up_up_down_init :
  RSI.init "X" 2 70 30 0 up_up_down = inr rsi_up_up_down.
Proof. eval_py. same_cells. Qed.

(** ** Idempotence of the backtest *)

(** C8.  Running [test_strategy] a second time on the instance the first
    run leaves returns the same value and leaves the same instance; the
    first run changes nothing of the instance but its stored result: the
    frame, the parameters and the cost are those it started with. *)
Theorem test_strategy_idempotent (i : instance) :
  let first := test_strategy i in
  let second := test_strategy (snd first) in
  fst second = fst first /\ snd second = snd first /\
  snd first = with_results (backtest_frame i) i /\
  data_of (snd first) = data_of i /\
  parameters_of (snd first) = parameters_of i /\
  tc_of (snd first) = tc_of i.
Proof.
  cbv zeta. rewrite !test_strategy_eq. cbn [fst snd].
  rewrite backtest_frame_with_results, with_results_twice,
    with_results_data, with_results_parameters, with_results_tc.
  repeat split.
Qed.

(** ** Too few rows *)

(** C5.  When fewer than two rows of the frame are free of [nan] (the rows
    where the log-return and every indicator are defined), [test_strategy]
    raises: the lookup of the last cumulative value fails with Python's
    [IndexError], which no handler of the class catches. *)
Theorem test_strategy_insufficient_data (i : instance) :
  wf i = true -> (nrows (dropna (data_of i)) < 2)%nat ->
  fst (test_strategy i) = inl IndexError.
Proof.
  intros Hwf Hn. rewrite test_strategy_eq. cbn [fst].
  now apply finish_short.
Qed.

Lemma test_strategy_insufficient_data_witness :
  fst (test_strategy (SMA_of sma_short)) = inl IndexError.
Proof.
  apply test_strategy_insufficient_data.
  - reflexivity.
  - unfold sma_short. eval_py. lia.
Defined.

(** X3.  With two rows or more free of [nan] the backtest returns.  The
    absolute performance is the last value of the cumulative strategy
    column of the frame it returns, the out-performance is that number less
    the last value of the cumulative buy-and-hold column, both of them
    numbers, and the frame it returns is the one stored on the instance. *)
Lemma test_strategy_returns (i : instance) :
  wf i = true -> (2 <= nrows (dropna (data_of i)))%nat ->
  exists perf last_creturns res i',
    test_strategy i = (inr (Some perf, Some (perf - last_creturns), res), i') /\
    res = backtest_frame i /\
    last (df_get "cstrategy" res) None = Some perf /\
    last (df_get "creturns" res) None = Some last_creturns /\
    i' = with_results res i /\ results_of i' = Some res.
Proof.
  intros Hwf Hn.
  destruct (finish_long i Hwf Hn) as (perf & lc & Hp & Hc & E).
  exists perf, lc, (backtest_frame i), (with_results (backtest_frame i) i).
  rewrite test_strategy_eq, E, with_results_results.
  assert (Hlast : forall c x, iloc_last c = inr (Some x) ->
                              last c None = Some x).
  { intros [|y c] x H; [discriminate|]. unfold iloc_last in H.
    now injection H. }
  repeat split; apply Hlast; assumption.
Qed.

Lemma test_strategy_returns_witness :
  exists perf last_creturns res i',
    test_strategy (SMA_of sma_zigzag)
    = (inr (Some perf, Some (perf - last_creturns), res), i') /\
    res = backtest_frame (SMA_of sma_zigzag) /\
    last (df_get "cstrategy" res) None = Some perf /\
    last (df_get "creturns" res) None = Some last_creturns /\
    i' = with_results res (SMA_of sma_zigzag) /\ results_of i' = Some res.
Proof.
  apply (test_strategy_returns (SMA_of sma_zigzag)).
  - reflexivity.
  - unfold sma_zigzag. eval_py. lia.
Defined.

(** What a successful run returns and stores. *)
Lemma test_strategy_inr i perf outperf res i' :
  test_strategy i = (inr (perf, outperf, res), i') ->
  res = backtest_frame i /\ i' = with_results res i /\
  iloc_last (df_get "cstrategy" res) = inr perf.
Proof.
  rewrite test_strategy_eq. unfold finish.
  destruct (iloc_last (df_get "cstrategy" (backtest_frame i))) as [e|p] eqn:E;
    [discriminate|].
  destruct (iloc_last (df_get "creturns" (backtest_frame i))) as [e|c];
    [discriminate|].
  intros H. injection H as <- <- <- <-. auto.
Qed.

(** ** Cumulative series *)

Lemma nth0_cumsum c x :
  nth 0 c None = Some x ->
  nth 0 (series_exp (cumsum c)) None = Some (exp x).
Proof.
  destruct c as [|[y|] c]; simpl; try discriminate.
  intros H; injection H as ->. now rewrite Rplus_0_l.
Qed.

(** C3, first part, with the first entries as the code has them.  The
    cumulative buy-and-hold column of the result is [exp] of the running sum
    of its log-returns and the cumulative strategy column is [exp] of the
    running sum of its net strategy returns; the running sums include the
    current row, so the first entries are [exp] of the first log-return and
    of the first net strategy return. *)
Theorem cumulative_series (i : instance) perf outperf res i' :
  wf i = true ->
  test_strategy i = (inr (perf, outperf, res), i') ->
  df_get "creturns" res = series_exp (cumsum (df_get "returns" res)) /\
  df_get "cstrategy" res = series_exp (cumsum (df_get "strategy" res)) /\
  exists r s,
    nth 0 (df_get "returns" res) None = Some r /\
    nth 0 (df_get "strategy" res) None = Some s /\
    nth 0 (df_get "creturns" res) None = Some (exp r) /\
    nth 0 (df_get "cstrategy" res) None = Some (exp s).
Proof.
  intros Hwf Hrun. apply test_strategy_inr in Hrun.
  destruct Hrun as (-> & _ & Hlast).
  assert (E1 := result_creturns i Hwf). assert (E2 := result_cstrategy i Hwf).
  rewrite <- (result_returns i Hwf) in E1.
  rewrite <- (result_strategy i Hwf) in E2.
  split; [exact E1|]. split; [exact E2|].
  assert (Hlen : (0 < length (df_get "strategy" (backtest_frame i)))%nat).
  { rewrite E2 in Hlast. destruct (df_get "strategy" (backtest_frame i));
      [discriminate|simpl; lia]. }
  assert (Hlen' : (0 < length (df_get "returns" (backtest_frame i)))%nat).
  { rewrite result_strategy, length_net_strategy in Hlen by exact Hwf.
    rewrite result_returns, length_tl, length_kept_returns,
      length_positions by exact Hwf. exact Hlen. }
  destruct (full_nth (df_get "returns" (backtest_frame i)) 0) as [r Hr];
    [|exact Hlen'|].
  { rewrite result_returns by exact Hwf.
    apply full_tl, full_kept_returns. }
  destruct (full_nth (df_get "strategy" (backtest_frame i)) 0) as [s Hs];
    [|exact Hlen|].
  { rewrite result_strategy by exact Hwf. apply full_net_strategy. }
  exists r, s. rewrite E1, E2. auto using nth0_cumsum.
Qed.


Lemma cumulative_series_witness :
  let res := backtest_frame (SMA_of sma_zigzag) in
  df_get "creturns" res = series_exp (cumsum (df_get "returns" res)) /\
  df_get "cstrategy" res = series_exp (cumsum (df_get "strategy" res)) /\
  exists r s,
    nth 0 (df_get "returns" res) None = Some r /\
    nth 0 (df_get "strategy" res) None = Some s /\
    nth 0 (df_get "creturns" res) None = Some (exp r) /\
    nth 0 (df_get "cstrategy" res) None = Some (exp s).
Proof.
  eapply (cumulative_series (SMA_of sma_zigzag)); [reflexivity|].
  rewrite test_strategy_eq. f_equal.
  unfold sma_zigzag. eval_py. reflexivity.
Defined.

(** C3, the entries at the first valid index.  On the four closes
    100, 101, 100, 101 with windows 1 and 2 the first row of the result has
    log-return [ln (100 / 101)], and both cumulative columns start at
    [100 / 101], not at 1. *)
Lemma cumulative_series_do_not_start_at_one :
  exists perf outperf res i',
    test_strategy (SMA_of sma_zigzag) = (inr (perf, outperf, res), i') /\
    nth 0 (df_get "creturns" res) None = Some (100 / 101) /\
    nth 0 (df_get "cstrategy" res) None = Some (100 / 101) /\
    nth 0 (df_get "creturns" res) None <> Some 1 /\
    nth 0 (df_get "cstrategy" res) None <> Some 1.
Proof.
  do 4 eexists. split.
  { unfold sma_zigzag. eval_py. reflexivity. }
  cbn.
  assert (E1 : exp (0 + ln (100 / 101)) = 100 / 101).
  { rewrite Rplus_0_l. apply exp_ln. lra. }
  assert (E2 : exp (0 + 1 * ln (100 / 101)) = 100 / 101).
  { rewrite Rplus_0_l, Rmult_1_l. apply exp_ln. lra. }
  rewrite E1, E2.
  repeat split; try (intros H; injection H; lra).
Qed.

(** ** Net strategy returns *)

Lemma nth_map_strict (f : cell -> cell) c t :
  f None = None -> nth t (map f c) None = f (nth t c None).
Proof.
  intros Hf. revert t; induction c as [|x c IH]; intros [|t]; simpl;
    auto.
Qed.

Lemma nth_fillna v c t :
  (t < length c)%nat ->
  nth t (fillna v c) None =
  Some (match nth t c None with Some a => a | None => v end).
Proof.
  revert t; induction c as [|x c IH]; intros [|t] Ht; simpl in *; try lia.
  - now destruct x.
  - apply IH. lia.
Qed.

(** The trade indicator: 0 on the first row of the result, then the
    absolute change of position. *)
Lemma nth_trades_of_first P :
  (2 <= length P)%nat -> nth 0 (trades_of P) None = Some 0.
Proof.
  destruct P as [|p [|q P]]; simpl; try lia. intros _.
  destruct q; simpl; now rewrite Rabs_R0.
Qed.

Lemma nth_trades_of_next P t p q :
  nth (S t) P None = Some p -> nth (S (S t)) P None = Some q ->
  nth (S t) (trades_of P) None = Some (Rabs (q - p)).
Proof.
  intros Hp Hq. unfold trades_of, series_abs.
  rewrite nth_map_strict by reflexivity.
  assert (Hlen : (S (S t) < length P)%nat).
  { destruct (Nat.lt_ge_cases (S (S t)) (length P)) as [H|H]; [exact H|].
    rewrite nth_overflow in Hq by exact H. discriminate. }
  rewrite nth_fillna.
  2:{ unfold diff, series_sub.
      rewrite length_zip_with, length_shift1, length_tl.
      unfold column, cell in *. lia. }
  unfold diff, series_sub.
  rewrite nth_zip_with by (apply csub_None_l || apply csub_None_r).
  rewrite nth_tl. unfold column, cell in *. rewrite Hq. unfold shift1.
  destruct (tl P) as [|x l] eqn:E.
  { destruct P as [|? [|? ?]]; simpl in *; try lia; discriminate. }
  cbn [nth]. rewrite nth_removelast.
  2:{ rewrite <- E, length_tl. unfold column, cell in *. lia. }
  rewrite <- E, nth_tl, Hp. reflexivity.
Qed.

(** X1.  The net strategy return of the four classes with a cost line: the
    position of the row before times the log-return of the row, minus the
    trade indicator of the row times [tc]. *)
Lemma strategy_return_with_costs (i : instance) perf outperf res i' t :
  wf i = true -> (forall self, i <> SMA_of self) ->
  test_strategy i = (inr (perf, outperf, res), i') ->
  nth t (df_get "strategy" res) None =
  csub (cmul (nth t (positions i) None) (nth (S t) (kept_returns i) None))
       (cmul (nth t (df_get "trades" res) None) (Some (tc_of i))) /\
  df_get "trades" res = trades_of (positions i).
Proof.
  intros Hwf Hns Hrun. apply test_strategy_inr in Hrun.
  destruct Hrun as (-> & _ & _).
  assert (HT : df_get "trades" (backtest_frame i) = trades_of (positions i)).
  { rewrite backtest_frame_eq by exact Hwf.
    destruct i; try (exfalso; eapply Hns; reflexivity);
      rewrite !df_get_set; reflexivity. }
  split; [|exact HT].
  rewrite result_strategy, HT by exact Hwf.
  unfold net_strategy.
  destruct i; try (exfalso; eapply Hns; reflexivity);
    unfold series_sub, series_scale;
    rewrite nth_zip_with by (apply csub_None_l || apply csub_None_r);
    rewrite nth_lagged by (symmetry; apply length_kept_returns, Hwf);
    rewrite nth_map_strict by reflexivity; reflexivity.
Qed.

Lemma strategy_return_with_costs_witness :
  let i := EMA_of ema_zigzag in
  nth 1 (df_get "strategy" (backtest_frame i)) None =
  csub (cmul (nth 1 (positions i) None) (nth 2 (kept_returns i) None))
       (cmul (nth 1 (df_get "trades" (backtest_frame i)) None)
             (Some (tc_of i))) /\
  df_get "trades" (backtest_frame i) = trades_of (positions i).
Proof.
  eapply (strategy_return_with_costs (EMA_of ema_zigzag) _ _ _ _ 1%nat).
  - reflexivity.
  - intros self H. discriminate H.
  - rewrite test_strategy_eq. f_equal.
    unfold ema_zigzag. eval_py. reflexivity.
Defined.

(** X2.  [SMABacktester] has no cost line: whatever [tc] is, its strategy
    return is the position of the row before times the log-return. *)
Lemma sma_strategy_return_gross (self : SMA.t) perf outperf res self' t :
  wf (SMA_of self) = true ->
  SMA.test_strategy self = (inr (perf, outperf, res), self') ->
  nth t (df_get "strategy" res) None =
  cmul (nth t (positions (SMA_of self)) None)
       (nth (S t) (kept_returns (SMA_of self)) None).
Proof.
  intros Hwf Hrun. rewrite SMA_test_strategy_eq in Hrun.
  assert (res = backtest_frame (SMA_of self)) as ->.
  { unfold finish in Hrun.
    destruct (iloc_last (df_get "cstrategy" _)); [discriminate|].
    destruct (iloc_last (df_get "creturns" _)); [discriminate|].
    now injection Hrun as _ _ <- _. }
  rewrite result_strategy by exact Hwf. unfold net_strategy.
  apply nth_lagged. symmetry. apply length_kept_returns, Hwf.
Qed.

Lemma sma_strategy_return_gross_witness :
  nth 1 (df_get "strategy" (backtest_frame (SMA_of sma_zigzag))) None =
  cmul (nth 1 (positions (SMA_of sma_zigzag)) None)
       (nth 2 (kept_returns (SMA_of sma_zigzag)) None).
Proof.
  eapply (sma_strategy_return_gross sma_zigzag _ _ _ _ 1%nat).
  - reflexivity.
  - rewrite SMA_test_strategy_eq. f_equal.
    unfold sma_zigzag. eval_py. reflexivity.
Defined.

(** C1 at one input.  On the closes 100, 101, 100, 101 with windows 1 and 2
    and [tc = 0.01] the position flips from -1 to +1 between the two rows of
    the result.  [EMABacktester] charges the flip: its second strategy
    return is [-1 * ln (101 / 100) - 2 * 0.01].  [SMABacktester] returns
    [-1 * ln (101 / 100)]: the cost is not subtracted. *)
Theorem sma_ignores_transaction_cost :
  SMA.tc sma_zigzag = 1 / 100 /\
  (exists perf outperf res self',
     SMA.test_strategy sma_zigzag = (inr (perf, outperf, res), self') /\
     df_get "position" res = [Some (-1); Some 1] /\
     df_get "strategy" res =
       [Some (1 * ln (100 / 101)); Some (-1 * ln (101 / 100))] /\
     nth 1 (df_get "strategy" res) None
       <> Some (-1 * ln (101 / 100) - Rabs (1 - -1) * (1 / 100))) /\
  (exists perf outperf res self',
     EMA.test_strategy ema_zigzag = (inr (perf, outperf, res), self') /\
     df_get "position" res = [Some (-1); Some 1] /\
     df_get "strategy" res =
       [Some (1 * ln (100 / 101) - Rabs 0 * (1 / 100));
        Some (-1 * ln (101 / 100) - Rabs (1 - -1) * (1 / 100))]).
Proof.
  split; [reflexivity|]. split.
  - do 4 eexists. split.
    { unfold sma_zigzag. eval_py. reflexivity. }
    cbn. repeat split.
    intros H. injection H as H.
    replace (1 - -1) with 2 in H by lra.
    rewrite (Rabs_pos_eq 2) in H by lra. lra.
  - do 4 eexists. split.
    { unfold ema_zigzag. eval_py. reflexivity. }
    cbn. repeat split.
Qed.


(** ** The threshold rule of [RSIBacktester] *)

Lemma zip_with_map_same {A B C D} (f : B -> C -> D) (g : A -> B)
    (h : A -> C) l :
  zip_with f (map g l) (map h l) = map (fun x => f (g x) (h x)) l.
Proof.
  unfold zip_with. induction l as [|x l IH]; simpl; [reflexivity|].
  now rewrite IH.
Qed.

Lemma threshold_map upper lower d :
  threshold upper lower d =
  map (fun c : cell =>
         match c with
         | Some x => Some (threshold_rule upper lower x)
         | None => Some 0
         end) (df_get "RSI" d).
Proof.
  unfold threshold, fillna, np_where_scalar_series, np_where,
    series_lt_scalar, series_gt_scalar.
  rewrite map_map, zip_with_map_same, map_map. apply map_ext.
  intros [x|]; simpl; [|reflexivity].
  unfold threshold_rule.
  destruct (Rltb x (IZR lower)); [reflexivity|].
  destruct (Rgtb x (IZR upper)); reflexivity.
Qed.

(** C2 as the code has it.  On every row of the result the position is
    [+1] when the RSI is below the lower threshold, else [-1] when it is
    above the upper threshold, else [0]: the position depends on the RSI of
    its own row only, and nothing is carried forward. *)
Theorem rsi_position_rule (self : RSI.t) perf outperf res self' t :
  wf (RSI_of self) = true ->
  RSI.test_strategy self = (inr (perf, outperf, res), self') ->
  (t < nrows res)%nat ->
  exists x,
    nth t (df_get "RSI" res) None = Some x /\
    nth t (df_get "position" res) None =
    Some (threshold_rule (RSI.rsi_upper self) (RSI.rsi_lower self) x).
Proof.
  intros Hwf Hrun Ht. rewrite RSI_test_strategy_eq in Hrun.
  assert (res = backtest_frame (RSI_of self)) as ->.
  { unfold finish in Hrun.
    destruct (iloc_last (df_get "cstrategy" _)); [discriminate|].
    destruct (iloc_last (df_get "creturns" _)); [discriminate|].
    now injection Hrun as _ _ <- _. }
  rewrite result_nrows in Ht by exact Hwf.
  rewrite result_position, result_other by (exact Hwf || (simpl; intuition discriminate)).
  rewrite !nth_tl. cbn [positions]. fold (kept (RSI_of self)).
  rewrite threshold_map.
  assert (Hr : rectangular (kept (RSI_of self)) = true)
    by apply dropna_rectangular, wf_rectangular, Hwf.
  assert (Hin : In "RSI" (column_names (kept (RSI_of self)))).
  { apply wf_has_dropna; [exact Hwf|simpl; tauto]. }
  destruct (full_nth (df_get "RSI" (kept (RSI_of self))) (S t)) as [x Hx].
  - apply full_df_get, dropna_all_notna.
  - rewrite length_df_get by assumption. lia.
  - exists x. split; [exact Hx|].
    pose (f := fun c : cell =>
                 match c with
                 | Some x => Some (threshold_rule (RSI.rsi_upper self)
                                     (RSI.rsi_lower self) x)
                 | None => Some 0
                 end).
    change (nth (S t) (map f (df_get "RSI" (kept (RSI_of self)))) None
            = f (Some x)).
    rewrite <- Hx.
    rewrite (nth_indep _ None (f None)).
    + apply map_nth.
    + rewrite length_map, length_df_get by assumption. lia.
Qed.

Lemma rsi_position_rule_witness :
  exists x,
    nth 1 (df_get "RSI" (backtest_frame (RSI_of rsi_up_up_down))) None
      = Some x /\
    nth 1 (df_get "position" (backtest_frame (RSI_of rsi_up_up_down))) None
      = Some (threshold_rule 70 30 x).
Proof.
  eapply (rsi_position_rule rsi_up_up_down _ _ _ _ 1%nat).
  - reflexivity.
  - rewrite RSI_test_strategy_eq. f_equal.
    unfold rsi_up_up_down. eval_py. reflexivity.
  - unfold rsi_up_up_down. eval_py. lia.
Defined.

(** C2 as the specification words it, at one input.  On the closes
    100, 101, 102, 101 with a window of 2 and thresholds 70 and 30 the RSI
    of the three rows with defined values is 100, 100, 50: it is above 70
    from the first of them and never below 30.  Carrying the state forward
    would hold the position at [-1] on all three rows; the class has
    [-1, -1, 0], and the stored result ends with position 0. *)
Lemma rsi_position_not_carried_forward :
  df_get "RSI" (kept (RSI_of rsi_up_up_down))
    = [Some 100; Some 100; Some 50] /\
  map Some (spec_carry_forward 70 30 0 [100; 100; 50])
    = [Some (-1); Some (-1); Some (-1)] /\
  positions (RSI_of rsi_up_up_down) = [Some (-1); Some (-1); Some 0] /\
  positions (RSI_of rsi_up_up_down)
    <> map Some (spec_carry_forward 70 30 0 [100; 100; 50]) /\
  exists perf outperf res self',
    RSI.test_strategy rsi_up_up_down = (inr (perf, outperf, res), self') /\
    df_get "RSI" res = [Some 100; Some 50] /\
    df_get "position" res = [Some (-1); Some 0].
Proof.
  assert (E : positions (RSI_of rsi_up_up_down)
              = [Some (-1); Some (-1); Some 0]).
  { unfold rsi_up_up_down. eval_py. reflexivity. }
  assert (S : map Some (spec_carry_forward 70 30 0 [100; 100; 50])
              = [Some (-1); Some (-1); Some (-1)]).
  { eval_py. reflexivity. }
  split; [reflexivity|]. split; [exact S|]. split; [exact E|]. split.
  { rewrite E, S. intros H. injection H. lra. }
  do 4 eexists. split.
  { unfold rsi_up_up_down. eval_py. reflexivity. }
  split; reflexivity.
Qed.
(** ** Setting one parameter *)







(** ** Warm-up of the rolling windows *)

Lemma sequence_full l : full l -> exists xs, sequence l = Some xs.
Proof.
  induction 1 as [|[x|] l Hx _ [xs IH]]; simpl.
  - now exists [].
  - rewrite IH. now exists (x :: xs).
  - discriminate.
Qed.

Lemma full_firstn k c : full c -> full (firstn k c).
Proof.
  intros H. revert k. induction H as [|x c Hx Hc IH]; intros [|k]; simpl;
    try (constructor; fail).
  constructor; [exact Hx|apply IH].
Qed.

Lemma full_skipn k c : full c -> full (skipn k c).
Proof.
  intros H. revert k. induction H as [|x c Hx Hc IH]; intros [|k]; simpl;
    try (constructor; fail).
  - constructor; assumption.
  - apply IH.
Qed.

Lemma notna_rolling_at agg w c t :
  full c ->
  notna (rolling_at agg w c t) = (1 <=? w)%nat && (w <=? S t)%nat.
Proof.
  intros Hc. unfold rolling_at.
  destruct ((1 <=? w)%nat && (w <=? S t)%nat); [|reflexivity].
  destruct (sequence_full (firstn w (skipn (S t - w) c))) as [xs ->];
    [|reflexivity].
  now apply full_firstn, full_skipn.
Qed.

Lemma nth_map_seq {A} (f : nat -> A) n t d :
  (t < n)%nat -> nth t (map f (seq 0 n)) d = f t.
Proof.
  intros Ht. rewrite (nth_indep _ d (f 0%nat)) by now rewrite length_map, length_seq.
  rewrite map_nth, seq_nth by exact Ht. reflexivity.
Qed.

Lemma notna_None_iff (x : cell) : x = None <-> notna x = false.
Proof. destruct x; simpl; split; congruence. Qed.

(** A rolling aggregate of a column without [nan] is [nan] on its first
    [window - 1] entries and on no other (a window of 0 gives [nan]
    throughout). *)
Lemma rolling_undefined_prefix agg (window : Z) c :
  full c -> (0 <= window)%Z ->
  exists col,
    rolling agg window c = inr col /\ length col = length c /\
    forall t, (t < length c)%nat ->
      (nth t col None = None <->
       window = 0%Z \/ (Z.of_nat t < window - 1)%Z).
Proof.
  intros Hc Hw. unfold rolling.
  destruct (Z.ltb_spec window 0) as [H|_]; [lia|].
  eexists. split; [reflexivity|]. split.
  { now rewrite length_map, length_seq. }
  intros t Ht. rewrite nth_map_seq by exact Ht.
  rewrite notna_None_iff, notna_rolling_at by exact Hc.
  rewrite andb_false_iff, !Nat.leb_gt. lia.
Qed.

Lemma select_threshold {A} k (l : list A) :
  select (map (fun t => (k <=? t)%nat) (seq 0 (length l))) l = skipn k l.
Proof.
  assert (G : forall j m (l : list A), length l = m ->
            select (map (fun t => (k <=? t)%nat) (seq j m)) l
            = skipn (k - j) l).
  { intros j m. revert j. induction m as [|m IH]; intros j l0 Hl.
    - destruct l0; [|discriminate]. now rewrite skipn_nil.
    - destruct l0 as [|x l0]; [discriminate|]. injection Hl as Hl.
      cbn [seq map select]. rewrite (IH (S j) l0 Hl).
      destruct (Nat.leb_spec k j) as [H|H].
      + replace (k - j)%nat with 0%nat by lia.
        replace (k - S j)%nat with 0%nat by lia. reflexivity.
      + replace (k - j)%nat with (S (k - S j)) by lia. reflexivity. }
  rewrite (G 0%nat (length l) l eq_refl). now rewrite Nat.sub_0_r.
Qed.

Lemma nth_shift1_succ c t :
  (S t < length c)%nat -> nth (S t) (shift1 c) None = nth t c None.
Proof.
  intros Ht. destruct c as [|x c]; [simpl in Ht; lia|].
  unfold shift1.
  change (nth t (removelast (x :: c)) None = nth t (x :: c) None).
  apply nth_removelast. exact Ht.
Qed.

Lemma cdiv_None_l y : cdiv None y = None.
Proof. reflexivity. Qed.
Lemma cdiv_None_r x : cdiv x None = None.
Proof. destruct x; reflexivity. Qed.

Lemma nth_closes candles t :
  (t < length candles)%nat ->
  nth t (map (fun k => Some (c_close k)) candles) None
  = Some (c_close (nth t candles (flat_candle 0 0))).
Proof.
  intros Ht.
  rewrite (nth_indep _ None (Some (c_close (flat_candle 0 0))))
    by now rewrite length_map.
  apply (map_nth (fun k => Some (c_close k))).
Qed.

(** The log-return is [nan] on the first row and defined on every other
    row when the closes are positive. *)
Lemma notna_log_returns candles t :
  valid_candles candles -> (t < length candles)%nat ->
  notna (nth t (series_log
                  (series_div (map (fun k => Some (c_close k)) candles)
                     (shift1 (map (fun k => Some (c_close k)) candles))))
           None)
  = (1 <=? t)%nat.
Proof.
  intros Hv Ht. unfold series_log, series_div.
  rewrite nth_map_strict by reflexivity.
  rewrite nth_zip_with by (apply cdiv_None_l || apply cdiv_None_r).
  rewrite nth_closes by exact Ht.
  assert (Hpos : forall j, (j < length candles)%nat ->
                   0 < c_close (nth j candles (flat_candle 0 0))).
  { intros j Hj. unfold valid_candles in Hv. rewrite Forall_forall in Hv.
    destruct (Hv _ (nth_In _ (flat_candle 0 0) Hj)) as [H1 [H2 _]]. lra. }
  destruct t as [|t].
  - destruct candles; [simpl in Ht; lia|]. reflexivity.
  - rewrite nth_shift1_succ by now rewrite length_map.
    rewrite nth_closes by lia.
    assert (H1 := Hpos (S t) Ht). assert (H2 := Hpos t ltac:(lia)).
    unfold cdiv. rewrite Reqb_false by lra.
    unfold clog. rewrite Rltb_true; [reflexivity|].
    now apply Rdiv_lt_0_compat.
Qed.

Lemma sma_init_frame symbol ws wl tc candles :
  (0 <= ws)%Z -> (0 <= wl)%Z ->
  SMA.init symbol ws wl tc candles =
  inr {| SMA.symbol := symbol; SMA.SMA_S := ws; SMA.SMA_L := wl; SMA.tc := tc;
         SMA.results := None; SMA.data := sma_frame ws wl candles |}.
Proof.
  intros Hs Hl.
  unfold SMA.init, SMA.get_data, bind, get, lift, modify, rolling_mean,
    rolling.
  cbn [SMA.SMA_S SMA.SMA_L].
  destruct (Z.ltb_spec ws 0) as [H|_]; [lia|].
  destruct (Z.ltb_spec wl 0) as [H|_]; [lia|].
  reflexivity.
Qed.

Lemma notna_candle_column (f : Candle -> R) candles t :
  (t < length candles)%nat ->
  notna (nth t (map (fun k => Some (f k)) candles) None) = true.
Proof.
  intros Ht.
  rewrite (nth_indep _ None (Some (f (flat_candle 0 0))))
    by now rewrite length_map.
  now rewrite (map_nth (fun k => Some (f k))).
Qed.

Lemma full_closes candles : full (map (fun k => Some (c_close k)) candles).
Proof. unfold full. apply Forall_map, Forall_forall. reflexivity. Qed.

(** The rows of the SMA frame without [nan] are those from row
    [max 1 (max S L - 1)] on. *)
Lemma sma_frame_mask ws wl candles :
  valid_candles candles ->
  notna_mask (sma_frame ws wl candles) =
  map (fun t => (Nat.max 1 (Nat.max (Z.to_nat ws) (Z.to_nat wl) - 1) <=? t)%nat
                && (1 <=? Z.to_nat ws)%nat && (1 <=? Z.to_nat wl)%nat)
    (seq 0 (length candles)).
Proof.
  intros Hv. unfold notna_mask, nrows, sma_frame. cbv zeta.
  cbn [df_index df_set candle_frame].
  replace (length (map c_time candles)) with (length candles)
    by (symmetry; apply length_map).
  apply map_ext_in. intros t Ht. apply in_seq in Ht.
  unfold row_notna, log_returns.
  cbn [df_cols df_set df_get candle_frame assoc_set assoc_get String.eqb
       Ascii.eqb Bool.eqb forallb snd].
  rewrite !(notna_candle_column) by lia.
  rewrite notna_log_returns by (exact Hv || lia).
  rewrite !nth_map_seq by (rewrite length_map; lia).
  rewrite !notna_rolling_at by apply full_closes.
  destruct (Nat.leb_spec 1 t), (Nat.leb_spec 1 (Z.to_nat ws)),
    (Nat.leb_spec 1 (Z.to_nat wl)), (Nat.leb_spec (Z.to_nat ws) (S t)),
    (Nat.leb_spec (Z.to_nat wl) (S t)),
    (Nat.leb_spec (Nat.max 1 (Nat.max (Z.to_nat ws) (Z.to_nat wl) - 1)) t);
    simpl; try reflexivity; lia.
Qed.

Lemma sma_frame_wf symbol ws wl tc candles :
  wf (SMA_of {| SMA.symbol := symbol; SMA.SMA_S := ws; SMA.SMA_L := wl;
                SMA.tc := tc; SMA.results := None;
                SMA.data := sma_frame ws wl candles |}) = true.
Proof.
  unfold wf, wf_frame. cbn [data_of SMA.data].
  rewrite !andb_true_iff. repeat split.
  - apply rectangular_spec. unfold sma_frame, nrows, log_returns. cbv zeta.
    cbn [df_cols df_index df_set df_get candle_frame assoc_set assoc_get
         String.eqb Ascii.eqb Bool.eqb].
    repeat constructor; cbn [snd];
      unfold series_log, series_div;
      rewrite ?length_map, ?length_zip_with, ?length_shift1, ?length_map,
        ?length_seq, ?length_map; try reflexivity.
    apply Nat.min_id.
Qed.

Lemma sma_kept_rows ws wl candles :
  valid_candles candles -> (1 <= ws)%Z -> (1 <= wl)%Z ->
  nrows (dropna (sma_frame ws wl candles)) =
  (length candles - Nat.max 1 (Z.to_nat (Z.max ws wl) - 1))%nat.
Proof.
  intros Hv Hs Hl. unfold nrows, dropna. cbn [df_index].
  rewrite sma_frame_mask by exact Hv.
  unfold sma_frame. cbv zeta. cbn [df_index df_set candle_frame].
  rewrite (map_ext
             (fun t =>
                (Nat.max 1 (Nat.max (Z.to_nat ws) (Z.to_nat wl) - 1) <=? t)%nat
                && (1 <=? Z.to_nat ws)%nat && (1 <=? Z.to_nat wl)%nat)
             (fun t =>
                (Nat.max 1 (Nat.max (Z.to_nat ws) (Z.to_nat wl) - 1)
                 <=? t)%nat)).
  2:{ intros t. destruct (Nat.leb_spec 1 (Z.to_nat ws)); [|lia].
      destruct (Nat.leb_spec 1 (Z.to_nat wl)); [|lia].
      now rewrite !andb_true_r. }
  replace (length candles) with (length (map c_time candles)) at 1
    by apply length_map.
  rewrite select_threshold, length_skipn, length_map. lia.
Qed.

(** C6 as the code has it.  On candles with positive closes and windows of
    at least 1, each rolling mean of [SMABacktester] is [nan] on its first
    [window - 1] rows and on no other.  The position is computed on the rows
    without [nan], [len - max(1, max(SMA_S, SMA_L) - 1)] of them: the rows
    before the longest window is full are dropped, and the first row in any
    case for its log-return.  The lag of the position costs one more row, so
    the position column of the result has [len - max(2, SMA_S, SMA_L)]
    entries (none when the series is shorter). *)
Theorem sma_warm_up symbol ws wl tc candles :
  valid_candles candles -> (1 <= ws)%Z -> (1 <= wl)%Z ->
  exists self,
    SMA.init symbol ws wl tc candles = inr self /\
    (forall t, (t < length candles)%nat ->
       (nth t (df_get "SMA_S" (SMA.data self)) None = None
        <-> (Z.of_nat t < ws - 1)%Z) /\
       (nth t (df_get "SMA_L" (SMA.data self)) None = None
        <-> (Z.of_nat t < wl - 1)%Z)) /\
    length (positions (SMA_of self)) =
    (length candles - Nat.max 1 (Z.to_nat (Z.max ws wl) - 1))%nat /\
    length (df_get "position" (backtest_frame (SMA_of self))) =
    (length candles - Nat.max 2 (Z.to_nat (Z.max ws wl)))%nat.
Proof.
  intros Hv Hs Hl. eexists. split; [apply sma_init_frame; lia|]. split.
  - intros t Ht. cbn [SMA.data]. unfold sma_frame. cbv zeta.
    rewrite !df_get_set. cbn [String.eqb Ascii.eqb Bool.eqb].
    rewrite !nth_map_seq by (rewrite length_map; exact Ht).
    rewrite !notna_None_iff, !notna_rolling_at by apply full_closes.
    rewrite !andb_false_iff, !Nat.leb_gt. lia.
  - assert (Hp := length_positions (SMA_of _)
                    (sma_frame_wf symbol ws wl tc candles)).
    cbn [data_of SMA.data] in Hp. rewrite sma_kept_rows in Hp by assumption.
    split; [exact Hp|].
    rewrite result_position by apply sma_frame_wf.
    rewrite length_tl. unfold column, cell in *. rewrite Hp. lia.
Qed.

Lemma sma_warm_up_witness :
  exists self,
    SMA.init "X" 1 2 (1 / 100) zigzag = inr self /\
    (forall t, (t < length zigzag)%nat ->
       (nth t (df_get "SMA_S" (SMA.data self)) None = None
        <-> (Z.of_nat t < 1 - 1)%Z) /\
       (nth t (df_get "SMA_L" (SMA.data self)) None = None
        <-> (Z.of_nat t < 2 - 1)%Z)) /\
    length (positions (SMA_of self)) =
    (length zigzag - Nat.max 1 (Z.to_nat (Z.max 1 2) - 1))%nat /\
    length (df_get "position" (backtest_frame (SMA_of self))) =
    (length zigzag - Nat.max 2 (Z.to_nat (Z.max 1 2)))%nat.
Proof.
  apply (sma_warm_up "X" 1 2 (1 / 100) zigzag).
  - repeat constructor; simpl; lra.
  - lia.
  - lia.
Defined.

(** C6 as the specification words it, at two inputs.  With both windows 1
    on three closes the maximum window is 1 and [len - max] is 2; the
    position column of the result has one entry.  With the windows 1 and 2
    on four closes [len - max] is 2; the position is computed on three
    rows.  So neither the position column of the result nor the position as
    first computed has [len - max] entries on every input. *)
Lemma sma_unit_windows_lose_two_rows :
  SMA.init "X" 1 1 0 rising = inr sma_unit_windows /\
  (exists perf outperf res self',
     SMA.test_strategy sma_unit_windows = (inr (perf, outperf, res), self') /\
     df_get "position" res = [Some (-1)] /\
     length (df_get "position" res)
       <> (length rising - Z.to_nat (Z.max 1 1))%nat) /\
  SMA.init "X" 1 2 (1 / 100) zigzag = inr sma_zigzag /\
  positions (SMA_of sma_zigzag) = [Some 1; Some (-1); Some 1] /\
  length (positions (SMA_of sma_zigzag))
    <> (length zigzag - Z.to_nat (Z.max 1 2))%nat.
Proof.
  split; [apply sma_unit_windows_init|]. split.
  { do 4 eexists. split.
    { unfold sma_unit_windows. eval_py. reflexivity. }
    split; [reflexivity|]. run. lia. }
  split; [apply sma_zigzag_init|].
  assert (E : positions (SMA_of sma_zigzag) = [Some 1; Some (-1); Some 1]).
  { unfold sma_zigzag. eval_py. reflexivity. }
  split; [exact E|]. rewrite E. run. lia.
Qed.

(** ** Degenerate windows *)

Lemma rolling_nonneg agg window c :
  (0 <= window)%Z -> rolling agg window c = inr (rolled agg window c).
Proof.
  intros H. unfold rolling, rolled.
  destruct (Z.ltb_spec window 0); [lia|reflexivity].
Qed.




Lemma cadd_None_l y : cadd None y = None.
Proof. reflexivity. Qed.
Lemma cadd_None_r x : cadd x None = None.
Proof. destruct x; reflexivity. Qed.

Lemma nth_Some_lt (c : column) t x :
  nth t c None = Some x -> (t < length c)%nat.
Proof.
  intros H. destruct (Nat.lt_ge_cases t (length c)) as [Hlt|Hge];
    [exact Hlt|].
  rewrite nth_overflow in H by exact Hge. discriminate.
Qed.

Lemma length_rolled agg w c : length (rolled agg w c) = length c.
Proof. unfold rolled. now rewrite length_map, length_seq. Qed.

(** The least of a list is below each entry, the greatest above. *)
Lemma fold_Rmin_le l a :
  fold_left Rmin l a <= a /\ forall x, In x l -> fold_left Rmin l a <= x.
Proof.
  revert a; induction l as [|y l IH]; intros a; simpl.
  - split; [lra|tauto].
  - destruct (IH (Rmin a y)) as [H1 H2].
    assert (Ha := Rmin_l a y). assert (Hy := Rmin_r a y).
    split; [lra|]. intros x [<-|Hx]; [lra|auto].
Qed.

Lemma fold_Rmax_ge l a :
  a <= fold_left Rmax l a /\ forall x, In x l -> x <= fold_left Rmax l a.
Proof.
  revert a; induction l as [|y l IH]; intros a; simpl.
  - split; [lra|tauto].
  - destruct (IH (Rmax a y)) as [H1 H2].
    assert (Ha := Rmax_l a y). assert (Hy := Rmax_r a y).
    split; [lra|]. intros x [<-|Hx]; [lra|auto].
Qed.

Lemma Rlist_min_le xs x : In x xs -> Rlist_min xs <= x.
Proof.
  destruct xs as [|y xs]; [intros []|]. unfold Rlist_min.
  destruct (fold_Rmin_le xs y) as [H1 H2]. intros [<-|Hx]; auto.
Qed.

Lemma Rlist_max_ge xs x : In x xs -> x <= Rlist_max xs.
Proof.
  destruct xs as [|y xs]; [intros []|]. unfold Rlist_max.
  destruct (fold_Rmax_ge xs y) as [H1 H2]. intros [<-|Hx]; auto.
Qed.

Lemma sequence_In l xs x :
  sequence l = Some xs -> In (Some x) l -> In x xs.
Proof.
  revert xs; induction l as [|[y|] l IH]; intros xs; simpl;
    [intros _ []| |discriminate].
  destruct (sequence l) as [ys|] eqn:E; [|discriminate].
  intros H; injection H as <-. intros [H|H].
  - injection H as ->. now left.
  - right. now apply IH.
Qed.

Lemma nth_skipn_add {A} k (l : list A) i d :
  nth i (skipn k l) d = nth (k + i) l d.
Proof.
  revert l; induction k as [|k IH]; intros [|x l]; simpl; auto.
  now destruct i.
Qed.

Lemma In_firstn_nth {A} w (l : list A) i d :
  (i < w)%nat -> (i < length l)%nat -> In (nth i l d) (firstn w l).
Proof.
  revert l i; induction w as [|w IH]; intros [|x l] [|i] Hw Hl; simpl in *;
    try lia; [now left|]. right. apply IH; lia.
Qed.

(** The window that ends at row [t] contains row [t]. *)
Lemma In_window (c : column) w t :
  (1 <= w)%nat -> (w <= S t)%nat -> (t < length c)%nat ->
  In (nth t c None) (firstn w (skipn (S t - w) c)).
Proof.
  intros H1 H2 Ht.
  replace (nth t c None) with (nth (w - 1) (skipn (S t - w) c) None).
  - apply In_firstn_nth; [lia|]. rewrite length_skipn. lia.
  - rewrite nth_skipn_add. f_equal. lia.
Qed.

Lemma rolling_at_bounds agg w c t m x :
  rolling_at agg w c t = Some m -> nth t c None = Some x ->
  exists xs, m = agg xs /\ In x xs.
Proof.
  unfold rolling_at. intros H Hx.
  destruct (Nat.leb_spec 1 w); [|discriminate].
  destruct (Nat.leb_spec w (S t)); [|discriminate]. cbn [andb] in H.
  destruct (sequence (firstn w (skipn (S t - w) c))) as [xs|] eqn:E;
    [|discriminate].
  injection H as <-. exists xs. split; [reflexivity|].
  apply (sequence_In _ _ _ E). rewrite <- Hx.
  apply In_window; try assumption. eapply nth_Some_lt, Hx.
Qed.

Ltac column_lengths :=
  repeat
    (progress
       (unfold log_returns, RSI.rsi_formula, SO.k_formula, rolled, diff,
          series_log, series_div, series_sub, series_add, series_mul,
          series_scale, series_neg, series_abs, np_where_series_scalar,
          np_where_scalar_series, np_where, series_gt_scalar,
          series_lt_scalar, series_gt;
        cbn [df_cols df_index df_set df_get candle_frame assoc_set assoc_get
             String.eqb Ascii.eqb Bool.eqb];
        rewrite ?length_map, ?length_zip_with, ?length_shift1, ?length_seq,
          ?Nat.min_id));
  try reflexivity.

Ltac frame_columns :=
  cbv zeta;
  cbn [df_cols df_index df_set df_get candle_frame assoc_set assoc_get
       String.eqb Ascii.eqb Bool.eqb].

Lemma rsi_frame_wf symbol periods upper lower tc candles :
  wf (RSI_of {| RSI.symbol := symbol; RSI.periods := periods;
                RSI.rsi_upper := upper; RSI.rsi_lower := lower;
                RSI.tc := tc; RSI.results := None;
                RSI.data := rsi_frame periods candles |}) = true.
Proof.
  unfold wf, wf_frame. cbn [data_of RSI.data].
  rewrite !andb_true_iff. repeat split.
  apply rectangular_spec. unfold rsi_frame, nrows. frame_columns.
  repeat constructor; cbn [snd]; column_lengths.
Qed.

Lemma so_frame_wf symbol periods D_mw tc candles :
  wf (SO_of {| SO.symbol := symbol; SO.periods := periods;
               SO.D_mw := D_mw; SO.tc := tc; SO.results := None;
               SO.data := so_frame periods D_mw candles |}) = true.
Proof.
  unfold wf, wf_frame. cbn [data_of SO.data].
  rewrite !andb_true_iff. repeat split.
  apply rectangular_spec. unfold so_frame, nrows. frame_columns.
  repeat constructor; cbn [snd]; column_lengths.
Qed.


Lemma nth_candle_low candles t x :
  nth t (map (fun k => Some (c_low k)) candles) None = Some x ->
  x = c_low (nth t candles (flat_candle 0 0)).
Proof.
  intros H. assert (Ht := nth_Some_lt _ _ _ H). rewrite length_map in Ht.
  rewrite (nth_indep _ None (Some (c_low (flat_candle 0 0)))) in H
    by now rewrite length_map.
  rewrite (map_nth (fun k => Some (c_low k))) in H. congruence.
Qed.



(** On two equal closes the RSI with a window of 1 and [%K] with a window
    of 1 are [nan] on every row, and [test_strategy] then has no row
    left. *)
Lemma flat_prices_have_no_signal :
  (exists self,
     RSI.init "X" 1 70 30 0 flat_prices = inr self /\
     df_get "RSI" (RSI.data self) = [None; None] /\
     nrows (dropna (RSI.data self)) = 0%nat) /\
  (exists self,
     SO.init "X" 1 1 0 flat_prices = inr self /\
     df_get "K" (SO.data self) = [None; None] /\
     nrows (dropna (SO.data self)) = 0%nat).
Proof.
  split; eexists; (split; [eval_py; reflexivity|]);
    split; eval_py; reflexivity.
Qed.

(** ** What the constructors return *)

Lemma ewm_mean_ewmed s c col :
  ewm_mean s s c = inr col -> (1 <= s)%Z /\ col = ewmed s c.
Proof.
  unfold ewm_mean, ewmed. destruct (Z.ltb_spec s 1) as [Hs|Hs];
    [discriminate|].
  intros Heq; injection Heq as <-. auto.
Qed.

Lemma rolling_rolled agg w c col :
  rolling agg w c = inr col -> (0 <= w)%Z /\ col = rolled agg w c.
Proof.
  unfold rolling, rolled. destruct (Z.ltb_spec w 0) as [Hw|Hw];
    [discriminate|].
  intros Heq; injection Heq as <-. auto.
Qed.

Lemma length_ewmed s c : length (ewmed s c) = length c.
Proof.
  unfold ewmed. generalize {| weighted := None; old_wt := 1; nobs := 0 |}.
  induction c as [|x c IH]; intros acc; simpl; [reflexivity|].
  now rewrite IH.
Qed.

Ltac init_in H :=
  unfold bind, get, modify, lift, ret in H;
  repeat (cbv beta iota zeta in H;
          match type of H with
          | context [match ?e with inl _ => _ | inr _ => _ end] =>
              let E := fresh "E" in destruct e eqn:E; try discriminate
          end);
  cbv beta iota zeta in H.

Ltac window_facts :=
  repeat match goal with
    | E : rolling_mean _ _ = inr _ |- _ =>
        apply rolling_rolled in E; destruct E as [? ->]
    | E : rolling_min _ _ = inr _ |- _ =>
        apply rolling_rolled in E; destruct E as [? ->]
    | E : rolling_max _ _ = inr _ |- _ =>
        apply rolling_rolled in E; destruct E as [? ->]
    | E : ewm_mean _ _ _ = inr _ |- _ =>
        apply ewm_mean_ewmed in E; destruct E as [? ->]
    end.

Lemma sma_init_inr symbol ws wl tc candles self :
  SMA.init symbol ws wl tc candles = inr self ->
  self = {| SMA.symbol := symbol; SMA.SMA_S := ws; SMA.SMA_L := wl;
            SMA.tc := tc; SMA.results := None;
            SMA.data := sma_frame ws wl candles |}.
Proof.
  unfold SMA.init.
  destruct (SMA.get_data candles _) as [[e|u] s] eqn:H; [discriminate|].
  intros Heq; injection Heq as <-. unfold SMA.get_data in H.
  init_in H. cbn [SMA.SMA_S SMA.SMA_L] in *. window_facts.
  now injection H as <-.
Qed.

Lemma ema_init_inr symbol a b tc candles self :
  EMA.init symbol a b tc candles = inr self ->
  self = {| EMA.symbol := symbol; EMA.EMA_S := a; EMA.EMA_L := b;
            EMA.tc := tc; EMA.results := None;
            EMA.data := ema_frame a b candles |}.
Proof.
  unfold EMA.init.
  destruct (EMA.get_data candles _) as [[e|u] s] eqn:H; [discriminate|].
  intros Heq; injection Heq as <-. unfold EMA.get_data in H.
  init_in H. cbn [EMA.EMA_S EMA.EMA_L] in *. window_facts.
  now injection H as <-.
Qed.

Lemma macd_init_inr symbol a b c tc candles self :
  MACD.init symbol a b c tc candles = inr self ->
  (1 <= c)%Z /\
  self = {| MACD.symbol := symbol; MACD.EMA_S := a; MACD.EMA_L := b;
            MACD.signal_mw := c; MACD.tc := tc; MACD.results := None;
            MACD.data := macd_frame a b c candles |}.
Proof.
  unfold MACD.init.
  destruct (MACD.get_data candles _) as [[e|u] s] eqn:H; [discriminate|].
  intros Heq; injection Heq as <-. unfold MACD.get_data in H.
  init_in H. cbn [MACD.EMA_S MACD.EMA_L MACD.signal_mw] in *. window_facts.
  split; [assumption|]. now injection H as <-.
Qed.

Lemma rsi_init_inr symbol periods upper lower tc candles self :
  RSI.init symbol periods upper lower tc candles = inr self ->
  self = {| RSI.symbol := symbol; RSI.periods := periods;
            RSI.rsi_upper := upper; RSI.rsi_lower := lower; RSI.tc := tc;
            RSI.results := None; RSI.data := rsi_frame periods candles |}.
Proof.
  unfold RSI.init.
  destruct (RSI.get_data candles _) as [[e|u] s] eqn:H; [discriminate|].
  intros Heq; injection Heq as <-. unfold RSI.get_data in H.
  init_in H. cbn [RSI.periods] in *. window_facts.
  now injection H as <-.
Qed.

Lemma so_init_inr symbol periods D_mw tc candles self :
  SO.init symbol periods D_mw tc candles = inr self ->
  (0 <= D_mw)%Z /\
  self = {| SO.symbol := symbol; SO.periods := periods; SO.D_mw := D_mw;
            SO.tc := tc; SO.results := None;
            SO.data := so_frame periods D_mw candles |}.
Proof.
  unfold SO.init.
  destruct (SO.get_data candles _) as [[e|u] s] eqn:H; [discriminate|].
  intros Heq; injection Heq as <-. unfold SO.get_data in H.
  init_in H. cbn [SO.periods SO.D_mw] in *. window_facts.
  split; [assumption|]. now injection H as <-.
Qed.

Ltac frame_lengths :=
  repeat
    (progress
       (unfold log_returns, RSI.rsi_formula, SO.k_formula, rolled, diff,
          series_log, series_div, series_sub, series_add, series_mul,
          series_scale, series_neg, series_abs, np_where_series_scalar,
          np_where_scalar_series, np_where, series_gt_scalar,
          series_lt_scalar, series_gt;
        cbn [df_cols df_index df_set df_get candle_frame assoc_set assoc_get
             String.eqb Ascii.eqb Bool.eqb];
        rewrite ?length_map, ?length_zip_with, ?length_shift1, ?length_seq,
          ?length_ewmed, ?Nat.min_id));
  try reflexivity.

Lemma ema_frame_wf symbol a b tc candles :
  wf (EMA_of {| EMA.symbol := symbol; EMA.EMA_S := a; EMA.EMA_L := b;
                EMA.tc := tc; EMA.results := None;
                EMA.data := ema_frame a b candles |}) = true.
Proof.
  unfold wf, wf_frame. cbn [data_of EMA.data].
  rewrite !andb_true_iff. repeat split.
  apply rectangular_spec. unfold ema_frame, nrows. frame_columns.
  repeat constructor; cbn [snd]; frame_lengths.
Qed.

Lemma macd_frame_wf symbol a b c tc candles :
  wf (MACD_of {| MACD.symbol := symbol; MACD.EMA_S := a; MACD.EMA_L := b;
                 MACD.signal_mw := c; MACD.tc := tc; MACD.results := None;
                 MACD.data := macd_frame a b c candles |}) = true.
Proof.
  unfold wf, wf_frame. cbn [data_of MACD.data].
  rewrite !andb_true_iff. repeat split.
  apply rectangular_spec. unfold macd_frame, nrows. frame_columns.
  repeat constructor; cbn [snd]; frame_lengths.
Qed.

(** An instance a constructor returns is good. *)
Lemma sma_init_good symbol ws wl tc candles self :
  SMA.init symbol ws wl tc candles = inr self -> good (SMA_of self).
Proof.
  intros H. apply sma_init_inr in H. subst self.
  split; [apply sma_frame_wf|exact I].
Qed.

Lemma ema_init_good symbol a b tc candles self :
  EMA.init symbol a b tc candles = inr self -> good (EMA_of self).
Proof.
  intros H. apply ema_init_inr in H. subst self.
  split; [apply ema_frame_wf|exact I].
Qed.

Lemma macd_init_good symbol a b c tc candles self :
  MACD.init symbol a b c tc candles = inr self -> good (MACD_of self).
Proof.
  intros H. apply macd_init_inr in H. destruct H as [Hc ->].
  split; [apply macd_frame_wf|exact Hc].
Qed.

Lemma rsi_init_good symbol periods upper lower tc candles self :
  RSI.init symbol periods upper lower tc candles = inr self ->
  good (RSI_of self).
Proof.
  intros H. apply rsi_init_inr in H. subst self.
  split; [apply rsi_frame_wf|exact I].
Qed.

Lemma so_init_good symbol periods D_mw tc candles self :
  SO.init symbol periods D_mw tc candles = inr self -> good (SO_of self).
Proof.
  intros H. apply so_init_inr in H. destruct H as [Hd ->].
  split; [apply so_frame_wf|exact Hd].
Qed.

(** ** The grid search *)

Lemma bind_inr {St A B} (m : M St A) (k : A -> M St B) s b s' :
  bind m k s = (inr b, s') ->
  exists a s1, m s = (inr a, s1) /\ k a s1 = (inr b, s').
Proof.
  unfold bind. destruct (m s) as [[e|a] s1]; [discriminate|]. eauto.
Qed.

Lemma lift_inr {St A} (x : exn + A) (s : St) a s' :
  lift x s = (inr a, s') -> x = inr a /\ s' = s.
Proof. unfold lift. intros H; injection H as -> ->. auto. Qed.

Lemma ret_inr {St A} (a : A) (s : St) b s' :
  ret a s = (inr b, s') -> b = a /\ s' = s.
Proof. unfold ret. intros H; injection H as -> ->. auto. Qed.

Lemma on_eq {St A} (inj : St -> instance) (m : M St A) self r i' :
  on inj m self = (r, i') ->
  exists self', m self = (r, self') /\ i' = inj self'.
Proof.
  unfold on. destruct (m self) as [r0 self']. intros H; injection H as -> <-.
  eauto.
Qed.

Lemma argmin_from_spec l :
  forall pre bi b,
    full l -> first_least pre bi -> nth bi pre None = Some b ->
    first_least (pre ++ l) (argmin_from bi (Some b) (length pre) l).
Proof.
  induction l as [|x l IH]; intros pre bi b Hl Hpre Hb.
  - simpl. now rewrite app_nil_r.
  - inversion_clear Hl as [|? ? Hx Hl']. destruct x as [v|]; [|discriminate].
    cbn [argmin_from]. unfold first_least in *. unfold column, cell in *.
    replace (pre ++ Some v :: l)%list with ((pre ++ [Some v]) ++ l)%list
      by now rewrite <- app_assoc.
    replace (S (length pre)) with (length (pre ++ [Some v]))%list
      by (rewrite length_app; simpl; lia).
    destruct Hpre as (Hbi & b' & Hb' & Hmin & Hfirst).
    rewrite Hb in Hb'. injection Hb' as <-.
    assert (Hnth : forall j w, nth j (pre ++ [Some v]) None = Some w ->
                     (j < length pre /\ nth j pre None = Some w)%nat
                     \/ (j = length pre /\ w = v)).
    { intros j w Hw. destruct (Nat.lt_ge_cases j (length pre)) as [Hj|Hj].
      - left. rewrite app_nth1 in Hw by exact Hj. auto.
      - right. rewrite app_nth2 in Hw by exact Hj.
        destruct (j - length pre)%nat as [|[|m]] eqn:E; simpl in Hw;
          try discriminate. injection Hw as <-. split; [lia|reflexivity]. }
    unfold Rltb. destruct (Rlt_dec v b) as [Hlt|Hge].
    + apply IH; [exact Hl'| |].
      * split; [rewrite length_app; simpl; lia|]. exists v. split.
        { rewrite app_nth2, Nat.sub_diag by lia. reflexivity. }
        split.
        { intros j w Hw. destruct (Hnth j w Hw) as [[Hj Hw']|[_ ->]];
            [|lra]. specialize (Hmin j w Hw'). lra. }
        { intros j w Hj Hw. destruct (Hnth j w Hw) as [[_ Hw']|[-> _]];
            [|lia]. specialize (Hmin j w Hw'). lra. }
      * rewrite app_nth2, Nat.sub_diag by lia. reflexivity.
    + apply IH; [exact Hl'| |].
      * split; [rewrite length_app; simpl; lia|]. exists b. split.
        { rewrite app_nth1 by exact Hbi. exact Hb. }
        split.
        { intros j w Hw. destruct (Hnth j w Hw) as [[Hj Hw']|[_ ->]];
            [eauto|lra]. }
        { intros j w Hj Hw. destruct (Hnth j w Hw) as [[_ Hw']|[-> _]];
            [eauto|lia]. }
      * rewrite app_nth1 by exact Hbi. exact Hb.
Qed.

Lemma argmin_spec J k : full J -> argmin J = inr k -> first_least J k.
Proof.
  destruct J as [|x J]; [discriminate|]. intros HJ H. injection H as <-.
  inversion_clear HJ as [|? ? Hx HJ']. destruct x as [v|]; [|discriminate].
  apply (argmin_from_spec J [Some v] 0%nat v); [exact HJ'| |reflexivity].
  split; [simpl; lia|]. exists v. split; [reflexivity|]. split.
  - intros [|[|j]] w Hw; simpl in Hw; try discriminate.
    injection Hw as <-. lra.
  - intros j w Hj. lia.
Qed.

Section Search.

Variable St : Type.
Variable func : point -> M St cell.

(** [related s0 s]: the search started at [s0] can be in state [s]. *)
Variable related : St -> St -> Prop.

Hypothesis related_value :
  forall s0 s x, related s0 s -> fst (func x s) = fst (func x s0).
Hypothesis related_step :
  forall s0 s x v s1,
    related s0 s -> func x s = (inr v, s1) -> related s0 s1.

Lemma eval_points_values s0 grid :
  forall s Jout s',
    related s0 s -> eval_points func grid s = (inr Jout, s') ->
    related s0 s' /\
    Forall2 (fun x v => fst (func x s0) = inr v) grid Jout.
Proof.
  induction grid as [|x grid IH]; intros s Jout s' Hs H; cbn [eval_points] in H.
  - apply ret_inr in H. destruct H as [-> ->]. split; [exact Hs|constructor].
  - apply bind_inr in H. destruct H as (v & s1 & Hv & H).
    apply bind_inr in H. destruct H as (vs & s2 & Hvs & H).
    apply ret_inr in H. destruct H as [-> ->].
    assert (Hs1 := related_step _ _ _ _ _ Hs Hv).
    destruct (IH _ _ _ Hs1 Hvs) as [Hs2 HF]. split; [exact Hs2|].
    constructor; [|exact HF].
    rewrite <- (related_value s0 s x Hs), Hv. reflexivity.
Qed.

Lemma brute_inr ranges s0 x s' :
  related s0 s0 -> brute func ranges s0 = (inr x, s') ->
  exists grid Jout k,
    mgrid ranges = inr grid /\
    Forall2 (fun x v => fst (func x s0) = inr v) grid Jout /\
    argmin Jout = inr k /\ x = nth k grid [] /\ related s0 s'.
Proof.
  intros Hs H. unfold brute in H.
  apply bind_inr in H. destruct H as (grid & s1 & Hg & H).
  apply lift_inr in Hg. destruct Hg as [Hg ->].
  apply bind_inr in H. destruct H as (Jout & s2 & HJ & H).
  apply bind_inr in H. destruct H as (k & s3 & Hk & H).
  apply lift_inr in Hk. destruct Hk as [Hk ->].
  apply ret_inr in H. destruct H as [-> ->].
  destruct (eval_points_values s0 grid _ _ _ Hs HJ) as [Hs2 HF].
  exists grid, Jout, k. auto.
Qed.

End Search.

(** ** Frames that agree outside the recomputed columns *)

Lemma names_assoc_set_cases n c cs :
  map fst (assoc_set n c cs) =
  if existsb (String.eqb n) (map fst cs) then map fst cs
  else (map fst cs ++ [n])%list.
Proof.
  destruct (existsb (String.eqb n) (map fst cs)) eqn:E.
  - apply names_assoc_set. now apply existsb_eqb_In.
  - apply names_assoc_set_new. intros H. apply existsb_eqb_In in H.
    congruence.
Qed.

Lemma column_names_set n c d :
  column_names (df_set n c d) =
  if existsb (String.eqb n) (column_names d) then column_names d
  else (column_names d ++ [n])%list.
Proof. apply names_assoc_set_cases. Qed.

Lemma column_names_set_present n c d :
  In n (column_names d) -> column_names (df_set n c d) = column_names d.
Proof.
  intros H. rewrite column_names_set.
  apply existsb_eqb_In in H. now rewrite H.
Qed.

Lemma frames_agree_refl names d : frames_agree names d d.
Proof. repeat split. Qed.

Lemma frames_agree_set names n c c' d d0 :
  frames_agree names d d0 -> In n names ->
  frames_agree names (df_set n c d) (df_set n c' d0).
Proof.
  intros (Hi & Hn & Hc) Hin. split; [exact Hi|]. split.
  - rewrite !column_names_set, Hn. reflexivity.
  - intros m Hm. rewrite !df_get_set.
    destruct (String.eqb_spec n m) as [->|_]; [contradiction|auto].
Qed.

Lemma frames_agree_set_left names n c d d0 :
  frames_agree names d d0 -> In n names -> In n (column_names d) ->
  frames_agree names (df_set n c d) d0.
Proof.
  intros (Hi & Hn & Hc) Hin Hp. split; [exact Hi|]. split.
  - now rewrite column_names_set_present.
  - intros m Hm. rewrite df_get_set.
    destruct (String.eqb_spec n m) as [->|_]; [contradiction|auto].
Qed.

Lemma frames_agree_trans names d d1 d0 :
  frames_agree names d d1 -> frames_agree names d1 d0 ->
  frames_agree names d d0.
Proof.
  intros (Hi & Hn & Hc) (Hi' & Hn' & Hc'). repeat split; try congruence.
  intros n H. rewrite Hc, Hc' by exact H. reflexivity.
Qed.

Lemma frames_agree_eq names d d0 :
  frames_agree names d d0 -> NoDup (column_names d) ->
  (forall n, In n names -> df_get n d = df_get n d0) -> d = d0.
Proof.
  intros (Hi & Hn & Hc) Hnd Hin.
  destruct d as [ix cs], d0 as [ix0 cs0]. simpl in *. subst ix0. f_equal.
  apply assoc_ext; [exact Hn|exact Hnd|].
  intros n _. destruct (in_dec string_dec n names) as [H|H]; [now apply Hin|].
  now apply Hc.
Qed.

Lemma wf_frame_set names n c d :
  wf_frame names d = true -> length c = nrows d ->
  wf_frame names (df_set n c d) = true.
Proof.
  rewrite !wf_frame_spec. intros (Hr & Hnd & Hh) Hc. split; [|split].
  - now apply rectangular_set.
  - rewrite column_names_set.
    destruct (existsb (String.eqb n) (column_names d)) eqn:E; [exact Hnd|].
    apply NoDup_app; [exact Hnd|repeat constructor; intros []|].
    intros x Hx [<-|[]]. apply existsb_eqb_In in Hx. congruence.
  - intros m Hm. specialize (Hh m Hm). rewrite column_names_set.
    destruct (existsb (String.eqb n) (column_names d)); [exact Hh|].
    apply in_or_app. now left.
Qed.

(** ** What a full [set_parameters] leaves *)

Ltac run_in H :=
  unfold when_given in H; unfold bind, get, modify, lift, ret in H;
  repeat (cbv beta iota in H;
          match type of H with
          | context [match ?e with inl _ => _ | inr _ => _ end] =>
              let E := fresh "E" in destruct e eqn:E; try discriminate
          end);
  cbv beta iota in H.

Ltac projections :=
  cbn [fst snd data_of tc_of results_of parameters_of
       SMA.data SMA.tc SMA.results SMA.SMA_S SMA.SMA_L SMA.symbol
       SMA.set_data SMA.set_SMA_S SMA.set_SMA_L SMA.set_results
       EMA.data EMA.tc EMA.results EMA.EMA_S EMA.EMA_L EMA.symbol
       EMA.set_data EMA.set_EMA_S EMA.set_EMA_L EMA.set_results
       MACD.data MACD.tc MACD.results MACD.EMA_S MACD.EMA_L MACD.signal_mw
       MACD.symbol MACD.set_data MACD.set_EMA_S MACD.set_EMA_L
       MACD.set_signal_mw MACD.set_results
       RSI.data RSI.tc RSI.results RSI.periods RSI.rsi_upper RSI.rsi_lower
       RSI.symbol RSI.set_data RSI.set_periods RSI.set_rsi_upper
       RSI.set_rsi_lower RSI.set_results
       SO.data SO.tc SO.results SO.periods SO.D_mw SO.symbol
       SO.set_data SO.set_periods SO.set_D_mw SO.set_results] in *.

Ltac columns_in H :=
  repeat (progress (rewrite ?df_get_set in H;
                    cbn [String.eqb Ascii.eqb Bool.eqb] in H)).

Ltac columns :=
  repeat (progress (rewrite ?df_get_set;
                    cbn [String.eqb Ascii.eqb Bool.eqb])).

Lemma SMA_set_parameters_inr a b self s1 :
  SMA.set_parameters (Some a) (Some b) self = (inr tt, s1) ->
  exists cs cl,
    rolling_mean a (df_get "Close" (SMA.data self)) = inr cs /\
    rolling_mean b (df_get "Close" (SMA.data self)) = inr cl /\
    s1 = {| SMA.symbol := SMA.symbol self; SMA.SMA_S := a; SMA.SMA_L := b;
            SMA.tc := SMA.tc self; SMA.results := SMA.results self;
            SMA.data := df_set "SMA_L" cl (df_set "SMA_S" cs (SMA.data self))
         |}.
Proof.
  intros H. unfold SMA.set_parameters in H. run_in H. projections.
  columns_in E0. injection H as <-. eauto.
Qed.

Lemma EMA_set_parameters_inr a b self s1 :
  EMA.set_parameters (Some a) (Some b) self = (inr tt, s1) ->
  exists cs cl,
    ewm_mean a a (df_get "Close" (EMA.data self)) = inr cs /\
    ewm_mean b b (df_get "Close" (EMA.data self)) = inr cl /\
    s1 = {| EMA.symbol := EMA.symbol self; EMA.EMA_S := a; EMA.EMA_L := b;
            EMA.tc := EMA.tc self; EMA.results := EMA.results self;
            EMA.data := df_set "EMA_L" cl (df_set "EMA_S" cs (EMA.data self))
         |}.
Proof.
  intros H. unfold EMA.set_parameters in H. run_in H. projections.
  columns_in E0. injection H as <-. eauto.
Qed.

Lemma MACD_set_parameters_inr a b c self s1 :
  MACD.set_parameters (Some a) (Some b) (Some c) self = (inr tt, s1) ->
  exists cs cl g1 g2 g3,
    ewm_mean a a (df_get "Close" (MACD.data self)) = inr cs /\
    ewm_mean b b (df_get "Close" (MACD.data self)) = inr cl /\
    ewm_mean (MACD.signal_mw self) (MACD.signal_mw self)
      (series_sub cs (df_get "EMA_L" (MACD.data self))) = inr g1 /\
    ewm_mean (MACD.signal_mw self) (MACD.signal_mw self)
      (series_sub cs cl) = inr g2 /\
    ewm_mean c c (series_sub cs cl) = inr g3 /\
    s1 = {| MACD.symbol := MACD.symbol self; MACD.EMA_S := a;
            MACD.EMA_L := b; MACD.signal_mw := c; MACD.tc := MACD.tc self;
            MACD.results := MACD.results self;
            MACD.data :=
              df_set "MACD_Signal" g3
                (df_set "MACD_Signal" g2
                   (df_set "MACD" (series_sub cs cl)
                      (df_set "EMA_L" cl
                         (df_set "MACD_Signal" g1
                            (df_set "MACD"
                               (series_sub cs
                                  (df_get "EMA_L" (MACD.data self)))
                               (df_set "EMA_S" cs (MACD.data self)))))))
         |}.
Proof.
  intros H. unfold MACD.set_parameters, MACD.refresh_MACD in H. run_in H.
  projections. columns_in E0. columns_in E1. columns_in E2. columns_in E3.
  columns_in H. injection H as <-.
  do 5 eexists. repeat split; eassumption.
Qed.

Lemma RSI_set_parameters_inr a b c self s1 :
  RSI.set_parameters (Some a) (Some b) (Some c) self = (inr tt, s1) ->
  exists u d,
    rolling_mean a (df_get "U" (RSI.data self)) = inr u /\
    rolling_mean a (df_get "D" (RSI.data self)) = inr d /\
    s1 = {| RSI.symbol := RSI.symbol self; RSI.periods := a;
            RSI.rsi_upper := b; RSI.rsi_lower := c; RSI.tc := RSI.tc self;
            RSI.results := RSI.results self;
            RSI.data :=
              df_set "RSI"
                (RSI.rsi_formula
                   (df_set "MA_D" d (df_set "MA_U" u (RSI.data self))))
                (df_set "MA_D" d (df_set "MA_U" u (RSI.data self))) |}.
Proof.
  intros H. unfold RSI.set_parameters in H. run_in H. projections.
  columns_in E0. injection H as <-. eauto.
Qed.

Lemma SO_set_parameters_inr a b self s1 :
  SO.set_parameters (Some a) (Some b) self = (inr tt, s1) ->
  exists lo hi d1 d2,
    rolling_min a (df_get "Low" (SO.data self)) = inr lo /\
    rolling_max a (df_get "High" (SO.data self)) = inr hi /\
    rolling_mean (SO.D_mw self)
      (SO.k_formula (df_set "roll_high" hi
                       (df_set "roll_low" lo (SO.data self)))) = inr d1 /\
    rolling_mean b
      (SO.k_formula (df_set "roll_high" hi
                       (df_set "roll_low" lo (SO.data self)))) = inr d2 /\
    s1 = {| SO.symbol := SO.symbol self; SO.periods := a; SO.D_mw := b;
            SO.tc := SO.tc self; SO.results := SO.results self;
            SO.data :=
              df_set "D" d2
                (df_set "D" d1
                   (df_set "K"
                      (SO.k_formula
                         (df_set "roll_high" hi
                            (df_set "roll_low" lo (SO.data self))))
                      (df_set "roll_high" hi
                         (df_set "roll_low" lo (SO.data self))))) |}.
Proof.
  intros H. unfold SO.set_parameters in H. run_in H. projections.
  columns_in E0. columns_in E1. columns_in E2. columns_in H.
  injection H as <-. do 4 eexists. repeat split; eassumption.
Qed.

Ltac invert_set_parameters H :=
  first
    [ apply SMA_set_parameters_inr in H; destruct H as (?cs & ?cl & ?E & ?E & ->)
    | apply EMA_set_parameters_inr in H; destruct H as (?cs & ?cl & ?E & ?E & ->)
    | apply MACD_set_parameters_inr in H;
      destruct H as (?cs & ?cl & ?g & ?g & ?g & ?E & ?E & ?E & ?E & ?E & ->)
    | apply RSI_set_parameters_inr in H; destruct H as (?u & ?d & ?E & ?E & ->)
    | apply SO_set_parameters_inr in H;
      destruct H as (?lo & ?hi & ?d & ?d & ?E & ?E & ?E & ?E & ->) ].

(** The arguments of a call that gives every value. *)
Lemma set_parameters_inr_class i zs i1 :
  (axes i <= length zs)%nat ->
  set_parameters (map Some zs) i = (inr tt, i1) ->
  parameters_of i1 = firstn (axes i) zs /\
  indicators_current i1 /\
  tc_of i1 = tc_of i /\ results_of i1 = results_of i.
Proof.
  intros Hlen H.
  destruct i as [self|self|self|self|self]; cbn [axes] in Hlen;
    destruct zs as [|a [|b zs]]; try (simpl in Hlen; lia);
    try (destruct zs as [|c zs]; [simpl in Hlen; lia|]);
    unfold set_parameters in H; cbn [map nth] in H;
    apply on_eq in H; destruct H as (s1 & H & ->);
    invert_set_parameters H; projections;
    (split; [reflexivity|]); (split; [|split; reflexivity]);
    unfold indicators_current; cbv zeta; projections;
    unfold RSI.rsi_formula, SO.k_formula in *; columns;
    repeat match goal with
      | H : context [df_get _ (df_set _ _ _)] |- _ => columns_in H
      end;
    auto.
Qed.

Lemma indicators_current_with_results r i :
  indicators_current (with_results r i) <-> indicators_current i.
Proof. destruct i; reflexivity. Qed.

Lemma item_nth k (x : point) p :
  item k x = inr p -> nth_error x k = Some p.
Proof. unfold item. destruct (nth_error x k); congruence. Qed.

Lemma nth_coerced k x p :
  nth_error x k = Some p -> nth k (coerced x) None = Some (py_int p).
Proof.
  intros H. unfold coerced.
  rewrite (nth_indep _ None (Some (py_int 0%Q))).
  - rewrite (map_nth (fun q => Some (py_int q))).
    now rewrite (nth_error_nth _ _ _ H).
  - rewrite length_map. apply nth_error_Some. congruence.
Qed.

(** [update_and_run] is [set_parameters] at the coordinates made integers,
    then [test_strategy], and returns the performance negated. *)
Lemma update_and_run_eq i x :
  (axes i <= length x)%nat ->
  update_and_run x i =
  (set_parameters (coerced x) ;;;
   r <- test_strategy ;;
   ret (cneg (fst (fst r)))) i.
Proof.
  intros Hlen.
  destruct i as [self|self|self|self|self]; cbn [axes] in Hlen;
    destruct x as [|p0 [|p1 x]]; try (simpl in Hlen; lia);
    try (destruct x as [|p2 x]; [simpl in Hlen; lia|]);
    unfold update_and_run, set_parameters, test_strategy, on,
      SMA.update_and_run, EMA.update_and_run, MACD.update_and_run,
      RSI.update_and_run, SO.update_and_run, bind, lift, ret, item, coerced;
    cbn [nth_error map nth];
    match goal with
    | |- context [SMA.set_parameters ?a ?b self] =>
        destruct (SMA.set_parameters a b self) as [[e|[]] s1]
    | |- context [EMA.set_parameters ?a ?b self] =>
        destruct (EMA.set_parameters a b self) as [[e|[]] s1]
    | |- context [MACD.set_parameters ?a ?b ?c self] =>
        destruct (MACD.set_parameters a b c self) as [[e|[]] s1]
    | |- context [RSI.set_parameters ?a ?b ?c self] =>
        destruct (RSI.set_parameters a b c self) as [[e|[]] s1]
    | |- context [SO.set_parameters ?a ?b self] =>
        destruct (SO.set_parameters a b self) as [[e|[]] s1]
    end; try reflexivity;
    match goal with
    | |- context [SMA.test_strategy ?s] =>
        destruct (SMA.test_strategy s) as [[e'|r] s2]
    | |- context [EMA.test_strategy ?s] =>
        destruct (EMA.test_strategy s) as [[e'|r] s2]
    | |- context [MACD.test_strategy ?s] =>
        destruct (MACD.test_strategy s) as [[e'|r] s2]
    | |- context [RSI.test_strategy ?s] =>
        destruct (RSI.test_strategy s) as [[e'|r] s2]
    | |- context [SO.test_strategy ?s] =>
        destruct (SO.test_strategy s) as [[e'|r] s2]
    end; reflexivity.
Qed.

Lemma update_and_run_short i x :
  (length x < axes i)%nat -> fst (update_and_run x i) = inl IndexError.
Proof.
  intros Hlen.
  destruct i as [self|self|self|self|self]; cbn [axes] in Hlen;
    destruct x as [|p0 [|p1 [|p2 x]]]; try (simpl in Hlen; lia);
    reflexivity.
Qed.

(** ** When a full [set_parameters] returns *)

Lemma rolling_inr agg w c col :
  rolling agg w c = inr col -> (0 <= w)%Z /\ col = rolled agg w c.
Proof.
  unfold rolling, rolled. destruct (Z.ltb_spec w 0) as [Hw|Hw];
    [discriminate|].
  intros Heq; injection Heq as <-. split; [assumption|reflexivity].
Qed.

Lemma rolling_inl agg w c e : rolling agg w c = inl e -> e = ValueError.
Proof.
  unfold rolling. destruct (w <? 0)%Z; [|discriminate]. congruence.
Qed.

Lemma ewm_mean_inr s m c col : ewm_mean s m c = inr col -> (1 <= s)%Z.
Proof.
  unfold ewm_mean. destruct (Z.ltb_spec s 1); [discriminate|]. auto.
Qed.

Lemma ewm_mean_inl s m c e : ewm_mean s m c = inl e -> e = ValueError.
Proof.
  unfold ewm_mean. destruct (s <? 1)%Z; [|discriminate]. congruence.
Qed.

Lemma ewm_mean_valid s c :
  (1 <= s)%Z -> exists col, ewm_mean s s c = inr col.
Proof.
  intros H. unfold ewm_mean. destruct (Z.ltb_spec s 1); [lia|]. eauto.
Qed.

Lemma length_ewm_scan alpha minp acc c :
  length (ewm_scan alpha minp acc c) = length c.
Proof.
  revert acc; induction c as [|x c IH]; intros acc; simpl;
    [reflexivity|now rewrite IH].
Qed.

Lemma length_ewm_mean s m c col :
  ewm_mean s m c = inr col -> length col = length c.
Proof.
  unfold ewm_mean. destruct (s <? 1)%Z; [discriminate|].
  intros H; injection H as <-. apply length_ewm_scan.
Qed.

Lemma length_rolling agg w c col :
  rolling agg w c = inr col -> length col = length c.
Proof.
  intros H. apply rolling_inr in H. destruct H as [_ ->].
  apply length_rolled.
Qed.

(** The only exception [set_parameters] raises is [ValueError]. *)
Ltac failed_in H :=
  unfold when_given in H; unfold bind, get, modify, lift, ret in H;
  repeat (cbv beta iota in H;
          match type of H with
          | context [match ?e with inl _ => _ | inr _ => _ end] =>
              let E := fresh "E" in destruct e eqn:E
          end);
  cbv beta iota in H.

Lemma set_parameters_raises args i e i1 :
  set_parameters args i = (inl e, i1) -> e = ValueError.
Proof.
  intros H.
  destruct i as [self|self|self|self|self]; unfold set_parameters in H;
    apply on_eq in H; destruct H as (s1 & H & _);
    unfold SMA.set_parameters, EMA.set_parameters, MACD.set_parameters,
      MACD.refresh_MACD, RSI.set_parameters, SO.set_parameters in H;
    destruct (nth 0 args None), (nth 1 args None);
    try destruct (nth 2 args None);
    failed_in H; try discriminate;
    injection H as <- _;
    repeat match goal with
      | E : rolling_mean _ _ = inl _ |- _ => apply rolling_inl in E
      | E : rolling_min _ _ = inl _ |- _ => apply rolling_inl in E
      | E : rolling_max _ _ = inl _ |- _ => apply rolling_inl in E
      | E : ewm_mean _ _ _ = inl _ |- _ => apply ewm_mean_inl in E
      end; assumption.
Qed.

Lemma set_parameters_inr_accepted i zs i1 :
  (axes i <= length zs)%nat ->
  set_parameters (map Some zs) i = (inr tt, i1) -> accepted i zs.
Proof.
  intros Hlen H.
  destruct i as [self|self|self|self|self]; cbn [axes] in Hlen;
    destruct zs as [|a [|b zs]]; try (simpl in Hlen; lia);
    try (destruct zs as [|c zs]; [simpl in Hlen; lia|]);
    unfold set_parameters in H; cbn [map nth] in H;
    apply on_eq in H; destruct H as (s1 & H & ->);
    invert_set_parameters H; cbn [accepted];
    repeat match goal with
      | E : rolling_mean _ _ = inr _ |- _ => apply rolling_inr in E
      | E : rolling_min _ _ = inr _ |- _ => apply rolling_inr in E
      | E : rolling_max _ _ = inr _ |- _ => apply rolling_inr in E
      | E : ewm_mean _ _ _ = inr _ |- _ => apply ewm_mean_inr in E
      end; intuition.
Qed.

Ltac forward :=
  unfold rolling_mean, rolling_min, rolling_max;
  repeat (cbv beta iota; projections;
          match goal with
          | |- context [ewm_mean ?s ?s ?c] =>
              let E := fresh "E" in
              let col := fresh "col" in
              destruct (ewm_mean_valid s c) as [col E];
              [solve [assumption | lia | intuition]|rewrite E]
          | |- context [rolling ?agg ?w ?c] =>
              rewrite (rolling_nonneg agg w c)
                by solve [assumption | lia | intuition]
          end);
  cbv beta iota.

Lemma set_parameters_accepted i zs :
  valid_parameters i -> accepted i zs ->
  exists i1, set_parameters (map Some zs) i = (inr tt, i1).
Proof.
  intros Hv Ha.
  destruct i as [self|self|self|self|self];
    destruct zs as [|a [|b zs]]; try contradiction;
    try (destruct zs as [|c zs]; [contradiction|]);
    cbn [accepted valid_parameters] in *;
    unfold set_parameters, on; cbn [map nth];
    unfold SMA.set_parameters, EMA.set_parameters, MACD.set_parameters,
      MACD.refresh_MACD, RSI.set_parameters, SO.set_parameters, when_given,
      bind, get, modify, lift, ret;
    forward; eexists; reflexivity.
Qed.

Lemma frames_agree_assign names n c d d0 :
  frames_agree names d d0 -> In n names -> In n (column_names d0) ->
  frames_agree names (df_set n c d) d0.
Proof.
  intros H Hin Hp. apply frames_agree_set_left; try assumption.
  destruct H as (_ & -> & _). exact Hp.
Qed.

Lemma wf_length i n :
  wf i = true -> In n (base_columns ++ indicator_columns i) ->
  length (df_get n (data_of i)) = nrows (data_of i).
Proof.
  intros Hwf Hn. apply length_df_get;
    [now apply wf_rectangular|now apply wf_has].
Qed.

Ltac column_length Hbase :=
  repeat first
    [ match goal with
      | E : rolling_mean _ _ = inr ?col |- context [length ?col] =>
          rewrite (length_rolling _ _ _ _ E)
      | E : rolling_min _ _ = inr ?col |- context [length ?col] =>
          rewrite (length_rolling _ _ _ _ E)
      | E : rolling_max _ _ = inr ?col |- context [length ?col] =>
          rewrite (length_rolling _ _ _ _ E)
      | E : ewm_mean _ _ _ = inr ?col |- context [length ?col] =>
          rewrite (length_ewm_mean _ _ _ _ E)
      end
    | progress unfold series_sub, series_add, series_div, series_scale,
        RSI.rsi_formula, SO.k_formula
    | rewrite length_map
    | rewrite length_zip_with
    | progress columns
    | rewrite Hbase by (simpl; tauto) ];
  rewrite ?Nat.min_id; try reflexivity.

(** A full [set_parameters] that returns leaves a good instance of the
    same class, with the same cost and the same columns but for those it
    recomputes. *)
Lemma set_parameters_good i zs i1 :
  good i -> (axes i <= length zs)%nat ->
  set_parameters (map Some zs) i = (inr tt, i1) -> same_inputs i i1.
Proof.
  intros [Hwf Hv] Hlen H.
  assert (Hbase := fun n => wf_length i n Hwf).
  assert (Hhas := fun n => wf_has i n Hwf).
  destruct i as [self|self|self|self|self]; cbn [axes] in Hlen;
    destruct zs as [|a [|b zs]]; try (simpl in Hlen; lia);
    try (destruct zs as [|c zs]; [simpl in Hlen; lia|]);
    unfold set_parameters in H; cbn [map nth] in H;
    apply on_eq in H; destruct H as (s1 & H & ->);
    invert_set_parameters H;
    unfold same_inputs, good, wf in *; projections;
    cbn [indicator_columns valid_parameters recomputed] in *;
    (split; [split|split; [reflexivity|]]).
  all: try (repeat (apply wf_frame_set; [|rewrite ?nrows_set;
                                          column_length Hbase]);
            exact Hwf).
  all: try exact I.
  all: try (repeat (apply frames_agree_assign;
                    [|simpl; tauto|apply Hhas; simpl; tauto]);
            apply frames_agree_refl).
  all: projections.
  - eapply ewm_mean_inr; eassumption.
  - match goal with
    | E : rolling_mean b _ = inr _ |- _ => apply rolling_inr in E; tauto
    end.
Qed.

Lemma frames_agree_sym names d d0 :
  frames_agree names d d0 -> frames_agree names d0 d.
Proof.
  intros (Hi & Hn & Hc). repeat split; try congruence.
  intros n H. symmetry. now apply Hc.
Qed.

Lemma same_inputs_class i0 i : same_inputs i0 i -> recomputed i = recomputed i0.
Proof. intros (_ & H & _). destruct i0, i; try contradiction; reflexivity. Qed.

Ltac same_columns Hag :=
  repeat match goal with
    | E : context [df_get ?n _] |- _ =>
        rewrite (Hag n) in E by (simpl; intuition discriminate)
    end;
  repeat match goal with
    | E : ?f = inr ?x, E' : ?f = inr ?y |- _ =>
        rewrite E in E'; injection E' as <-
    end.

(** Two instances with the same inputs give the same backtest after the
    same full [set_parameters]. *)
Lemma set_parameters_same i0 i zs i1 i1' :
  good i0 -> same_inputs i0 i -> (axes i <= length zs)%nat ->
  set_parameters (map Some zs) i = (inr tt, i1) ->
  set_parameters (map Some zs) i0 = (inr tt, i1') ->
  backtest_frame i1 = backtest_frame i1'.
Proof.
  intros Hg0 Hsame Hlen H H'.
  assert (Hlen0 : (axes i0 <= length zs)%nat).
  { destruct Hsame as (_ & Hc & _).
    destruct i0, i; try contradiction; exact Hlen. }
  assert (Hrec := same_inputs_class _ _ Hsame).
  destruct Hsame as (Hg & Hclass & Hag).
  assert (G := set_parameters_good _ _ _ Hg Hlen H).
  assert (G0 := set_parameters_good _ _ _ Hg0 Hlen0 H').
  destruct G as ((Hwf1 & _) & _ & Hag1).
  destruct G0 as (_ & _ & Hag1').
  rewrite Hrec in Hag1.
  assert (Hall : frames_agree (recomputed i0) (data_of i1) (data_of i1')).
  { eapply frames_agree_trans; [exact Hag1|].
    eapply frames_agree_trans; [exact Hag|].
    apply frames_agree_sym, Hag1'. }
  assert (Hnd : NoDup (column_names (data_of i1))).
  { apply wf_frame_spec in Hwf1. tauto. }
  assert (Hdata : (forall n, In n (recomputed i0) ->
                     df_get n (data_of i1) = df_get n (data_of i1')) ->
                  data_of i1 = data_of i1').
  { intros Hcols. eapply frames_agree_eq; eassumption. }
  clear Hall Hnd Hag1 Hag1' Hwf1 Hrec Hg Hg0.
  destruct Hag as (_ & _ & Hag).
  destruct i0 as [self0|self0|self0|self0|self0],
           i as [self|self|self|self|self]; try contradiction;
    cbn [axes] in Hlen;
    destruct zs as [|a [|b zs]]; try (simpl in Hlen; lia);
    try (destruct zs as [|c zs]; [simpl in Hlen; lia|]);
    unfold set_parameters in H, H'; cbn [map nth] in H, H';
    apply on_eq in H; destruct H as (s1 & H & ->);
    apply on_eq in H'; destruct H' as (s1' & H' & ->);
    invert_set_parameters H; invert_set_parameters H';
    projections; cbn [recomputed] in *;
    unfold SO.k_formula in *;
    repeat match goal with
      | E : context [df_get _ (df_set _ _ _)] |- _ =>
          match type of E with _ = inr _ => columns_in E end
      end;
    same_columns Hag;
    unfold backtest_frame, with_position, positions; projections;
    rewrite ?Hclass; rewrite Hdata;
    try reflexivity;
    intros n Hn; cbn [In] in Hn;
    repeat (destruct Hn as [<-|Hn]; [unfold RSI.rsi_formula; columns;
                                      rewrite ?(Hag "Close")
                                        by (simpl; intuition discriminate);
                                      reflexivity|]);
    destruct Hn.
Qed.

(** ** The objective does not depend on where the search stands *)

Lemma coerced_map x : coerced x = map Some (map py_int x).
Proof. unfold coerced. now rewrite map_map. Qed.

Lemma same_inputs_axes i0 i : same_inputs i0 i -> axes i = axes i0.
Proof. intros (_ & H & _). destruct i0, i; try contradiction; reflexivity. Qed.

Lemma same_inputs_accepted i0 i zs :
  same_inputs i0 i -> (accepted i zs <-> accepted i0 zs).
Proof. intros (_ & H & _). destruct i0, i; try contradiction; reflexivity. Qed.

Lemma same_inputs_refl i : good i -> same_inputs i i.
Proof.
  intros H. split; [exact H|]. split; [now destruct i|].
  apply frames_agree_refl.
Qed.

Lemma same_inputs_trans i0 i i1 :
  same_inputs i0 i -> same_inputs i i1 -> same_inputs i0 i1.
Proof.
  intros H01 H12. assert (Hrec := same_inputs_class _ _ H01).
  destruct H01 as (_ & Hc & Ha), H12 as (Hg & Hc' & Ha').
  split; [exact Hg|]. split.
  - destruct i0, i, i1; try contradiction; congruence.
  - rewrite Hrec in Ha'. eapply frames_agree_trans; eassumption.
Qed.

Lemma same_inputs_with_results i0 i r :
  same_inputs i0 i -> same_inputs i0 (with_results r i).
Proof.
  intros ((Hwf & Hv) & Hc & Ha). split; [split|split].
  - now rewrite wf_with_results.
  - now destruct i.
  - destruct i0, i; try contradiction; exact Hc.
  - now rewrite with_results_data.
Qed.

Lemma update_performance i x :
  (axes i <= length x)%nat ->
  fst (update_and_run x i) =
  match performance i x with
  | inl e => inl e
  | inr p => inr (cneg p)
  end.
Proof.
  intros Hlen. rewrite update_and_run_eq by exact Hlen.
  unfold performance, bind, ret.
  destruct (set_parameters (coerced x) i) as [[e|[]] i1]; [reflexivity|].
  destruct (test_strategy i1) as [[e|r] i2]; reflexivity.
Qed.

Lemma performance_same i0 i x :
  good i0 -> same_inputs i0 i -> (axes i <= length x)%nat ->
  performance i x = performance i0 x.
Proof.
  intros Hg0 Hsame Hlen. unfold performance. rewrite coerced_map.
  assert (Hlen' : (axes i <= length (map py_int x))%nat)
    by now rewrite length_map.
  destruct (set_parameters (map Some (map py_int x)) i) as [[e|[]] i1] eqn:E;
    destruct (set_parameters (map Some (map py_int x)) i0)
      as [[e'|[]] i1'] eqn:E'.
  - apply set_parameters_raises in E, E'. congruence.
  - exfalso.
    assert (Ha : accepted i0 (map py_int x)).
    { apply (set_parameters_inr_accepted i0 _ i1'); [|exact E'].
      rewrite <- (same_inputs_axes _ _ Hsame). exact Hlen'. }
    apply (same_inputs_accepted _ _ _ Hsame) in Ha.
    destruct Hsame as ((_ & Hv) & _).
    destruct (set_parameters_accepted i _ Hv Ha) as [i2 E2]. congruence.
  - exfalso.
    assert (Ha := set_parameters_inr_accepted i _ _ Hlen' E).
    apply (same_inputs_accepted _ _ _ Hsame) in Ha.
    destruct Hg0 as (_ & Hv).
    destruct (set_parameters_accepted i0 _ Hv Ha) as [i2 E2]. congruence.
  - rewrite !test_strategy_eq. cbn [fst].
    now rewrite (set_parameters_same i0 i _ i1 i1' Hg0 Hsame Hlen' E E').
Qed.

Lemma update_value_same i0 i x :
  good i0 -> same_inputs i0 i ->
  fst (update_and_run x i) = fst (update_and_run x i0).
Proof.
  intros Hg0 Hsame. assert (Hax := same_inputs_axes _ _ Hsame).
  destruct (Nat.le_gt_cases (axes i) (length x)) as [Hlen|Hlen].
  - rewrite !update_performance by lia.
    now rewrite (performance_same i0 i x Hg0 Hsame Hlen).
  - rewrite !update_and_run_short by lia. reflexivity.
Qed.

Lemma update_step_same i0 i x v i1 :
  same_inputs i0 i -> update_and_run x i = (inr v, i1) ->
  same_inputs i0 i1.
Proof.
  intros Hsame H.
  destruct (Nat.le_gt_cases (axes i) (length x)) as [Hlen|Hlen].
  2:{ apply (f_equal fst) in H. rewrite update_and_run_short in H by exact Hlen.
      discriminate. }
  rewrite update_and_run_eq in H by exact Hlen.
  apply bind_inr in H. destruct H as ([] & i2 & Hset & H).
  apply bind_inr in H. destruct H as (r & i3 & Hrun & H).
  apply ret_inr in H. destruct H as [-> ->].
  rewrite test_strategy_eq in Hrun. injection Hrun as _ <-.
  apply same_inputs_with_results.
  apply (same_inputs_trans _ _ _ Hsame).
  rewrite coerced_map in Hset.
  apply (set_parameters_good i (map py_int x) _ (proj1 Hsame));
    [now rewrite length_map|exact Hset].
Qed.

(** The value of the objective at a point: the performance negated,
    which is a number. *)
Lemma update_value_number i x v :
  good i -> fst (update_and_run x i) = inr v ->
  exists p, v = Some (- p) /\ performance i x = inr (Some p).
Proof.
  intros Hg H.
  destruct (Nat.le_gt_cases (axes i) (length x)) as [Hlen|Hlen].
  2:{ rewrite update_and_run_short in H by exact Hlen. discriminate. }
  rewrite update_performance in H by exact Hlen.
  unfold performance in *. rewrite coerced_map in *.
  destruct (set_parameters (map Some (map py_int x)) i) as [[e|[]] i1] eqn:E;
    [discriminate|].
  assert (G : same_inputs i i1).
  { apply (set_parameters_good i (map py_int x) _ Hg);
      [now rewrite length_map|exact E]. }
  destruct G as ((Hwf1 & _) & _).
  rewrite test_strategy_eq in *. cbn [fst] in *. unfold finish in *.
  rewrite result_cstrategy in * by exact Hwf1.
  destruct (iloc_last_full (series_exp (cumsum (net_strategy i1))))
    as [p Hp].
  - unfold series_exp. apply full_map_lift, full_cumsum_from.
    apply full_net_strategy.
  - destruct (series_exp (cumsum (net_strategy i1))); [discriminate|].
    simpl; lia.
  - rewrite Hp in *.
    destruct (iloc_last (df_get "creturns" (backtest_frame i1)));
      [discriminate|].
    cbn [fst] in *. injection H as <-. exists p. auto.
Qed.

(** ** [optimize_parameters] on an instance *)

Section Lifting.

Variable St : Type.
Variable inj : St -> instance.
Variable f : point -> M St cell.
Hypothesis update_on : forall x s, update_and_run x (inj s) = on inj (f x) s.

Lemma eval_points_on grid s :
  eval_points update_and_run grid (inj s) = on inj (eval_points f grid) s.
Proof.
  revert s; induction grid as [|x grid IH]; intros s; cbn [eval_points].
  - reflexivity.
  - unfold bind, ret. rewrite update_on. unfold on.
    destruct (f x s) as [[e|v] s1]; [reflexivity|].
    rewrite IH. unfold on.
    destruct (eval_points f grid s1) as [[e|vs] s2]; reflexivity.
Qed.

Lemma optimize_on ranges s :
  on inj (opt <- brute f ranges ;;
          v <- f opt ;;
          ret (opt, cneg v)) s =
  (opt <- brute update_and_run ranges ;;
   v <- update_and_run opt ;;
   ret (opt, cneg v)) (inj s).
Proof.
  unfold brute, bind, lift, ret, on.
  destruct (mgrid ranges) as [e|grid]; [reflexivity|].
  rewrite eval_points_on. unfold on.
  destruct (eval_points f grid s) as [[e|Jout] s1]; [reflexivity|].
  destruct (argmin Jout) as [e|k]; [reflexivity|].
  rewrite update_on. unfold on.
  destruct (f (nth k grid []) s1) as [[e|v] s2]; reflexivity.
Qed.

End Lifting.

Lemma optimize_parameters_eq ranges i :
  optimize_parameters ranges i =
  (opt <- brute update_and_run (ranges_of i ranges) ;;
   v <- update_and_run opt ;;
   ret (opt, cneg v)) i.
Proof.
  destruct i as [self|self|self|self|self]; unfold optimize_parameters,
    ranges_of; cbn [axes seq map].
  - apply (optimize_on _ SMA_of SMA.update_and_run). reflexivity.
  - apply (optimize_on _ EMA_of EMA.update_and_run). reflexivity.
  - apply (optimize_on _ MACD_of MACD.update_and_run). reflexivity.
  - apply (optimize_on _ RSI_of RSI.update_and_run). reflexivity.
  - apply (optimize_on _ SO_of SO.update_and_run). reflexivity.
Qed.

Lemma cneg_involutive x : cneg (cneg x) = x.
Proof. destruct x; simpl; [now rewrite Ropp_involutive|reflexivity]. Qed.

Lemma update_and_run_axes x i : axes (snd (update_and_run x i)) = axes i.
Proof.
  destruct i as [self|self|self|self|self]; unfold update_and_run, on;
    match goal with
    | |- context [let (_, _) := ?m in _] => destruct m
    end; reflexivity.
Qed.

Lemma eval_points_axes grid :
  forall i, axes (snd (eval_points update_and_run grid i)) = axes i.
Proof.
  induction grid as [|x grid IH]; intros i; cbn [eval_points];
    [reflexivity|].
  unfold bind, ret. assert (H := update_and_run_axes x i).
  destruct (update_and_run x i) as [[e|v] i1]; [exact H|].
  specialize (IH i1).
  destruct (eval_points update_and_run grid i1) as [[e|vs] i2];
    simpl in *; congruence.
Qed.

Lemma brute_axes ranges i :
  axes (snd (brute update_and_run ranges i)) = axes i.
Proof.
  unfold brute, bind, lift, ret.
  destruct (mgrid ranges) as [e|grid]; [reflexivity|].
  assert (H := eval_points_axes grid i).
  destruct (eval_points update_and_run grid i) as [[e|Jout] i1];
    [exact H|].
  destruct (argmin Jout); exact H.
Qed.

(** What [update_and_run] leaves when it returns. *)
Lemma update_and_run_inr i x v i' :
  update_and_run x i = (inr v, i') ->
  exists i1 perf outperf res,
    set_parameters (coerced x) i = (inr tt, i1) /\
    test_strategy i1 = (inr (perf, outperf, res), i') /\
    v = cneg perf /\
    results_of i' = Some res /\
    parameters_of i' = map py_int (firstn (axes i) x) /\
    indicators_current i'.
Proof.
  intros H.
  destruct (Nat.le_gt_cases (axes i) (length x)) as [Hlen|Hlen].
  2:{ apply (f_equal fst) in H.
      rewrite update_and_run_short in H by exact Hlen. discriminate. }
  rewrite update_and_run_eq in H by exact Hlen.
  apply bind_inr in H. destruct H as ([] & i1 & Hset & H).
  apply bind_inr in H. destruct H as ([[perf outperf] res] & i2 & Hrun & H).
  apply ret_inr in H. destruct H as [-> ->].
  exists i1, perf, outperf, res.
  split; [exact Hset|]. split; [exact Hrun|]. split; [reflexivity|].
  apply test_strategy_inr in Hrun. destruct Hrun as (_ & -> & _).
  rewrite coerced_map in Hset.
  destruct (set_parameters_inr_class i (map py_int x) i1) as (Hp & Hc & _);
    [now rewrite length_map|exact Hset|].
  rewrite with_results_results, with_results_parameters,
    indicators_current_with_results, Hp, firstn_map. auto.
Qed.

(** C9.  When [optimize_parameters] returns [(opt, v)], the instance is the
    one left by a last call of [set_parameters] at the coordinates of [opt]
    made integers followed by a last [test_strategy]: its parameters are
    those integers, its indicator columns are the ones computed from the
    price columns with these parameters, its stored result is the result of
    that backtest, and [v] is the absolute performance that backtest
    returned. *)
Theorem optimize_leaves_optimum (i : instance) ranges opt v i' :
  optimize_parameters ranges i = (inr (opt, v), i') ->
  exists searched i1 perf outperf res,
    set_parameters (coerced opt) searched = (inr tt, i1) /\
    test_strategy i1 = (inr (perf, outperf, res), i') /\
    v = perf /\
    results_of i' = Some res /\
    parameters_of i' = map py_int (firstn (axes i) opt) /\
    indicators_current i'.
Proof.
  intros H. rewrite optimize_parameters_eq in H.
  apply bind_inr in H. destruct H as (x & searched & Hb & H).
  apply bind_inr in H. destruct H as (v0 & i2 & Hrun & H).
  apply ret_inr in H. destruct H as [H ->]. injection H as -> ->.
  destruct (update_and_run_inr _ _ _ _ Hrun)
    as (i1 & perf & outperf & res & H1 & H2 & -> & H3 & H4 & H5).
  exists searched, i1, perf, outperf, res.
  rewrite cneg_involutive.
  assert (Hax := brute_axes (ranges_of i ranges) i). rewrite Hb in Hax.
  cbn [snd] in Hax. rewrite Hax in H4. auto 10.
Qed.

Lemma Forall2_nth_error {A B} (P : A -> B -> Prop) l l' :
  Forall2 P l l' ->
  length l = length l' /\
  forall j x, nth_error l j = Some x ->
              exists y, nth_error l' j = Some y /\ P x y.
Proof.
  induction 1 as [|x y l l' Hxy _ [IHl IH]]; [split; [reflexivity|]|split].
  - intros [|j] x H; discriminate.
  - simpl. now rewrite IHl.
  - intros [|j] z Hz; simpl in *.
    + injection Hz as <-. eauto.
    + now apply IH.
Qed.

Lemma nth_error_nth_cell (J : list cell) j y :
  nth_error J j = Some y -> nth j J None = y.
Proof. intros H. now apply nth_error_nth. Qed.

(** C4.  On an instance as [__init__] leaves it, when [optimize_parameters]
    returns [(opt, v)]: [opt] is a point of the grid [np.mgrid] builds from
    the ranges, the objective has been evaluated at every point of the grid
    with the coordinates made integers by truncation ([performance]), no
    point has a greater absolute performance than [opt], every point before
    [opt] in the row-major order has a smaller one, and [v] is the absolute
    performance at [opt]. *)
Theorem optimize_returns_first_maximum (i : instance) ranges opt v i' :
  good i ->
  optimize_parameters ranges i = (inr (opt, v), i') ->
  exists grid k best,
    mgrid (ranges_of i ranges) = inr grid /\
    nth_error grid k = Some opt /\
    v = Some best /\
    performance i opt = inr (Some best) /\
    forall j x, nth_error grid j = Some x ->
      exists p, performance i x = inr (Some p) /\ p <= best /\
                ((j < k)%nat -> p < best).
Proof.
  intros Hg H. rewrite optimize_parameters_eq in H.
  apply bind_inr in H. destruct H as (x & searched & Hb & H).
  apply bind_inr in H. destruct H as (v0 & i2 & Hrun & H).
  apply ret_inr in H. destruct H as [H ->]. injection H as -> ->.
  destruct (brute_inr instance update_and_run
              (fun i0 s => good i0 /\ same_inputs i0 s)
              (fun s0 s x0 Hs => update_value_same s0 s x0 (proj1 Hs)
                                   (proj2 Hs))
              (fun s0 s x0 v1 s1 Hs Hf =>
                 conj (proj1 Hs) (update_step_same s0 s x0 v1 s1 (proj2 Hs) Hf))
              _ _ _ _ (conj Hg (same_inputs_refl i Hg)) Hb)
    as (grid & Jout & k & Hgrid & HF & Hk & -> & [_ Hsearched]).
  destruct (Forall2_nth_error _ _ _ HF) as [Hlen Hnth].
  assert (HJ : full Jout).
  { unfold full. apply Forall_forall. intros y Hy.
    destruct (In_nth_error _ _ Hy) as [j Hj].
    assert (Hjl : (j < length grid)%nat).
    { rewrite Hlen. apply nth_error_Some. congruence. }
    destruct (nth_error grid j) as [xj|] eqn:Ex;
      [|apply nth_error_None in Ex; lia].
    destruct (Hnth j xj Ex) as (y' & Hy' & Hv).
    rewrite Hj in Hy'. injection Hy' as <-.
    destruct (update_value_number i xj y Hg Hv) as (p & -> & _).
    reflexivity. }
  destruct (argmin_spec Jout k HJ Hk) as (Hkl & m & Hm & Hmin & Hfirst).
  assert (Hopt : nth_error grid k = Some (nth k grid [])).
  { apply nth_error_nth'. now rewrite Hlen. }
  destruct (Hnth _ _ Hopt) as (y & Hy & Hvy).
  apply nth_error_nth_cell in Hy. unfold column, cell in *.
  rewrite Hm in Hy. subst y.
  destruct (update_value_number i _ _ Hg Hvy) as (best & Em & Hperf).
  injection Em as ->.
  exists grid, k, best. split; [exact Hgrid|]. split; [exact Hopt|].
  split.
  { assert (E := update_value_same i searched (nth k grid []) Hg Hsearched).
    unfold column, cell in *. rewrite Hrun in E. cbn [fst] in E.
    assert (E' : @inr exn (option R) v0 = inr (Some (- best)))
      by (etransitivity; [exact E|exact Hvy]).
    injection E' as ->.
    simpl. now rewrite Ropp_involutive. }
  split; [exact Hperf|].
  intros j xj Hj. destruct (Hnth j xj Hj) as (y & Hy & Hv).
  destruct (update_value_number i xj y Hg Hv) as (p & -> & Hp).
  apply nth_error_nth_cell in Hy.
  exists p. split; [exact Hp|]. split.
  - specialize (Hmin j (- p) Hy). lra.
  - intros Hjk. specialize (Hfirst j (- p) Hjk Hy). lra.
Qed.

(** ** A search on concrete candles *)

Lemma bind_step {St A B} (m : M St A) (k : A -> M St B) s a s1 r :
  m s = (inr a, s1) -> k a s1 = r -> bind m k s = r.
Proof. intros H1 H2. unfold bind. now rewrite H1. Qed.

(** One call of the objective, run in its three stages. *)
Ltac update_step :=
  rewrite update_and_run_eq by (simpl; lia);
  eapply bind_step; [eval_py; reflexivity|];
  eapply bind_step; [eval_py; reflexivity|];
  eval_py; reflexivity.

Lemma ln_100_101 : ln (100 / 101) < 0.
Proof. rewrite <- ln_1. apply ln_increasing; lra. Qed.

Lemma exp_opp_ln x : 0 < x -> exp (- ln x) = / x.
Proof. intros Hx. now rewrite exp_Ropp, exp_ln. Qed.

(** The windows 1 and 2 lose to the windows 1 and 3 on [zigzag]; the search
    returns the second point of its grid and the performance [100 / 101],
    and leaves [sma_zigzag_best]. *)
Lemma sma_zigzag_search :
  optimize_parameters zigzag_ranges (SMA_of sma_zigzag) =
  (inr ([1; 3]%Q, Some (100 / 101)), SMA_of sma_zigzag_best).
Proof.
  rewrite optimize_parameters_eq.
  eapply bind_step.
  { unfold brute. eapply bind_step; [run; reflexivity|].
    cbn [eval_points].
    eapply bind_step.
    { eapply bind_step; [update_step|].
      eapply bind_step; [|run; reflexivity].
      eapply bind_step; [update_step|].
      eapply bind_step; [|run; reflexivity].
      run; reflexivity. }
    eapply bind_step; [|run; reflexivity].
    run. rewrite Rltb_true; [reflexivity|].
    apply Ropp_lt_contravar, exp_increasing.
    pose proof ln_100_101. lra. }
  eapply bind_step; [update_step|].
  run.
  replace (0 + -1 * ln (101 / 100)) with (- ln (101 / 100)) by lra.
  replace (0 + ln (101 / 100)) with (ln (101 / 100)) by lra.
  rewrite exp_opp_ln, exp_ln, Ropp_involutive by lra.
  same_cells. f_equal. same_cells.
Qed.

(** ** The two theorems on the search, on [zigzag] *)

Lemma optimize_leaves_optimum_witness :
  optimize_parameters zigzag_ranges (SMA_of sma_zigzag) =
  (inr ([1; 3]%Q, Some (100 / 101)), SMA_of sma_zigzag_best) /\
  exists searched i1 perf outperf res,
    set_parameters (coerced [1; 3]%Q) searched = (inr tt, i1) /\
    test_strategy i1 = (inr (perf, outperf, res), SMA_of sma_zigzag_best) /\
    Some (100 / 101) = perf /\
    results_of (SMA_of sma_zigzag_best) = Some res /\
    parameters_of (SMA_of sma_zigzag_best) =
    map py_int (firstn (axes (SMA_of sma_zigzag)) [1; 3]%Q) /\
    indicators_current (SMA_of sma_zigzag_best).
Proof.
  split; [exact sma_zigzag_search|].
  exact (optimize_leaves_optimum (SMA_of sma_zigzag) zigzag_ranges
           [1; 3]%Q (Some (100 / 101)) (SMA_of sma_zigzag_best)
           sma_zigzag_search).
Defined.

Lemma optimize_returns_first_maximum_witness :
  good (SMA_of sma_zigzag) /\
  optimize_parameters zigzag_ranges (SMA_of sma_zigzag) =
  (inr ([1; 3]%Q, Some (100 / 101)), SMA_of sma_zigzag_best) /\
  exists grid k best,
    mgrid (ranges_of (SMA_of sma_zigzag) zigzag_ranges) = inr grid /\
    nth_error grid k = Some [1; 3]%Q /\
    Some (100 / 101) = Some best /\
    performance (SMA_of sma_zigzag) [1; 3]%Q = inr (Some best) /\
    forall j x, nth_error grid j = Some x ->
      exists p, performance (SMA_of sma_zigzag) x = inr (Some p) /\
                p <= best /\ ((j < k)%nat -> p < best).
Proof.
  assert (Hg : good (SMA_of sma_zigzag)) by (split; [reflexivity|exact I]).
  split; [exact Hg|]. split; [exact sma_zigzag_search|].
  exact (optimize_returns_first_maximum (SMA_of sma_zigzag) zigzag_ranges
           [1; 3]%Q (Some (100 / 101)) (SMA_of sma_zigzag_best) Hg
           sma_zigzag_search).
Defined.

(** ** The constructors *)

Lemma ewm_mean_ge1 s c : (1 <= s)%Z -> ewm_mean s s c = inr (ewmed s c).
Proof.
  intros H. unfold ewm_mean, ewmed.
  destruct (Z.ltb_spec s 1); [lia|reflexivity].
Qed.

Lemma rolling_negative agg w c : (w < 0)%Z -> rolling agg w c = inl ValueError.
Proof.
  intros H. unfold rolling. destruct (Z.ltb_spec w 0); [reflexivity|lia].
Qed.

Lemma ewm_mean_lt1 s m c : (s < 1)%Z -> ewm_mean s m c = inl ValueError.
Proof.
  intros H. unfold ewm_mean. destruct (Z.ltb_spec s 1); [reflexivity|lia].
Qed.

Ltac constructor_body :=
  unfold construct, fresh, frame_of, SMA.init, EMA.init, MACD.init, RSI.init,
    SO.init, SMA.get_data, EMA.get_data, MACD.get_data, RSI.get_data,
    SO.get_data, bind, get, lift, modify, rolling_mean, rolling_min,
    rolling_max;
  projections.

Lemma construct_acceptable f symbol (p : params f) tc candles :
  acceptable f p ->
  construct f symbol p tc candles =
  inr (fresh f symbol p tc (frame_of f p candles)).
Proof.
  destruct f; cbn [acceptable params] in *; intros H; constructor_body;
    rewrite ?rolling_nonneg, ?ewm_mean_ge1 by intuition; reflexivity.
Qed.

Lemma construct_rejected f symbol (p : params f) tc candles :
  ~ acceptable f p -> construct f symbol p tc candles = inl ValueError.
Proof.
  destruct f; cbn [acceptable params] in *; intros H; constructor_body.
  - destruct (Z.ltb_spec (fst p) 0) as [H1|H1];
      [now rewrite rolling_negative|rewrite rolling_nonneg by exact H1].
    cbv beta iota. rewrite rolling_negative by lia. reflexivity.
  - destruct (Z.ltb_spec (fst p) 1) as [H1|H1];
      [now rewrite ewm_mean_lt1|rewrite ewm_mean_ge1 by exact H1].
    cbv beta iota. rewrite ewm_mean_lt1 by lia. reflexivity.
  - destruct (Z.ltb_spec (fst (fst p)) 1) as [H1|H1];
      [now rewrite ewm_mean_lt1|rewrite ewm_mean_ge1 by exact H1].
    cbv beta iota.
    destruct (Z.ltb_spec (snd (fst p)) 1) as [H2|H2];
      [now rewrite ewm_mean_lt1|rewrite ewm_mean_ge1 by exact H2].
    cbv beta iota. rewrite ewm_mean_lt1 by lia. reflexivity.
  - rewrite rolling_negative by lia. reflexivity.
  - destruct (Z.ltb_spec (fst p) 0) as [H1|H1];
      [now rewrite rolling_negative|rewrite !rolling_nonneg by exact H1].
    cbv beta iota. rewrite rolling_negative by lia. reflexivity.
Qed.

Lemma acceptable_dec f (p : params f) : acceptable f p \/ ~ acceptable f p.
Proof. destruct f; cbn [acceptable params] in *; lia. Qed.

Lemma construct_inr f symbol (p : params f) tc candles i :
  construct f symbol p tc candles = inr i ->
  acceptable f p /\ i = fresh f symbol p tc (frame_of f p candles).
Proof.
  intros H. destruct (acceptable_dec f p) as [Ha|Ha].
  - rewrite construct_acceptable in H by exact Ha.
    injection H as <-. auto.
  - rewrite construct_rejected in H by exact Ha. discriminate.
Qed.

(** X4.  A constructor returns exactly when the window operations accept
    its parameters (no rolling window negative, no span below 1), and
    raises [ValueError] otherwise; the thresholds of [RSIBacktester] are
    not checked.  The instance it returns has the parameters and the cost
    as given and no stored result, and its frame has one row per candle. *)
Theorem constructor_checks_windows f symbol (p : params f) tc candles :
  (acceptable f p ->
   exists i,
     construct f symbol p tc candles = inr i /\
     family_of i = f /\ parameters_of i = values f p /\ tc_of i = tc /\
     results_of i = None /\ df_index (data_of i) = map c_time candles) /\
  (~ acceptable f p -> construct f symbol p tc candles = inl ValueError).
Proof.
  split; [|apply construct_rejected].
  intros Ha. eexists. split; [apply construct_acceptable, Ha|].
  destruct f; cbn [fresh family_of parameters_of values tc_of results_of
                   data_of frame_of]; projections; repeat split.
Qed.

Lemma fresh_good f symbol (p : params f) tc candles :
  acceptable f p -> good (fresh f symbol p tc (frame_of f p candles)).
Proof.
  intros Ha. destruct f; cbn [acceptable params fresh frame_of] in *; split;
    cbn [valid_parameters]; projections; try solve [exact I | intuition].
  - apply sma_frame_wf.
  - apply ema_frame_wf.
  - apply macd_frame_wf.
  - apply rsi_frame_wf.
  - apply so_frame_wf.
Qed.

Lemma fresh_current f symbol (p : params f) tc candles :
  acceptable f p ->
  indicators_current (fresh f symbol p tc (frame_of f p candles)).
Proof.
  intros Ha. destruct f;
    cbn [acceptable params fresh frame_of indicators_current] in *;
    projections;
    unfold sma_frame, ema_frame, macd_frame, rsi_frame, so_frame,
      rolling_mean, rolling_min, rolling_max;
    cbv zeta; columns;
    rewrite ?rolling_nonneg, ?ewm_mean_ge1 by intuition;
    unfold RSI.rsi_formula, SO.k_formula, rolled; columns;
    cbn [df_get df_cols candle_frame assoc_get String.eqb Ascii.eqb Bool.eqb];
    rewrite ?length_map; repeat split; reflexivity.
Qed.

Lemma fresh_prices f symbol (p : params f) tc candles :
  let d := data_of (fresh f symbol p tc (frame_of f p candles)) in
  df_index d = map c_time candles /\
  df_get "Open" d = map (fun k => Some (c_open k)) candles /\
  df_get "High" d = map (fun k => Some (c_high k)) candles /\
  df_get "Low" d = map (fun k => Some (c_low k)) candles /\
  df_get "Close" d = map (fun k => Some (c_close k)) candles /\
  df_get "Volume" d = map (fun k => Some (IZR (c_volume k))) candles /\
  df_get "returns" d = log_returns (candle_frame candles).
Proof.
  destruct f; cbn [fresh frame_of data_of]; projections;
    unfold sma_frame, ema_frame, macd_frame, rsi_frame, so_frame;
    cbv zeta; columns; repeat split; reflexivity.
Qed.

(** X5.  The instance a constructor returns is well formed: its frame is
    rectangular with one row per candle and holds the candle columns as
    they came, the log-returns and the indicator columns of the class, and
    every indicator column is the one the window operations give for the
    parameters stored on the instance. *)
Theorem constructed_instance_is_consistent
    f symbol (p : params f) tc candles i :
  construct f symbol p tc candles = inr i ->
  wf i = true /\ valid_parameters i /\ indicators_current i /\
  nrows (data_of i) = length candles /\
  df_get "Close" (data_of i) = map (fun k => Some (c_close k)) candles /\
  df_get "High" (data_of i) = map (fun k => Some (c_high k)) candles /\
  df_get "Low" (data_of i) = map (fun k => Some (c_low k)) candles /\
  df_get "returns" (data_of i) = log_returns (candle_frame candles).
Proof.
  intros H. apply construct_inr in H. destruct H as [Ha ->].
  destruct (fresh_good f symbol p tc candles Ha) as [Hwf Hv].
  destruct (fresh_prices f symbol p tc candles)
    as (Hi & _ & Hh & Hl & Hc & _ & Hr).
  repeat split; try assumption.
  - now apply fresh_current.
  - unfold nrows. rewrite Hi. apply length_map.
Qed.

(** ** [set_parameters] on a constructed instance *)

Ltac set_parameters_body :=
  unfold set_parameters, on; cbn [map nth values fresh frame_of];
  unfold SMA.set_parameters, EMA.set_parameters, MACD.set_parameters,
    MACD.refresh_MACD, RSI.set_parameters, SO.set_parameters, when_given,
    bind, get, modify, lift, ret, rolling_mean, rolling_min, rolling_max.

Ltac frames :=
  unfold sma_frame, ema_frame, macd_frame, rsi_frame, so_frame,
    RSI.rsi_formula, SO.k_formula; cbv zeta.

Ltac step_windows :=
  repeat (cbv beta iota; projections; columns;
          first [ rewrite rolling_nonneg by intuition
                | rewrite ewm_mean_ge1 by intuition ]);
  cbv beta iota; projections; columns.

Ltac records :=
  cbv [SMA.data SMA.tc SMA.results SMA.SMA_S SMA.SMA_L SMA.symbol
       SMA.set_data SMA.set_SMA_S SMA.set_SMA_L SMA.set_results
       EMA.data EMA.tc EMA.results EMA.EMA_S EMA.EMA_L EMA.symbol
       EMA.set_data EMA.set_EMA_S EMA.set_EMA_L EMA.set_results
       MACD.data MACD.tc MACD.results MACD.EMA_S MACD.EMA_L MACD.signal_mw
       MACD.symbol MACD.set_data MACD.set_EMA_S MACD.set_EMA_L
       MACD.set_signal_mw MACD.set_results
       RSI.data RSI.tc RSI.results RSI.periods RSI.rsi_upper RSI.rsi_lower
       RSI.symbol RSI.set_data RSI.set_periods RSI.set_rsi_upper
       RSI.set_rsi_lower RSI.set_results
       SO.data SO.tc SO.results SO.periods SO.D_mw SO.symbol
       SO.set_data SO.set_periods SO.set_D_mw SO.set_results].

Ltac cells :=
  cbn [df_set df_get df_cols df_index candle_frame assoc_set assoc_get
       String.eqb Ascii.eqb Bool.eqb].

Lemma set_parameters_fresh f symbol (p p' : params f) tc candles :
  acceptable f p -> acceptable f p' ->
  set_parameters (map Some (values f p'))
    (fresh f symbol p tc (frame_of f p candles)) =
  (inr tt, fresh f symbol p' tc (frame_of f p' candles)).
Proof.
  intros Ha Ha'.
  destruct f; cbn [acceptable params] in *; set_parameters_body; frames;
    step_windows; records; unfold rolled; cells; rewrite ?length_map;
    reflexivity.
Qed.

(** X6.  On an instance a constructor returned, [set_parameters] called
    with a value for every parameter leaves exactly the instance the
    constructor returns for the new parameters on the same candles: no
    column keeps anything of the parameters before. *)
Theorem set_parameters_rebuilds f symbol (p p' : params f) tc candles i i' :
  construct f symbol p tc candles = inr i ->
  construct f symbol p' tc candles = inr i' ->
  set_parameters (map Some (values f p')) i = (inr tt, i').
Proof.
  intros H H'. apply construct_inr in H. apply construct_inr in H'.
  destruct H as [Ha ->]. destruct H' as [Ha' ->].
  now apply set_parameters_fresh.
Qed.

Ltac one_axis :=
  unfold set_parameters, on, only; cbn [nth];
  unfold SMA.set_parameters, EMA.set_parameters, MACD.set_parameters,
    MACD.refresh_MACD, RSI.set_parameters, SO.set_parameters, when_given,
    bind, get, modify, lift, ret, rolling_mean, rolling_min, rolling_max;
  cbv beta iota; projections.

Ltac accepts :=
  repeat (cbv beta iota; projections;
          match goal with
          | |- context [ewm_mean ?s ?s ?c] =>
              rewrite (ewm_mean_ge1 s c) by solve [assumption | lia]
          | |- context [rolling ?agg ?w ?c] =>
              rewrite (rolling_nonneg agg w c) by solve [assumption | lia]
          end);
  cbv beta iota.

Ltac rejects :=
  first [ rewrite rolling_negative by assumption
        | rewrite ewm_mean_lt1 by assumption ];
  cbv beta iota; projections.

(** X7.  A call of [set_parameters] that raises is not rolled back.  When
    the value given for one axis is refused (a negative rolling window, a
    span below 1) the call raises [ValueError] after the attribute has been
    assigned: the instance keeps the refused value, its frame and stored
    result are untouched, and its indicator columns are no longer those of
    its parameters. *)
Theorem set_parameters_failure_is_not_rolled_back i axis v e i1 :
  good i ->
  set_parameters (only axis v) i = (inl e, i1) ->
  e = ValueError /\
  nth axis (parameters_of i1) 0%Z = v /\
  data_of i1 = data_of i /\ results_of i1 = results_of i /\
  tc_of i1 = tc_of i /\
  ~ indicators_current i1.
Proof.
  intros [_ Hv].
  destruct i as [self|self|self|self|self]; cbn [valid_parameters] in Hv;
    destruct axis as [|[|[|axis]]]; one_axis; try discriminate.
  - destruct (Z.ltb_spec v 0) as [Hn|Hp]; [rejects|accepts; discriminate].
    intros H; injection H as <- <-. projections. repeat split.
    unfold indicators_current, rolling_mean. projections.
    rewrite rolling_negative by assumption. intros [H _]; discriminate.
  - destruct (Z.ltb_spec v 0) as [Hn|Hp]; [rejects|accepts; discriminate].
    intros H; injection H as <- <-. projections. repeat split.
    unfold indicators_current, rolling_mean. projections.
    rewrite (rolling_negative mean v) by assumption.
    intros [_ H]; discriminate.
  - destruct (Z.ltb_spec v 1) as [Hn|Hp]; [rejects|accepts; discriminate].
    intros H; injection H as <- <-. projections. repeat split.
    unfold indicators_current. projections.
    rewrite ewm_mean_lt1 by assumption. intros [H _]; discriminate.
  - destruct (Z.ltb_spec v 1) as [Hn|Hp]; [rejects|accepts; discriminate].
    intros H; injection H as <- <-. projections. repeat split.
    unfold indicators_current. projections.
    rewrite (ewm_mean_lt1 v) by assumption. intros [_ H]; discriminate.
  - destruct (Z.ltb_spec v 1) as [Hn|Hp]; [rejects|accepts; discriminate].
    intros H; injection H as <- <-. projections. repeat split.
    unfold indicators_current. projections.
    rewrite ewm_mean_lt1 by assumption. intros [H _]; discriminate.
  - destruct (Z.ltb_spec v 1) as [Hn|Hp]; [rejects|accepts; discriminate].
    intros H; injection H as <- <-. projections. repeat split.
    unfold indicators_current. projections.
    rewrite (ewm_mean_lt1 v) by assumption. intros (_ & H & _); discriminate.
  - destruct (Z.ltb_spec v 1) as [Hn|Hp]; [rejects|accepts; discriminate].
    intros H; injection H as <- <-. projections. repeat split.
    unfold indicators_current. projections.
    rewrite (ewm_mean_lt1 v) by assumption.
    intros (_ & _ & _ & H); discriminate.
  - destruct (Z.ltb_spec v 0) as [Hn|Hp]; [rejects|accepts; discriminate].
    intros H; injection H as <- <-. projections. repeat split.
    unfold indicators_current, rolling_mean. projections.
    rewrite rolling_negative by assumption. intros [H _]; discriminate.
  - destruct (Z.ltb_spec v 0) as [Hn|Hp]; [rejects|accepts; discriminate].
    intros H; injection H as <- <-. projections. repeat split.
    unfold indicators_current, rolling_min. projections.
    rewrite rolling_negative by assumption. intros [H _]; discriminate.
  - destruct (Z.ltb_spec v 0) as [Hn|Hp]; [rejects|accepts; discriminate].
    intros H; injection H as <- <-. projections. repeat split.
    unfold indicators_current, rolling_mean, rolling_min, rolling_max.
    projections.
    rewrite (rolling_negative mean v) by assumption.
    intros (_ & _ & _ & H); discriminate.
Qed.

(** ** What the result of a backtest holds *)

Lemma result_is_backtest_frame i perf outperf res i' :
  test_strategy i = (inr (perf, outperf, res), i') ->
  res = backtest_frame i.
Proof.
  rewrite test_strategy_eq. unfold finish.
  destruct (iloc_last (df_get "cstrategy" (backtest_frame i)));
    [discriminate|].
  destruct (iloc_last (df_get "creturns" (backtest_frame i)));
    [discriminate|].
  intros H. now injection H as _ _ <- _.
Qed.

Lemma nth_np_where_gt A B t x y :
  nth t A None = Some x -> nth t B None = Some y ->
  nth t (np_where (series_gt A B) (Some 1) (Some (-1))) None =
  Some (if Rgtb x y then 1 else -1).
Proof.
  unfold np_where, series_gt, zip_with.
  revert B t. induction A as [|a A IH]; intros B t HA HB.
  - destruct t; discriminate.
  - destruct B as [|b B]; [destruct t; discriminate|].
    destruct t as [|t]; simpl in *.
    + subst a b. simpl. now destruct (Rgtb x y).
    + now apply IH.
Qed.

Lemma kept_cell i n t :
  wf i = true -> In n (base_columns ++ indicator_columns i) ->
  (t < nrows (kept i))%nat ->
  exists x, nth t (df_get n (kept i)) None = Some x.
Proof.
  intros Hwf Hin Ht. apply full_nth.
  - apply full_df_get, dropna_all_notna.
  - rewrite length_df_get; [exact Ht| |].
    + apply dropna_rectangular, wf_rectangular, Hwf.
    + apply wf_has_dropna; assumption.
Qed.

(** X8.  In the four classes that compare two columns (SMA, EMA, MACD and
    the stochastic oscillator) the position on every row of the result is
    [+1] when the fast column of that row is greater than the slow one and
    [-1] otherwise: a tie is a short position, and no row is flat. *)
Theorem crossover_position_rule i fast slow perf outperf res i' t :
  wf i = true -> fast_slow i = Some (fast, slow) ->
  test_strategy i = (inr (perf, outperf, res), i') ->
  (t < nrows res)%nat ->
  exists x y,
    nth t (df_get fast res) None = Some x /\
    nth t (df_get slow res) None = Some y /\
    nth t (df_get "position" res) None = Some (if Rgtb x y then 1 else -1).
Proof.
  intros Hwf Hfs Hrun Ht. apply result_is_backtest_frame in Hrun. subst res.
  rewrite result_nrows in Ht by exact Hwf.
  assert (Hf : In fast (base_columns ++ indicator_columns i) /\
               In slow (base_columns ++ indicator_columns i) /\
               ~ In fast ["position"; "strategy"; "trades"; "creturns";
                          "cstrategy"] /\
               ~ In slow ["position"; "strategy"; "trades"; "creturns";
                          "cstrategy"] /\
               positions i = crossover fast slow (kept i)).
  { destruct i; cbn [fast_slow] in Hfs; try discriminate;
      injection Hfs as <- <-; simpl; intuition discriminate. }
  destruct Hf as (Hin1 & Hin2 & Hn1 & Hn2 & Hpos).
  destruct (kept_cell i fast (S t) Hwf Hin1) as [x Hx]; [lia|].
  destruct (kept_cell i slow (S t) Hwf Hin2) as [y Hy]; [lia|].
  exists x, y.
  rewrite result_position, !result_other by assumption.
  rewrite !nth_tl, Hpos. unfold crossover.
  auto using nth_np_where_gt.
Qed.

(** The values a position takes. *)
Lemma position_values i :
  Forall (fun c => c = Some 1 \/ c = Some (-1) \/
                   (c = Some 0 /\ family_of i = RSI_class)) (positions i).
Proof.
  assert (C : forall a b d,
             Forall (fun c => c = Some 1 \/ c = Some (-1) \/
                              (c = Some 0 /\ family_of i = RSI_class))
               (crossover a b d)).
  { intros a b d. unfold crossover, np_where. apply Forall_map, Forall_forall.
    intros [|] _; auto. }
  destruct i as [self|self|self|self|self]; cbn [positions]; try apply C.
  rewrite threshold_map. apply Forall_map, Forall_forall.
  intros [x|] _; [|now auto]. unfold threshold_rule.
  destruct (Rltb x _); [now auto|]. destruct (Rgtb x _); now auto.
Qed.

Lemma nth_Forall {A} (P : A -> Prop) l t d :
  Forall P l -> (t < length l)%nat -> P (nth t l d).
Proof. intros H Ht. rewrite Forall_forall in H. apply H, nth_In, Ht. Qed.

Ltac abs_value := unfold Rabs; destruct (Rcase_abs _); lra.

(** X9.  In the classes with a cost line the trade indicator is 0 on the
    first row of the result and on every later row the absolute change of
    the position from the row before: 0 or 2 for the classes that compare
    two columns, and 0, 1 or 2 for the RSI, whose position can be flat. *)
Theorem trades_count_position_changes i perf outperf res i' t :
  wf i = true -> (forall self, i <> SMA_of self) ->
  test_strategy i = (inr (perf, outperf, res), i') ->
  nth 0 (df_get "trades" res) None = Some 0 /\
  ((S t < nrows res)%nat ->
   exists p q,
     nth t (df_get "position" res) None = Some p /\
     nth (S t) (df_get "position" res) None = Some q /\
     nth (S t) (df_get "trades" res) None = Some (Rabs (q - p)) /\
     (Rabs (q - p) = 0 \/ Rabs (q - p) = 2 \/
      (Rabs (q - p) = 1 /\ family_of i = RSI_class))).
Proof.
  intros Hwf Hns Hrun.
  assert (Hlong : (2 <= nrows (kept i))%nat).
  { destruct (Nat.lt_ge_cases (nrows (kept i)) 2) as [Hlt|Hge];
      [|exact Hge].
    rewrite test_strategy_eq, finish_short in Hrun by assumption.
    discriminate. }
  apply result_is_backtest_frame in Hrun. subst res.
  assert (HT : df_get "trades" (backtest_frame i) = trades_of (positions i)).
  { rewrite backtest_frame_eq by exact Hwf.
    destruct i; try (exfalso; eapply Hns; reflexivity);
      rewrite !df_get_set; reflexivity. }
  assert (HL := length_positions i Hwf). fold (kept i) in HL.
  rewrite HT, result_position, result_nrows by exact Hwf. split.
  - apply nth_trades_of_first. unfold column, cell in *. lia.
  - intros Ht.
    assert (Hp := nth_Forall _ _ (S t) None (position_values i)).
    assert (Hq := nth_Forall _ _ (S (S t)) None (position_values i)).
    unfold column, cell in *.
    specialize (Hp ltac:(lia)). specialize (Hq ltac:(lia)).
    rewrite !nth_tl.
    assert (G : forall p q,
               nth (S t) (positions i) None = Some p ->
               nth (S (S t)) (positions i) None = Some q ->
               (Rabs (q - p) = 0 \/ Rabs (q - p) = 2 \/
                (Rabs (q - p) = 1 /\ family_of i = RSI_class)) ->
               exists p q,
                 nth (S t) (positions i) None = Some p /\
                 nth (S (S t)) (positions i) None = Some q /\
                 nth (S t) (trades_of (positions i)) None
                   = Some (Rabs (q - p)) /\
                 (Rabs (q - p) = 0 \/ Rabs (q - p) = 2 \/
                  (Rabs (q - p) = 1 /\ family_of i = RSI_class))).
    { intros p q Ep Eq Hc. exists p, q. unfold column, cell in *.
      repeat split; try assumption.
      now apply nth_trades_of_next. }
    unfold column, cell in *.
    destruct Hp as [Ep|[Ep|[Ep Hf]]], Hq as [Eq|[Eq|[Eq Hf']]];
      eapply G; try eassumption;
      first [ left; abs_value
            | right; left; abs_value
            | right; right; split; [abs_value|assumption] ].
Qed.

Lemma last_series_exp c p :
  last (series_exp c) None = Some p -> 0 < p.
Proof.
  unfold series_exp. induction c as [|x c IH]; [discriminate|].
  destruct c as [|y c].
  - destruct x as [a|]; simpl; [|discriminate].
    intros H; injection H as <-. apply exp_pos.
  - intros H. apply IH. exact H.
Qed.

Lemma iloc_last_series_exp c p :
  iloc_last (series_exp c) = inr (Some p) -> 0 < p.
Proof.
  unfold iloc_last. intros H. apply (last_series_exp c).
  destruct (series_exp c); [discriminate|]. now injection H.
Qed.

(** X10.  A backtest that returns gives numbers: the absolute performance
    and the last cumulative buy-and-hold value are positive (both are an
    exponential), and the out-performance is their difference, so it is
    greater than minus the buy-and-hold value. *)
Theorem performance_is_positive i perf outperf res i' :
  wf i = true ->
  test_strategy i = (inr (perf, outperf, res), i') ->
  exists p c,
    perf = Some p /\ outperf = Some (p - c) /\ 0 < p /\ 0 < c /\
    iloc_last (df_get "cstrategy" res) = inr (Some p) /\
    iloc_last (df_get "creturns" res) = inr (Some c).
Proof.
  intros Hwf Hrun.
  assert (Hlong : (2 <= nrows (kept i))%nat).
  { destruct (Nat.lt_ge_cases (nrows (kept i)) 2) as [Hlt|Hge];
      [|exact Hge].
    rewrite test_strategy_eq, finish_short in Hrun by assumption.
    discriminate. }
  destruct (finish_long i Hwf Hlong) as (p & c & Hp & Hc & Hfin).
  rewrite test_strategy_eq, Hfin in Hrun.
  injection Hrun as <- <- <- <-.
  exists p, c. repeat split; try assumption.
  - rewrite result_cstrategy in Hp by exact Hwf.
    now apply iloc_last_series_exp in Hp.
  - rewrite result_creturns in Hc by exact Hwf.
    now apply iloc_last_series_exp in Hc.
Qed.

Lemma Forall_assoc_set (Q : column -> Prop) n c cs :
  Forall (fun nc => Q (snd nc)) cs -> Q c ->
  Forall (fun nc => Q (snd nc)) (assoc_set n c cs).
Proof.
  intros H Hc. induction H as [|[m x] cs Hx Hcs IH]; simpl.
  - repeat constructor. exact Hc.
  - destruct (String.eqb m n); constructor; simpl; assumption.
Qed.

Lemma Forall_df_tail (Q : column -> Prop) df :
  Forall (fun nc => Q (tl (snd nc))) (df_cols df) ->
  Forall (fun nc => Q (snd nc)) (df_cols (df_tail df)).
Proof.
  intros H. unfold df_tail. cbn [df_cols]. apply Forall_map.
  exact H.
Qed.

Lemma backtest_frame_columns (Q : column -> Prop) i :
  wf i = true ->
  Forall (fun nc => Q (tl (snd nc))) (df_cols (kept i)) ->
  Q (tl (positions i)) -> Q (lagged (positions i) (kept_returns i)) ->
  Q (trades_of (positions i)) -> Q (net_strategy i) ->
  Q (series_exp (cumsum (tl (kept_returns i)))) ->
  Q (series_exp (cumsum (net_strategy i))) ->
  Forall (fun nc => Q (snd nc)) (df_cols (backtest_frame i)).
Proof.
  intros Hwf HK HP HL HT HN HC HS.
  rewrite backtest_frame_eq by exact Hwf.
  assert (H0 : Forall (fun nc => Q (snd nc))
                 (df_cols
                    (df_tail
                       (df_set "strategy"
                          (series_mul (shift1 (positions i))
                             (kept_returns i))
                          (df_set "position" (positions i) (kept i)))))).
  { apply Forall_df_tail. unfold df_set. cbn [df_cols].
    apply (Forall_assoc_set (fun c => Q (tl c))); [|exact HL].
    apply (Forall_assoc_set (fun c => Q (tl c))); assumption. }
  unfold df_set at 1 2. cbn [df_cols].
  apply Forall_assoc_set; [|exact HS].
  apply Forall_assoc_set; [|exact HC].
  destruct i; try exact H0;
    unfold df_set at 1 2; cbn [df_cols];
    (apply Forall_assoc_set; [|exact HN]);
    (apply Forall_assoc_set; [|exact HT]); exact H0.
Qed.

Lemma full_series_exp c : full c -> full (series_exp c).
Proof. apply full_map_lift. Qed.

Lemma length_series_exp c : length (series_exp c) = length c.
Proof. apply length_map. Qed.

(** X11.  The frame a backtest returns and stores has no [nan] and is
    rectangular.  Its rows are the rows of the instance's frame that are
    free of [nan], less the first of them (lost to the lag of the
    position): the index and every price and indicator column are those
    rows unchanged. *)
Theorem result_rows i perf outperf res i' :
  wf i = true ->
  test_strategy i = (inr (perf, outperf, res), i') ->
  all_notna res /\ rectangular res = true /\
  results_of i' = Some res /\
  df_index res = tl (df_index (dropna (data_of i))) /\
  forall n, In n (base_columns ++ indicator_columns i) ->
            df_get n res = tl (df_get n (dropna (data_of i))).
Proof.
  intros Hwf Hrun.
  assert (Hres := result_is_backtest_frame _ _ _ _ _ Hrun).
  assert (Hi' : i' = with_results res i).
  { rewrite test_strategy_eq in Hrun. injection Hrun as _ <-. now subst. }
  subst res.
  assert (Hrect := dropna_rectangular _ (wf_rectangular _ Hwf)).
  assert (HL := length_positions i Hwf).
  assert (HR := length_kept_returns i Hwf).
  fold (kept i) in *.
  split; [|split; [|split; [|split]]].
  - apply (backtest_frame_columns full); try exact Hwf.
    + assert (H := dropna_all_notna (data_of i)).
      unfold all_notna in H. fold (kept i) in H.
      eapply Forall_impl; [|exact H]. intros nc. apply full_tl.
    + apply full_tl, full_positions.
    + apply full_lagged; [apply full_positions|apply full_kept_returns].
    + apply full_trades_of.
    + apply full_net_strategy.
    + apply full_series_exp, full_cumsum_from, full_tl, full_kept_returns.
    + apply full_series_exp, full_cumsum_from, full_net_strategy.
  - apply rectangular_spec. rewrite result_nrows by exact Hwf.
    apply (backtest_frame_columns
             (fun c => length c = (nrows (kept i) - 1)%nat)); try exact Hwf.
    + apply rectangular_spec in Hrect.
      eapply Forall_impl; [|exact Hrect]. intros nc Hnc.
      rewrite length_tl. unfold column, cell in *. now rewrite Hnc.
    + rewrite length_tl. unfold column, cell in *. now rewrite HL.
    + rewrite length_lagged by (symmetry; exact HR).
      unfold column, cell in *. now rewrite HL.
    + rewrite length_trades_of. unfold column, cell in *. now rewrite HL.
    + apply length_net_strategy, Hwf.
    + rewrite length_series_exp. unfold cumsum.
      rewrite length_cumsum_from, length_tl.
      unfold column, cell in *. now rewrite HR, HL.
    + rewrite length_series_exp. unfold cumsum.
      rewrite length_cumsum_from. apply length_net_strategy, Hwf.
  - subst i'. apply with_results_results.
  - apply result_index, Hwf.
  - intros n Hn. apply result_other; [exact Hwf|].
    intros Hin. unfold base_columns in Hn.
    destruct i; simpl in Hn, Hin; intuition congruence.
Qed.

Lemma iloc_last_inr c v :
  iloc_last c = inr v -> v = last c None /\ c <> [].
Proof.
  unfold iloc_last. destruct c; [discriminate|].
  intros H. injection H as <-. split; [reflexivity|discriminate].
Qed.

(** ** The cost of trading *)

Section Costs.

Let le_cell (a b : cell) : Prop :=
  exists x y, a = Some x /\ b = Some y /\ x <= y.

Lemma cumsum_from_le A B acc acc' :
  Forall2 le_cell A B -> acc <= acc' ->
  Forall2 le_cell (cumsum_from acc A) (cumsum_from acc' B).
Proof.
  intros H. revert acc acc'.
  induction H as [|a b A B (x & y & -> & -> & Hxy) _ IH]; intros acc acc' Hacc;
    simpl; constructor.
  - exists (acc + x), (acc' + y). repeat split. lra.
  - apply IH. lra.
Qed.

Lemma series_exp_le A B :
  Forall2 le_cell A B -> Forall2 le_cell (series_exp A) (series_exp B).
Proof.
  induction 1 as [|a b A B (x & y & -> & -> & Hxy) _ IH]; simpl;
    constructor; [|exact IH].
  exists (exp x), (exp y). repeat split.
  destruct Hxy as [Hlt| ->]; [left; now apply exp_increasing|right; reflexivity].
Qed.

Lemma last_le A B :
  Forall2 le_cell A B -> A <> [] -> le_cell (last A None) (last B None).
Proof.
  induction 1 as [|a b A B Hab H IH]; [congruence|]. intros _.
  destruct H as [|a' b' A B Hab' H]; [exact Hab|].
  apply IH. discriminate.
Qed.

Lemma net_le L T tc tc0 :
  full L -> Forall (fun c => exists x, c = Some x /\ 0 <= x) T ->
  length L = length T -> tc0 <= tc ->
  Forall2 le_cell (series_sub L (series_scale T tc))
    (series_sub L (series_scale T tc0)).
Proof.
  intros HL HT. revert T HT.
  induction HL as [|l L Hl _ IH]; intros [|t T] HT Hlen Htc;
    try discriminate; [constructor|].
  inversion HT as [|? ? (x & -> & Hx) HT']; subst.
  destruct l as [a|]; [|discriminate].
  unfold series_sub, series_scale, zip_with in *. simpl. constructor.
  - exists (a - x * tc), (a - x * tc0). repeat split. nra.
  - apply IH; [exact HT'|simpl in Hlen; lia|exact Htc].
Qed.

Lemma trades_nonneg P :
  Forall (fun c => exists x, c = Some x /\ 0 <= x) (trades_of P).
Proof.
  unfold trades_of, series_abs, fillna. rewrite map_map.
  apply Forall_map, Forall_forall. intros [x|] _; simpl;
    eexists; (split; [reflexivity|apply Rabs_pos]).
Qed.

Lemma le_cell_refl A : full A -> Forall2 le_cell A A.
Proof.
  induction 1 as [|[a|] A Ha _ IH]; constructor; try discriminate;
    [|exact IH].
  exists a, a. repeat split. lra.
Qed.

Lemma net_strategy_le i i0 :
  wf i = true ->
  family_of i0 = family_of i -> data_of i0 = data_of i ->
  parameters_of i0 = parameters_of i -> tc_of i0 <= tc_of i ->
  positions i0 = positions i /\ kept i0 = kept i /\
  Forall2 le_cell (net_strategy i) (net_strategy i0).
Proof.
  intros Hwf Hf Hd Hp Htc.
  assert (Hk : kept i0 = kept i) by (unfold kept; now rewrite Hd).
  assert (Hpos : positions i0 = positions i).
  { destruct i, i0; try discriminate; cbn [data_of parameters_of] in *;
      cbn [positions]; rewrite ?Hd; try reflexivity.
    now injection Hp as _ -> ->. }
  split; [exact Hpos|]. split; [exact Hk|].
  assert (HL : full (lagged (positions i) (kept_returns i)))
    by (apply full_lagged; [apply full_positions|apply full_kept_returns]).
  assert (Hlen : length (lagged (positions i) (kept_returns i))
                 = length (trades_of (positions i))).
  { rewrite length_lagged by (symmetry; apply length_kept_returns, Hwf).
    now rewrite length_trades_of. }
  unfold net_strategy, kept_returns. rewrite Hpos, Hk.
  fold (kept_returns i).
  destruct i, i0; try discriminate;
    first [ now apply le_cell_refl
          | apply net_le; [exact HL|apply trades_nonneg|exact Hlen|exact Htc] ].
Qed.

(** X12.  A greater transaction cost never improves the result.  Of two
    instances of one class with the same frame and the same parameters,
    the one with the smaller [tc] has an absolute performance at least as
    great; the positions and the buy-and-hold series are the same. *)
Theorem performance_decreases_with_cost i i0 perf outperf res i' :
  wf i = true ->
  family_of i0 = family_of i -> data_of i0 = data_of i ->
  parameters_of i0 = parameters_of i -> tc_of i0 <= tc_of i ->
  test_strategy i = (inr (perf, outperf, res), i') ->
  exists p p0 outperf0 res0 i0',
    perf = Some p /\
    test_strategy i0 = (inr (Some p0, outperf0, res0), i0') /\
    p <= p0 /\
    df_get "position" res0 = df_get "position" res /\
    df_get "creturns" res0 = df_get "creturns" res.
Proof.
  intros Hwf Hf Hd Hp Htc Hrun.
  assert (Hwf0 : wf i0 = true).
  { unfold wf in *. rewrite Hd.
    replace (indicator_columns i0) with (indicator_columns i);
      [exact Hwf|]. destruct i, i0; try discriminate; reflexivity. }
  destruct (net_strategy_le i i0 Hwf Hf Hd Hp Htc) as (Hpos & Hk & Hnet).
  assert (Hlong : (2 <= nrows (kept i))%nat).
  { destruct (Nat.lt_ge_cases (nrows (kept i)) 2) as [Hlt|Hge];
      [|exact Hge].
    rewrite test_strategy_eq, finish_short in Hrun by assumption.
    discriminate. }
  assert (Hlong0 : (2 <= nrows (kept i0))%nat) by now rewrite Hk.
  destruct (finish_long i Hwf Hlong) as (p & c & Hlp & Hlc & Hfin).
  destruct (finish_long i0 Hwf0 Hlong0) as (p0 & c0 & Hlp0 & Hlc0 & Hfin0).
  rewrite test_strategy_eq, Hfin in Hrun. injection Hrun as <- <- <- <-.
  exists p, p0. do 3 eexists. split; [reflexivity|].
  split; [rewrite test_strategy_eq, Hfin0; reflexivity|].
  split; [|split].
  - rewrite result_cstrategy in Hlp, Hlp0 by assumption.
    apply iloc_last_inr in Hlp. apply iloc_last_inr in Hlp0.
    destruct Hlp as [Hlp Hne]. destruct Hlp0 as [Hlp0 _].
    assert (G := last_le _ _
                   (series_exp_le _ _
                      (cumsum_from_le _ _ 0 0 Hnet (Rle_refl 0))) Hne).
    fold cumsum in G. rewrite <- Hlp, <- Hlp0 in G.
    destruct G as (x & y & Ex & Ey & Hxy).
    injection Ex as <-. injection Ey as <-. exact Hxy.
  - rewrite !result_position by assumption. now rewrite Hpos.
  - rewrite !result_creturns by assumption. unfold kept_returns.
    now rewrite Hk.
Qed.

End Costs.

(** ** The buy-and-hold series of [SMABacktester] *)

Lemma nth_log_returns candles t :
  valid_candles candles -> (S t < length candles)%nat ->
  nth (S t) (log_returns (candle_frame candles)) None =
  Some (ln (c_close (nth (S t) candles (flat_candle 0 0)))
        - ln (c_close (nth t candles (flat_candle 0 0)))).
Proof.
  intros Hv Ht. unfold log_returns. cells. unfold series_log, series_div.
  rewrite nth_map_strict by reflexivity.
  rewrite nth_zip_with by (apply cdiv_None_l || apply cdiv_None_r).
  rewrite nth_closes by exact Ht.
  assert (Hpos : forall j, (j < length candles)%nat ->
                   0 < c_close (nth j candles (flat_candle 0 0))).
  { intros j Hj. unfold valid_candles in Hv. rewrite Forall_forall in Hv.
    destruct (Hv _ (nth_In _ (flat_candle 0 0) Hj)) as [H1 [H2 _]]. lra. }
  rewrite nth_shift1_succ by now rewrite length_map.
  rewrite nth_closes by lia.
  assert (H1 := Hpos (S t) Ht). assert (H2 := Hpos t ltac:(lia)).
  unfold cdiv. rewrite Reqb_false by lra.
  unfold clog. rewrite Rltb_true by now apply Rdiv_lt_0_compat.
  f_equal. unfold Rdiv. rewrite ln_mult by (try apply Rinv_0_lt_compat; lra).
  rewrite ln_Rinv by lra. lra.
Qed.

(** A running sum of differences telescopes. *)
Lemma cumsum_telescope (g : nat -> R) :
  forall t c s acc,
    (forall j, (j <= t)%nat ->
               nth j c None = Some (g (S (s + j)) - g (s + j)%nat)) ->
    nth t (cumsum_from acc c) None = Some (acc + g (S (s + t)) - g s).
Proof.
  induction t as [|t IH]; intros c s acc H.
  - specialize (H 0%nat (Nat.le_refl 0)). destruct c as [|x c]; [discriminate|].
    simpl in H. subst x. simpl. rewrite Nat.add_0_r. f_equal. lra.
  - assert (H0 := H 0%nat ltac:(lia)).
    destruct c as [|x c]; [discriminate|]. simpl in H0. subst x.
    cbn [cumsum_from nth]. rewrite Nat.add_0_r.
    rewrite (IH c (S s) (acc + (g (S s) - g s))).
    + f_equal. replace (S (S s + t)) with (S (s + S t)) by lia. lra.
    + intros j Hj. specialize (H (S j) ltac:(lia)). simpl in H.
      replace (S s + j)%nat with (s + S j)%nat by lia. exact H.
Qed.

Lemma tl_skipn {A} k (l : list A) : tl (skipn k l) = skipn (S k) l.
Proof.
  revert l. induction k as [|k IH]; intros [|x l]; simpl; try reflexivity.
  apply IH.
Qed.

Lemma sma_kept_returns symbol ws wl tc candles :
  valid_candles candles -> (1 <= ws)%Z -> (1 <= wl)%Z ->
  kept_returns (fresh SMA_class symbol (ws, wl) tc
                  (frame_of SMA_class (ws, wl) candles)) =
  skipn (Nat.max 1 (Z.to_nat (Z.max ws wl) - 1))
    (log_returns (candle_frame candles)).
Proof.
  intros Hv Hs Hl. unfold kept_returns, kept.
  cbn [fresh frame_of data_of fst snd]. projections.
  rewrite df_get_dropna, sma_frame_mask by exact Hv.
  rewrite (map_ext
             (fun t =>
                (Nat.max 1 (Nat.max (Z.to_nat ws) (Z.to_nat wl) - 1) <=? t)%nat
                && (1 <=? Z.to_nat ws)%nat && (1 <=? Z.to_nat wl)%nat)
             (fun t =>
                (Nat.max 1 (Nat.max (Z.to_nat ws) (Z.to_nat wl) - 1)
                 <=? t)%nat)).
  2:{ intros t. destruct (Nat.leb_spec 1 (Z.to_nat ws)); [|lia].
      destruct (Nat.leb_spec 1 (Z.to_nat wl)); [|lia].
      now rewrite !andb_true_r. }
  assert (E : df_get "returns" (sma_frame ws wl candles)
              = log_returns (candle_frame candles)).
  { unfold sma_frame. cbv zeta. columns. reflexivity. }
  rewrite E.
  assert (Hlen : length (log_returns (candle_frame candles))
                 = length candles).
  { unfold log_returns. cells. unfold series_log, series_div.
    now rewrite length_map, length_zip_with, length_shift1, length_map,
      Nat.min_id. }
  rewrite <- Hlen, select_threshold. f_equal. lia.
Qed.

(** X13.  The buy-and-hold series of [SMABacktester] is a ratio of closes:
    on candles with positive closes and windows of at least 1, its value on
    row [t] of the result is the close of that row divided by the close of
    the row before the first row of the result (row [max(2, SMA_S, SMA_L) -
    1] of the candles), whatever the positions are. *)
Theorem sma_buy_and_hold_is_price_ratio
    symbol ws wl tc candles i perf outperf res i' t :
  valid_candles candles -> (1 <= ws)%Z -> (1 <= wl)%Z ->
  construct SMA_class symbol (ws, wl) tc candles = inr i ->
  test_strategy i = (inr (perf, outperf, res), i') ->
  let m := Nat.max 2 (Z.to_nat (Z.max ws wl)) in
  (m + t < length candles)%nat ->
  nth t (df_get "creturns" res) None =
  Some (c_close (nth (m + t) candles (flat_candle 0 0))
        / c_close (nth (m - 1) candles (flat_candle 0 0))).
Proof.
  intros Hv Hs Hl Hc Hrun m Ht.
  apply construct_inr in Hc. destruct Hc as [Ha ->].
  assert (Hwf := proj1 (fresh_good SMA_class symbol (ws, wl) tc candles Ha)).
  apply result_is_backtest_frame in Hrun. subst res.
  rewrite result_creturns by exact Hwf.
  rewrite sma_kept_returns, tl_skipn by assumption.
  replace (S (Nat.max 1 (Z.to_nat (Z.max ws wl) - 1))) with m by lia.
  unfold series_exp, cumsum.
  rewrite nth_map_strict by reflexivity.
  rewrite (cumsum_telescope
             (fun k => ln (c_close (nth k candles (flat_candle 0 0))))
             t _ (m - 1)%nat 0).
  - assert (Hpos : forall j, (j < length candles)%nat ->
                     0 < c_close (nth j candles (flat_candle 0 0))).
    { intros j Hj. unfold valid_candles in Hv. rewrite Forall_forall in Hv.
      destruct (Hv _ (nth_In _ (flat_candle 0 0) Hj)) as [H1 [H2 _]]. lra. }
    replace (S (m - 1 + t)) with (m + t)%nat by lia.
    cbn [cexp option_map]. f_equal.
    assert (H1 := Hpos (m + t)%nat Ht).
    assert (H2 := Hpos (m - 1)%nat ltac:(lia)).
    rewrite Rplus_0_l. unfold Rminus. rewrite exp_plus, exp_Ropp.
    rewrite !exp_ln by assumption. reflexivity.
  - intros j Hj. rewrite nth_skipn_add.
    replace (m + j)%nat with (S (m - 1 + j)) by lia.
    apply nth_log_returns; [exact Hv|lia].
Qed.

(** ** The range of the oscillators *)

Lemma Rsum_bounds a b xs :
  Forall (fun x => a <= x <= b) xs ->
  IZR (Z.of_nat (length xs)) * a <= Rsum xs <= IZR (Z.of_nat (length xs)) * b.
Proof.
  induction 1 as [|x xs Hx _ IH].
  - simpl. lra.
  - cbn [length Rsum fold_right]. fold (Rsum xs).
    rewrite Nat2Z.inj_succ, succ_IZR. lra.
Qed.

Lemma mean_bounds a b xs :
  xs <> [] -> Forall (fun x => a <= x <= b) xs -> a <= mean xs <= b.
Proof.
  intros Hne H. assert (B := Rsum_bounds a b xs H). unfold mean.
  assert (Hn : 0 < IZR (Z.of_nat (length xs))).
  { apply IZR_lt. destruct xs; [congruence|simpl; lia]. }
  split.
  - apply Rmult_le_reg_r with (IZR (Z.of_nat (length xs))); [exact Hn|].
    unfold Rdiv. rewrite Rmult_assoc, Rinv_l by lra. lra.
  - apply Rmult_le_reg_r with (IZR (Z.of_nat (length xs))); [exact Hn|].
    unfold Rdiv. rewrite Rmult_assoc, Rinv_l by lra. lra.
Qed.

Lemma sequence_Forall (P : R -> Prop) l xs :
  sequence l = Some xs ->
  Forall (fun c => forall x, c = Some x -> P x) l ->
  Forall P xs /\ length xs = length l.
Proof.
  revert xs. induction l as [|[y|] l IH]; intros xs; simpl.
  - intros H _. injection H as <-. split; [constructor|reflexivity].
  - destruct (sequence l) as [ys|]; [|discriminate].
    intros H HF. injection H as <-. inversion HF as [|? ? Hy HF']; subst.
    destruct (IH ys eq_refl HF') as [H1 H2]. split.
    + constructor; [now apply Hy|exact H1].
    + simpl. now rewrite H2.
  - discriminate.
Qed.

Lemma Forall_firstn {A} (P : A -> Prop) k l :
  Forall P l -> Forall P (firstn k l).
Proof.
  intros H. revert k. induction H as [|x l Hx _ IH]; intros [|k]; simpl;
    constructor; auto.
Qed.

Lemma Forall_skipn {A} (P : A -> Prop) k l :
  Forall P l -> Forall P (skipn k l).
Proof.
  intros H. revert k. induction H as [|x l Hx Hl IH]; intros [|k]; simpl;
    try constructor; auto.
Qed.

(** A rolling mean lies between any two bounds of the column. *)
Lemma rolling_mean_bounds a b w c t m :
  Forall (fun c => forall x, c = Some x -> a <= x <= b) c ->
  (t < length c)%nat ->
  rolling_at mean w c t = Some m -> a <= m <= b.
Proof.
  intros HF Ht. unfold rolling_at.
  destruct (Nat.leb_spec 1 w) as [Hw|Hw]; [|discriminate].
  destruct (Nat.leb_spec w (S t)) as [Hwt|Hwt]; [|discriminate]. cbn [andb].
  destruct (sequence _) as [xs|] eqn:E; cbn [option_map]; [|discriminate].
  intros Hm; injection Hm as <-.
  destruct (sequence_Forall (fun x => a <= x <= b) _ _ E) as [G1 G2].
  { apply Forall_firstn, Forall_skipn, HF. }
  apply mean_bounds; [|exact G1].
  intros ->. cbn [length] in G2. rewrite length_firstn, length_skipn in G2.
  unfold column, cell in *. lia.
Qed.

Lemma Forall_where_series (P : cell -> Prop) (g : cell -> bool)
    (h : cell -> cell) y l :
  (forall x, g x = true -> P (h x)) -> P y ->
  Forall P (np_where_series_scalar (map g l) (map h l) y).
Proof.
  intros Hh Hy. unfold np_where_series_scalar, zip_with.
  induction l as [|x l IH]; simpl; constructor; [|exact IH].
  destruct (g x) eqn:E; auto.
Qed.

Lemma up_moves_nonneg c :
  Forall (fun c => forall x, c = Some x -> 0 <= x <= x)
    (np_where_series_scalar (series_gt_scalar (diff c) 0) (diff c) (Some 0)).
Proof.
  unfold series_gt_scalar. rewrite <- (map_id (diff c)) at 2.
  apply Forall_where_series.
  - intros [v|]; simpl; [|discriminate]. unfold Rgtb.
    destruct (Rgt_dec v 0); [|discriminate].
    intros _ x H. injection H as <-. lra.
  - intros x H. injection H as <-. lra.
Qed.

Lemma down_moves_nonneg c :
  Forall (fun c => forall x, c = Some x -> 0 <= x <= x)
    (np_where_series_scalar (series_lt_scalar (diff c) 0)
       (series_neg (diff c)) (Some 0)).
Proof.
  unfold series_lt_scalar, series_neg.
  apply Forall_where_series.
  - intros [v|]; simpl; [|discriminate]. unfold Rltb.
    destruct (Rlt_dec v 0); [|discriminate].
    intros _ x H. injection H as <-. lra.
  - intros x H. injection H as <-. lra.
Qed.

Lemma nonneg_rolled w c t m :
  Forall (fun c => forall x, c = Some x -> 0 <= x <= x) c ->
  nth t (rolled mean w c) None = Some m -> 0 <= m.
Proof.
  intros HF H. assert (Ht := nth_Some_lt _ _ _ H).
  rewrite length_rolled in Ht. unfold rolled in H.
  rewrite nth_map_seq in H by exact Ht.
  unfold rolling_at in H.
  destruct (Nat.leb_spec 1 (Z.to_nat w)) as [Hw|Hw]; [|discriminate].
  destruct (Nat.leb_spec (Z.to_nat w) (S t)) as [Hwt|Hwt]; [|discriminate].
  cbn [andb] in H.
  destruct (sequence _) as [xs|] eqn:E; cbn [option_map] in H;
    [|discriminate].
  injection H as <-.
  destruct (sequence_Forall (fun x => 0 <= x) _ _ E) as [G1 G2].
  { apply Forall_firstn, Forall_skipn.
    eapply Forall_impl; [|exact HF]. intros cl Hc x Hx.
    apply (Hc x Hx). }
  assert (Hne : xs <> []).
  { intros ->. cbn [length] in G2.
    rewrite length_firstn, length_skipn in G2.
    unfold column, cell in *. lia. }
  unfold mean.
  assert (Hn : 0 < IZR (Z.of_nat (length xs))).
  { apply IZR_lt. destruct xs; [congruence|simpl; lia]. }
  assert (Hs : 0 <= Rsum xs).
  { clear -G1. induction G1 as [|y ys Hy _ IH]; simpl; [lra|].
    fold (Rsum ys). lra. }
  apply Rmult_le_reg_r with (IZR (Z.of_nat (length xs))); [exact Hn|].
  unfold Rdiv. rewrite Rmult_assoc, Rinv_l by lra. lra.
Qed.

(** X14.  The RSI a constructor of [RSIBacktester] computes is a
    percentage: every value that is not [nan] lies between 0 and 100,
    whatever the prices are. *)
Theorem rsi_is_a_percentage symbol (p : params RSI_class) tc candles i t x :
  construct RSI_class symbol p tc candles = inr i ->
  nth t (df_get "RSI" (data_of i)) None = Some x ->
  0 <= x <= 100.
Proof.
  intros Hc. apply construct_inr in Hc. destruct Hc as [Ha ->].
  cbn [fresh frame_of data_of]. projections.
  unfold rsi_frame. cbv zeta. rewrite !(df_get_set "RSI").
  cbn [String.eqb Ascii.eqb Bool.eqb].
  unfold RSI.rsi_formula. columns.
  unfold series_scale, series_div, series_add.
  rewrite nth_map_strict by reflexivity.
  rewrite nth_zip_with by (apply cdiv_None_l || apply cdiv_None_r).
  rewrite nth_zip_with by (apply cadd_None_l || apply cadd_None_r).
  destruct (nth t (rolled mean (fst (fst p)) _) None) as [u|] eqn:EU;
    [|discriminate].
  destruct (nth t (rolled mean (fst (fst p))
                     (np_where_series_scalar (series_lt_scalar _ 0) _ _))
              None) as [d|] eqn:ED; [|discriminate].
  apply nonneg_rolled in EU; [|apply up_moves_nonneg].
  apply nonneg_rolled in ED; [|apply down_moves_nonneg].
  cbn [cadd cell_lift2 cdiv]. unfold Reqb.
  destruct (Req_dec_T (u + d) 0) as [E|E]; [discriminate|].
  cbn [cmul cell_lift2]. intros H. injection H as <-.
  assert (Hpos : 0 < u + d) by lra.
  assert (H1 : 0 <= u / (u + d)).
  { apply Rmult_le_pos; [exact EU|]. left. now apply Rinv_0_lt_compat. }
  assert (H2 : u / (u + d) <= 1).
  { apply Rmult_le_reg_r with (u + d); [exact Hpos|].
    unfold Rdiv. rewrite Rmult_assoc, Rinv_l by lra. lra. }
  lra.
Qed.

Lemma nth_candle_high candles t x :
  nth t (map (fun k => Some (c_high k)) candles) None = Some x ->
  x = c_high (nth t candles (flat_candle 0 0)).
Proof.
  intros H. assert (Ht := nth_Some_lt _ _ _ H). rewrite length_map in Ht.
  rewrite (nth_indep _ None (Some (c_high (flat_candle 0 0)))) in H
    by now rewrite length_map.
  rewrite (map_nth (fun k => Some (c_high k))) in H. congruence.
Qed.

Lemma Forall_cells (P : R -> Prop) (c : column) :
  (forall t x, nth t c None = Some x -> P x) ->
  Forall (fun c => forall x, c = Some x -> P x) c.
Proof.
  intros H. apply Forall_forall. intros cl Hin x ->.
  destruct (In_nth _ _ None Hin) as (t & _ & Ht). eauto.
Qed.

(** [%K] on valid candles. *)
Lemma k_formula_bounds periods candles t x :
  valid_candles candles ->
  let low := map (fun k => Some (c_low k)) candles in
  let high := map (fun k => Some (c_high k)) candles in
  let close := map (fun k => Some (c_close k)) candles in
  nth t (series_scale
           (series_div (series_sub close (rolled Rlist_min periods low))
              (series_sub (rolled Rlist_max periods high)
                 (rolled Rlist_min periods low))) 100) None = Some x ->
  0 <= x <= 100.
Proof.
  intros Hv low high close. unfold series_scale, series_div, series_sub.
  rewrite nth_map_strict by reflexivity.
  rewrite nth_zip_with by (apply cdiv_None_l || apply cdiv_None_r).
  rewrite !nth_zip_with by (apply csub_None_l || apply csub_None_r).
  destruct (@nth cell t close None) as [c|] eqn:Ec; [|discriminate].
  destruct (@nth cell t (rolled Rlist_min periods low) None) as [l|] eqn:El;
    [|discriminate].
  destruct (@nth cell t (rolled Rlist_max periods high) None) as [h|] eqn:Eh;
    [|discriminate].
  assert (Hn : (t < length candles)%nat).
  { apply nth_Some_lt in Ec. unfold close in Ec.
    now rewrite length_map in Ec. }
  set (k := nth t candles (flat_candle 0 0)).
  assert (Hk : valid_candle k).
  { unfold valid_candles in Hv. rewrite Forall_forall in Hv.
    apply Hv, nth_In, Hn. }
  unfold close in Ec. rewrite nth_closes in Ec by exact Hn.
  injection Ec as <-. fold k.
  unfold rolled, low, high in El, Eh.
  rewrite length_map, nth_map_seq in El, Eh by exact Hn.
  destruct (rolling_at_bounds _ _ _ _ _ (c_low k) El) as (xs & -> & Hx).
  { rewrite (nth_indep _ None (Some (c_low (flat_candle 0 0))))
      by now rewrite length_map.
    apply (map_nth (fun k => Some (c_low k))). }
  destruct (rolling_at_bounds _ _ _ _ _ (c_high k) Eh) as (ys & -> & Hy).
  { rewrite (nth_indep _ None (Some (c_high (flat_candle 0 0))))
      by now rewrite length_map.
    apply (map_nth (fun k => Some (c_high k))). }
  apply Rlist_min_le in Hx. apply Rlist_max_ge in Hy.
  destruct Hk as [_ [H1 H2]].
  cbn [csub cell_lift2 cdiv]. unfold Reqb.
  destruct (Req_dec_T (Rlist_max ys - Rlist_min xs) 0) as [E|E];
    [discriminate|].
  cbn [cmul cell_lift2]. intros H. injection H as <-.
  assert (Hpos : 0 < Rlist_max ys - Rlist_min xs) by lra.
  assert (G1 : 0 <= (c_close k - Rlist_min xs)
                    / (Rlist_max ys - Rlist_min xs)).
  { apply Rmult_le_pos; [lra|]. left. now apply Rinv_0_lt_compat. }
  assert (G2 : (c_close k - Rlist_min xs)
               / (Rlist_max ys - Rlist_min xs) <= 1).
  { apply Rmult_le_reg_r with (Rlist_max ys - Rlist_min xs); [exact Hpos|].
    unfold Rdiv. rewrite Rmult_assoc, Rinv_l by lra. lra. }
  lra.
Qed.

(** X15.  On candles with [low <= close <= high] the two lines of the
    stochastic oscillator are percentages: every value of [%K] and of its
    rolling mean [%D] that is not [nan] lies between 0 and 100. *)
Theorem stochastic_oscillator_is_a_percentage
    symbol (p : params SO_class) tc candles i t x :
  valid_candles candles ->
  construct SO_class symbol p tc candles = inr i ->
  (nth t (df_get "K" (data_of i)) None = Some x -> 0 <= x <= 100) /\
  (nth t (df_get "D" (data_of i)) None = Some x -> 0 <= x <= 100).
Proof.
  intros Hv Hc. apply construct_inr in Hc. destruct Hc as [Ha ->].
  cbn [fresh frame_of data_of]. projections.
  unfold so_frame, SO.k_formula. cbv zeta. columns. cells. split.
  - apply k_formula_bounds, Hv.
  - intros H. assert (Ht := nth_Some_lt _ _ _ H).
    rewrite length_rolled in Ht. unfold rolled at 1 in H.
    rewrite nth_map_seq in H by exact Ht.
    eapply rolling_mean_bounds; [|exact Ht|exact H].
    apply Forall_cells. intros t' x'. apply k_formula_bounds, Hv.
Qed.

(** ** The edges of [update_and_run] and of the search *)

(** X16.  A point with fewer coordinates than the class has parameters
    makes [update_and_run] raise [IndexError] before anything is assigned:
    the instance is left as it was. *)
Theorem update_and_run_short_point i x :
  (length x < axes i)%nat -> update_and_run x i = (inl IndexError, i).
Proof.
  intros Hlen.
  destruct i as [self|self|self|self|self]; cbn [axes] in Hlen;
    destruct x as [|p0 [|p1 [|p2 x]]]; try (simpl in Hlen; lia);
    reflexivity.
Qed.

Lemma py_int_inject_Z z : py_int (inject_Z z) = z.
Proof. unfold py_int, inject_Z. cbn [Qnum Qden]. apply Z.quot_1_r. Qed.

(** X17.  [update_and_run] reads the first coordinates of the point, one
    per parameter, and only their integer parts: a point gives the same
    value and leaves the same instance as the point whose coordinates are
    its own truncated towards zero, further coordinates dropped. *)
Theorem update_and_run_truncates i x :
  (axes i <= length x)%nat ->
  update_and_run x i =
  update_and_run (map (fun q => inject_Z (py_int q)) (firstn (axes i) x)) i.
Proof.
  intros Hlen.
  destruct i as [self|self|self|self|self]; cbn [axes] in *;
    destruct x as [|p0 [|p1 x]]; try (simpl in Hlen; lia);
    try (destruct x as [|p2 x]; [simpl in Hlen; lia|]);
    cbn [firstn map]; unfold update_and_run, on;
    unfold SMA.update_and_run, EMA.update_and_run, MACD.update_and_run,
      RSI.update_and_run, SO.update_and_run, item, bind, lift;
    cbn [nth_error]; rewrite !py_int_inject_Z; reflexivity.
Qed.

(** *** Ranges [np.mgrid] refuses *)

Lemma axis_size_inl r e : axis_size r = inl e -> e = ZeroDivisionError.
Proof.
  destruct r as [[start stop] step]. unfold axis_size.
  destruct (Qeq_bool step 0); [|discriminate]. congruence.
Qed.

Lemma map_exn_axis_size_zero rs :
  Exists (fun r : prange => Qeq_bool (snd r) 0 = true) rs ->
  map_exn axis_size rs = inl ZeroDivisionError.
Proof.
  induction rs as [|r rs IH]; intros H; [inversion H|]. cbn [map_exn].
  destruct (axis_size r) as [e|n] eqn:E.
  - now rewrite (axis_size_inl _ _ E).
  - inversion H as [? ? Hr|? ? Hrs]; subst.
    + destruct r as [[start stop] step]. cbn [snd] in Hr.
      unfold axis_size in E. rewrite Hr in E. discriminate.
    + now rewrite IH.
Qed.

Lemma optimize_mgrid_fails ranges i e :
  mgrid (ranges_of i ranges) = inl e ->
  optimize_parameters ranges i = (inl e, i).
Proof.
  intros H. rewrite optimize_parameters_eq. unfold brute, bind, lift.
  now rewrite H.
Qed.

(** X18.  A range with step 0 makes [optimize_parameters] raise
    [ZeroDivisionError] (the size of the axis is a quotient by the step);
    no point is tried and the instance is left as it was. *)
Theorem optimize_zero_step i ranges k :
  (k < axes i)%nat -> Qeq_bool (snd (nth k ranges (0, 0, 0)%Q)) 0 = true ->
  optimize_parameters ranges i = (inl ZeroDivisionError, i).
Proof.
  intros Hk Hz. apply optimize_mgrid_fails. unfold mgrid.
  rewrite map_exn_axis_size_zero; [reflexivity|].
  apply Exists_exists. exists (nth k ranges (0, 0, 0)%Q). split; [|exact Hz].
  unfold ranges_of. apply in_map_iff. exists k. split; [reflexivity|].
  apply in_seq. lia.
Qed.

Lemma map_exn_axis_size_inr rs :
  Forall (fun r : prange => Qeq_bool (snd r) 0 = false) rs ->
  map_exn axis_size rs =
  inr (map (fun r : prange =>
              Qceiling ((snd (fst r) - fst (fst r)) / snd r)) rs).
Proof.
  induction 1 as [|[[start stop] step] rs Hr _ IH]; [reflexivity|].
  cbn [map_exn map fst snd] in *. unfold axis_size at 1. rewrite Hr, IH.
  reflexivity.
Qed.

Lemma cartesian_empty_axis axes0 : In [] axes0 -> cartesian axes0 = [].
Proof.
  induction axes0 as [|a rest IH]; intros H; [inversion H|].
  cbn [cartesian]. destruct H as [->|H]; [reflexivity|].
  rewrite (IH H). induction a as [|x a IHa]; [reflexivity|exact IHa].
Qed.

Lemma Qceiling_nonpos q : (q <= 0)%Q -> (Qceiling q <= 0)%Z.
Proof.
  intros H. apply Qceiling_resp_le in H.
  change 0%Q with (inject_Z 0) in H. now rewrite Qceiling_Z in H.
Qed.

Lemma empty_axis_size start stop step :
  (0 < step)%Q -> (stop <= start)%Q ->
  (Qceiling ((stop - start) / step) <= 0)%Z.
Proof.
  intros Hs Hle. apply Qceiling_nonpos. unfold Qdiv.
  assert (H1 : (stop - start <= 0)%Q).
  { apply (Qplus_le_l _ _ start). ring_simplify. exact Hle. }
  assert (H2 : (0 <= / step)%Q).
  { apply Qlt_le_weak, Qinv_lt_0_compat, Hs. }
  setoid_replace 0%Q with (0 * / step)%Q by ring.
  now apply Qmult_le_compat_r.
Qed.

Lemma existsb_false {A} (f : A -> bool) l x :
  existsb f l = false -> In x l -> f x = false.
Proof.
  intros H Hin. destruct (f x) eqn:E; [|reflexivity].
  assert (G : existsb f l = true) by (apply existsb_exists; eauto).
  congruence.
Qed.

Lemma In_combine_map {A B} (f : A -> B) l x :
  In x l -> In (x, f x) (combine l (map f l)).
Proof.
  induction l as [|y l IH]; intros H; [inversion H|].
  destruct H as [->|H]; [now left|right; auto].
Qed.

(** X19.  A range that holds no value (a positive step and a stop not
    above the start) makes [optimize_parameters] raise [ValueError],
    whatever the other ranges are as long as no step is 0: either
    [np.mgrid] refuses a negative size or the grid is empty and there is
    no least value to return.  The instance is left as it was. *)
Theorem optimize_empty_range i ranges k start stop step :
  Forall (fun r : prange => Qeq_bool (snd r) 0 = false)
    (ranges_of i ranges) ->
  (k < axes i)%nat -> nth k ranges (0, 0, 0)%Q = (start, stop, step) ->
  (0 < step)%Q -> (stop <= start)%Q ->
  optimize_parameters ranges i = (inl ValueError, i).
Proof.
  intros Hsteps Hk Hr Hpos Hle.
  assert (Hin : In (start, stop, step) (ranges_of i ranges)).
  { unfold ranges_of. apply in_map_iff. exists k. split; [exact Hr|].
    apply in_seq. lia. }
  assert (Hsize := empty_axis_size start stop step Hpos Hle).
  rewrite optimize_parameters_eq. unfold brute, bind, lift, mgrid.
  rewrite (map_exn_axis_size_inr _ Hsteps).
  destruct (existsb _ _) eqn:Eneg; [reflexivity|].
  rewrite cartesian_empty_axis; [reflexivity|].
  apply in_map_iff.
  exists ((start, stop, step), Qceiling ((stop - start) / step)).
  cbn [fst snd axis_points]. split.
  - assert (Hn : (Qceiling ((stop - start) / step) <? 0)%Z = false).
    { apply (existsb_false _ _ _ Eneg), in_map_iff.
      exists (start, stop, step). split; [reflexivity|exact Hin]. }
    apply Z.ltb_ge in Hn.
    replace (Qceiling ((stop - start) / step)) with 0%Z by lia.
    reflexivity.
  - apply (In_combine_map
             (fun r : prange =>
                Qceiling ((snd (fst r) - fst (fst r)) / snd r))
             _ _ Hin).
Qed.

(** *** A point at which the objective raises *)

Lemma bind_inl {St A B} (m : M St A) (k : A -> M St B) s e :
  fst (m s) = inl e -> fst (bind m k s) = inl e.
Proof.
  unfold bind. destruct (m s) as [[e'|a] s1]; cbn [fst]; congruence.
Qed.

Section FailFast.

Variable St : Type.
Variable func : point -> M St cell.
Variable related : St -> St -> Prop.

Hypothesis related_value :
  forall s0 s x, related s0 s -> fst (func x s) = fst (func x s0).
Hypothesis related_step :
  forall s0 s x v s1,
    related s0 s -> func x s = (inr v, s1) -> related s0 s1.

Lemma eval_points_raises s0 e x post :
  fst (func x s0) = inl e ->
  forall pre s,
    related s0 s ->
    Forall (fun y => exists v, fst (func y s0) = inr v) pre ->
    fst (eval_points func (pre ++ x :: post) s) = inl e.
Proof.
  intros Hx. induction pre as [|y pre IH]; intros s Hs Hpre;
    cbn [app eval_points]; unfold bind.
  - rewrite <- (related_value s0 s x Hs) in Hx.
    destruct (func x s) as [[e'|v] s1]; cbn [fst] in *; congruence.
  - inversion Hpre as [|? ? [v Hv] Hpre']; subst.
    rewrite <- (related_value s0 s y Hs) in Hv.
    destruct (func y s) as [[e'|v'] s1] eqn:E; [discriminate|].
    assert (Hs1 := related_step _ _ _ _ _ Hs E).
    specialize (IH s1 Hs1 Hpre').
    destruct (eval_points func (pre ++ x :: post) s1) as [[e'|vs] s2];
      cbn [fst] in *; congruence.
Qed.

End FailFast.

Lemma cartesian_length axes0 :
  Forall (fun p : point => length p = length axes0) (cartesian axes0).
Proof.
  induction axes0 as [|a rest IH]; cbn [cartesian].
  - repeat constructor.
  - apply Forall_forall. intros p Hp. apply in_flat_map in Hp.
    destruct Hp as (x & _ & Hp). apply in_map_iff in Hp.
    destruct Hp as (q & <- & Hq). rewrite Forall_forall in IH.
    cbn [length]. now rewrite (IH q Hq).
Qed.

Lemma map_exn_length {A B} (f : A -> exn + B) l bs :
  map_exn f l = inr bs -> length bs = length l.
Proof.
  revert bs. induction l as [|a l IH]; intros bs; cbn [map_exn].
  - intros H; now injection H as <-.
  - destruct (f a); [discriminate|].
    destruct (map_exn f l) as [|bs']; [discriminate|].
    intros H; injection H as <-. cbn [length]. now rewrite (IH bs').
Qed.

Lemma mgrid_point_length i ranges grid x :
  mgrid (ranges_of i ranges) = inr grid -> In x grid ->
  length x = axes i.
Proof.
  unfold mgrid. destruct (map_exn axis_size _) as [|sizes] eqn:E;
    [discriminate|].
  destruct (existsb _ sizes); [discriminate|].
  intros H Hin. injection H as <-.
  assert (G := cartesian_length
                 (map (fun rs => axis_points (fst rs) (snd rs))
                    (combine (ranges_of i ranges) sizes))).
  rewrite Forall_forall in G. rewrite (G x Hin).
  rewrite length_map, length_combine, (map_exn_length _ _ _ E), Nat.min_id.
  unfold ranges_of. now rewrite length_map, length_seq.
Qed.

(** X20.  The search does not skip a point at which the backtest raises.
    On an instance as [__init__] leaves it, when the objective raises at a
    point of the grid and at no point before it in the row-major order,
    [optimize_parameters] raises that same exception: no result is
    returned for the points that were evaluated. *)
Theorem optimize_stops_at_first_failure i ranges pre x post e :
  good i ->
  mgrid (ranges_of i ranges) = inr (pre ++ x :: post)%list ->
  performance i x = inl e ->
  Forall (fun y => exists p, performance i y = inr p) pre ->
  fst (optimize_parameters ranges i) = inl e.
Proof.
  intros Hg Hgrid Hx Hpre.
  assert (Hlen : forall y, In y (pre ++ x :: post)%list ->
                   (axes i <= length y)%nat).
  { intros y Hy. rewrite (mgrid_point_length i ranges _ y Hgrid Hy). lia. }
  rewrite optimize_parameters_eq. apply bind_inl. unfold brute.
  unfold bind at 1, lift. rewrite Hgrid. apply bind_inl.
  apply (eval_points_raises instance update_and_run
           (fun i0 s => good i0 /\ same_inputs i0 s)
           (fun s0 s y Hs => update_value_same s0 s y (proj1 Hs)
                               (proj2 Hs))
           (fun s0 s y v s1 Hs Hf =>
              conj (proj1 Hs)
                (update_step_same s0 s y v s1 (proj2 Hs) Hf))
           i e x post).
  - rewrite update_performance, Hx; [reflexivity|].
    apply Hlen, in_elt.
  - split; [exact Hg|now apply same_inputs_refl].
  - rewrite Forall_forall in *. intros y Hy.
    destruct (Hpre y Hy) as [p Hp]. exists (cneg p).
    rewrite update_performance, Hp; [reflexivity|].
    apply Hlen, in_or_app. now left.
Qed.

(** ** FibonacciBacktester: the flags of [find_local_highs_lows] *)

Lemma length_set_at label idx flags :
  length idx = length flags ->
  length (Fib.set_at label idx flags) = length flags.
Proof.
  intros H. unfold Fib.set_at. rewrite length_map, length_combine. lia.
Qed.

Lemma nth_map_in {A B} (f : A -> B) l d d' j :
  (j < length l)%nat -> nth j (map f l) d' = f (nth j l d).
Proof.
  intros H. rewrite (nth_indep _ d' (f d)) by now rewrite length_map.
  apply map_nth.
Qed.

Lemma nth_set_at idx flags i j :
  NoDup idx -> length idx = length flags ->
  (i < length idx)%nat -> (j < length idx)%nat ->
  nth j (Fib.set_at (nth i idx 0%Z) idx flags) false =
  if (j =? i)%nat then true else nth j flags false.
Proof.
  intros Hnd Hlen Hi Hj. unfold Fib.set_at.
  rewrite (nth_map_in _ _ (0%Z, false)) by (rewrite length_combine; lia).
  rewrite combine_nth by exact Hlen. cbn [fst snd].
  destruct (Nat.eqb_spec j i) as [->|Hne].
  - now rewrite Z.eqb_refl.
  - destruct (Z.eqb_spec (nth j idx 0%Z) (nth i idx 0%Z)) as [E|E];
      [|reflexivity].
    exfalso. apply Hne. now apply (NoDup_nth idx 0%Z).
Qed.

Section Marks.

Variable close : column.
Variable idx : list Z.
Hypothesis idx_NoDup : NoDup idx.

Let is_high (i : nat) : bool :=
  cgt (nth i close None) (nth (i - 1) close None)
  && cgt (nth i close None) (nth (i + 1) close None).
Let is_low (i : nat) : bool :=
  clt (nth i close None) (nth (i - 1) close None)
  && clt (nth i close None) (nth (i + 1) close None).

Lemma marks_spec positions :
  forall flags,
    length (fst flags) = length idx -> length (snd flags) = length idx ->
    Forall (fun i => (i < length idx)%nat) positions ->
    let r := fold_left (Fib.mark close idx) positions flags in
    length (fst r) = length idx /\ length (snd r) = length idx /\
    forall j, (j < length idx)%nat ->
      (nth j (fst r) false = true <->
       nth j (fst flags) false = true \/ (In j positions /\ is_high j = true))
      /\
      (nth j (snd r) false = true <->
       nth j (snd flags) false = true \/
       (In j positions /\ is_high j = false /\ is_low j = true)).
Proof.
  induction positions as [|i positions IH]; intros flags H1 H2 Hpos.
  - cbn [fold_left]. split; [exact H1|]. split; [exact H2|].
    intros j Hj. split; (split; [now left|intros [G|[[] _]]; exact G]).
  - inversion_clear Hpos as [|? ? Hi Hrest]. cbn [fold_left].
    assert (Hm : length (fst (Fib.mark close idx flags i)) = length idx /\
                 length (snd (Fib.mark close idx flags i)) = length idx /\
                 forall j, (j < length idx)%nat ->
                   nth j (fst (Fib.mark close idx flags i)) false =
                   (if (j =? i)%nat && is_high i then true
                    else nth j (fst flags) false) /\
                   nth j (snd (Fib.mark close idx flags i)) false =
                   (if (j =? i)%nat && negb (is_high i) && is_low i
                    then true else nth j (snd flags) false)).
    { unfold Fib.mark. fold (is_high i). fold (is_low i).
      destruct (is_high i); [|destruct (is_low i)]; cbn [fst snd];
        rewrite ?length_set_at by congruence;
        (split; [assumption|split; [assumption|]]); intros j Hj;
        rewrite ?nth_set_at by (assumption || congruence);
        destruct (j =? i)%nat; auto. }
    destruct Hm as (L1 & L2 & Hm).
    destruct (IH _ L1 L2 Hrest) as (R1 & R2 & R).
    split; [exact R1|]. split; [exact R2|]. intros j Hj.
    destruct (R j Hj) as [Rh Rl]. destruct (Hm j Hj) as [Mh Ml].
    rewrite Rh, Rl, Mh, Ml. clear Rh Rl Mh Ml R Hm.
    destruct (Nat.eqb_spec j i) as [->|Hne]; cbn [andb].
    + destruct (is_high i), (is_low i); cbn [negb andb In]; split;
        intuition (try congruence).
    + cbn [In]. split; intuition (try congruence).
Qed.

End Marks.

Lemma Rgtb_iff a b : Rgtb a b = true <-> a > b.
Proof. unfold Rgtb. destruct (Rgt_dec a b); split; intuition congruence. Qed.

Lemma Rltb_iff a b : Rltb a b = true <-> a < b.
Proof. unfold Rltb. destruct (Rlt_dec a b); split; intuition congruence. Qed.

Lemma nth_repeat_false n j : nth j (repeat false n) false = false.
Proof.
  revert j. induction n as [|n IH]; intros [|j]; simpl; auto.
Qed.

(** The flags [find_local_highs_lows] leaves on a frame whose labels are
    distinct. *)
Lemma marked_frame self d :
  Fib.data self = Some d -> NoDup (Fib.index d) ->
  exists high low,
    Fib.find_local_highs_lows self =
    ([], {| Fib.symbol := Fib.symbol self;
            Fib.data :=
              Some {| Fib.index := Fib.index d; Fib.Close := Fib.Close d;
                      Fib.returns := Fib.returns d;
                      Fib.local_high := Some high;
                      Fib.local_low := Some low |} |}) /\
    length high = length (Fib.index d) /\
    length low = length (Fib.index d) /\
    forall j,
      let c k := nth k (Fib.Close d) None in
      (nth j high false = true <->
       (1 <= j)%nat /\ (S j < length (Fib.index d))%nat /\
       cgt (c j) (c (j - 1)%nat) && cgt (c j) (c (j + 1)%nat) = true) /\
      (nth j low false = true <->
       (1 <= j)%nat /\ (S j < length (Fib.index d))%nat /\
       cgt (c j) (c (j - 1)%nat) && cgt (c j) (c (j + 1)%nat) = false /\
       clt (c j) (c (j - 1)%nat) && clt (c j) (c (j + 1)%nat) = true).
Proof.
  intros Hd Hnd. unfold Fib.find_local_highs_lows. rewrite Hd.
  destruct (marks_spec (Fib.Close d) (Fib.index d) Hnd
              (seq 1 (length (Fib.index d) - 2))
              (repeat false (length (Fib.index d)),
               repeat false (length (Fib.index d))))
    as (L1 & L2 & Hm).
  { cbn [fst]. apply repeat_length. }
  { cbn [snd]. apply repeat_length. }
  { apply Forall_forall. intros i Hi. apply in_seq in Hi. lia. }
  do 2 eexists. split; [reflexivity|]. split; [exact L1|].
  split; [exact L2|]. intros j.
  assert (Hin : In j (seq 1 (length (Fib.index d) - 2)) <->
                (1 <= j)%nat /\ (S j < length (Fib.index d))%nat).
  { rewrite in_seq. lia. }
  destruct (Nat.lt_ge_cases j (length (Fib.index d))) as [Hj|Hj].
  - destruct (Hm j Hj) as [Hh Hl]. cbn [fst snd] in Hh, Hl.
    rewrite nth_repeat_false in Hh, Hl.
    rewrite Hh, Hl, Hin. split; (split; [intros [H|H]; [discriminate|tauto]
                                       |intros H; right; tauto]).
  - rewrite (nth_overflow (fst _) false) by lia.
    rewrite (nth_overflow (snd _) false) by lia.
    split; (split; [discriminate|lia]).
Qed.

(** X21.  On candles with distinct times, [find_local_highs_lows] run after
    [get_data] prints nothing and flags exactly the strict local extrema of
    the closes: a row is a local high when its close is greater than both
    neighbours' and a local low when it is smaller than both.  The first
    and the last row are never flagged, and neither is a row with a
    neighbour at the same close. *)
Theorem local_extrema_are_marked symbol candles :
  NoDup (map c_time candles) ->
  exists d high low,
    Fib.find_local_highs_lows (Fib.get_data candles (Fib.init symbol)) =
    ([], {| Fib.symbol := symbol; Fib.data := Some d |}) /\
    Fib.index d = map c_time candles /\
    Fib.Close d = map (fun k => Some (c_close k)) candles /\
    Fib.local_high d = Some high /\ Fib.local_low d = Some low /\
    length high = length candles /\ length low = length candles /\
    forall j, (j < length candles)%nat ->
      let close k := c_close (nth k candles (flat_candle 0 0)) in
      (nth j high false = true <->
       (1 <= j)%nat /\ (S j < length candles)%nat /\
       close j > close (j - 1)%nat /\ close j > close (j + 1)%nat) /\
      (nth j low false = true <->
       (1 <= j)%nat /\ (S j < length candles)%nat /\
       close j < close (j - 1)%nat /\ close j < close (j + 1)%nat).
Proof.
  intros Hnd.
  destruct (marked_frame (Fib.get_data candles (Fib.init symbol)) _
              eq_refl Hnd) as (high & low & E & L1 & L2 & Hm).
  cbn [Fib.index Fib.Close Fib.returns Fib.get_data Fib.init Fib.symbol]
    in E, L1, L2, Hm.
  rewrite length_map in L1, L2, Hm.
  eexists; exists high, low. split; [exact E|].
  cbn [Fib.index Fib.Close Fib.local_high Fib.local_low].
  repeat (split; [reflexivity || assumption|]).
  intros j Hj. destruct (Hm j) as [Hh Hl]. clear Hm.
  assert (Hc : forall k, (k < length candles)%nat ->
                 nth k (map (fun k => Some (c_close k)) candles) None
                 = Some (c_close (nth k candles (flat_candle 0 0)))).
  { intros k Hk. apply nth_closes, Hk. }
  rewrite Hh, Hl. clear Hh Hl. split.
  - split.
    + intros (H1 & H2 & H). rewrite !Hc in H by lia. cbn [cgt] in H.
      apply andb_true_iff in H. rewrite !Rgtb_iff in H. tauto.
    + intros (H1 & H2 & H3 & H4). split; [exact H1|]. split; [exact H2|].
      rewrite !Hc by lia. cbn [cgt]. apply andb_true_iff.
      now rewrite !Rgtb_iff.
  - split.
    + intros (H1 & H2 & _ & H). rewrite !Hc in H by lia. cbn [clt] in H.
      apply andb_true_iff in H. rewrite !Rltb_iff in H. tauto.
    + intros (H1 & H2 & H3 & H4). split; [exact H1|]. split; [exact H2|].
      rewrite !Hc by lia. cbn [cgt clt]. split.
      * apply andb_false_iff. left. apply not_true_is_false.
        rewrite Rgtb_iff. lra.
      * apply andb_true_iff. now rewrite !Rltb_iff.
Qed.

Lemma cgt_asym x y : cgt x y = true -> cgt y x = true -> False.
Proof.
  destruct x as [a|], y as [b|]; cbn [cgt]; try discriminate.
  rewrite !Rgtb_iff. lra.
Qed.

Lemma clt_asym x y : clt x y = true -> clt y x = true -> False.
Proof.
  destruct x as [a|], y as [b|]; cbn [clt]; try discriminate.
  rewrite !Rltb_iff. lra.
Qed.

(** X22.  The flags of [find_local_highs_lows] are isolated: on a frame
    whose labels are distinct no row is both a local high and a local low,
    and no two consecutive rows are both local highs or both local lows. *)
Theorem local_extrema_are_isolated self d d' high low j :
  Fib.data self = Some d -> NoDup (Fib.index d) ->
  Fib.data (snd (Fib.find_local_highs_lows self)) = Some d' ->
  Fib.local_high d' = Some high -> Fib.local_low d' = Some low ->
  ~ (nth j high false = true /\ nth j low false = true) /\
  ~ (nth j high false = true /\ nth (S j) high false = true) /\
  ~ (nth j low false = true /\ nth (S j) low false = true).
Proof.
  intros Hd Hnd Hd' Hh Hl.
  destruct (marked_frame self d Hd Hnd)
    as (high' & low' & E & _ & _ & Hm).
  rewrite E in Hd'. cbn [snd Fib.data] in Hd'. injection Hd' as <-.
  cbn [Fib.local_high Fib.local_low] in Hh, Hl.
  injection Hh as ->. injection Hl as ->.
  repeat split; intros [H1 H2].
  - destruct (Hm j) as [Ha Hb]. apply Ha in H1. apply Hb in H2.
    destruct H1 as (_ & _ & H1). destruct H2 as (_ & _ & H2 & _).
    congruence.
  - destruct (Hm j) as [Ha _]. destruct (Hm (S j)) as [Ha' _].
    apply Ha in H1. apply Ha' in H2.
    destruct H1 as (_ & _ & H1). destruct H2 as (_ & _ & H2).
    apply andb_true_iff in H1, H2.
    replace (S j - 1)%nat with j in H2 by lia.
    replace (j + 1)%nat with (S j) in H1 by lia.
    eapply cgt_asym; [apply H1|apply H2].
  - destruct (Hm j) as [_ Hb]. destruct (Hm (S j)) as [_ Hb'].
    apply Hb in H1. apply Hb' in H2.
    destruct H1 as (_ & _ & _ & H1). destruct H2 as (_ & _ & _ & H2).
    apply andb_true_iff in H1, H2.
    replace (S j - 1)%nat with j in H2 by lia.
    replace (j + 1)%nat with (S j) in H1 by lia.
    eapply clt_asym; [apply H1|apply H2].
Qed.

(** ** FibonacciBacktester: what [plot_results] draws *)

Lemma sequence_closes candles :
  sequence (map (fun k => Some (c_close k)) candles)
  = Some (map c_close candles).
Proof.
  induction candles as [|k candles IH]; [reflexivity|].
  cbn [map sequence fold_right] in *. unfold sequence in IH.
  now rewrite IH.
Qed.

Lemma fold_Rmax_In l a : In (fold_left Rmax l a) (a :: l).
Proof.
  revert a. induction l as [|y l IH]; intros a; [now left|].
  cbn [fold_left]. destruct (IH (Rmax a y)) as [H|H].
  - rewrite <- H. unfold Rmax. destruct (Rle_dec a y); simpl; auto.
  - right. now right.
Qed.

Lemma fold_Rmin_In l a : In (fold_left Rmin l a) (a :: l).
Proof.
  revert a. induction l as [|y l IH]; intros a; [now left|].
  cbn [fold_left]. destruct (IH (Rmin a y)) as [H|H].
  - rewrite <- H. unfold Rmin. destruct (Rle_dec a y); simpl; auto.
  - right. now right.
Qed.

(** X23.  [plot_results] needs the two columns of flags.  With no data it
    prints a message and draws nothing; right after [get_data] it raises
    [KeyError], for the columns exist only once [find_local_highs_lows] has
    run; and on a response without candles it raises [ValueError] even
    then, there being no greatest close. *)
Theorem plot_results_needs_the_flags symbol candles :
  Fib.plot_results (Fib.init symbol) = ([Fib.no_data_to_plot], inr None) /\
  Fib.plot_results (Fib.get_data candles (Fib.init symbol))
    = ([], inl Fib.KeyError) /\
  Fib.plot_results
    (snd (Fib.find_local_highs_lows (Fib.get_data [] (Fib.init symbol))))
    = ([], inl Fib.ValueError) /\
  (candles <> [] ->
   exists fig,
     Fib.plot_results
       (snd (Fib.find_local_highs_lows
               (Fib.get_data candles (Fib.init symbol))))
     = ([], inr (Some fig)) /\
     Fib.price fig =
     combine (map c_time candles) (map (fun k => Some (c_close k)) candles)).
Proof.
  repeat split; try reflexivity.
  intros Hne. destruct candles as [|k candles]; [congruence|].
  eexists. split; reflexivity.
Qed.

(** X24.  The three retracement levels [plot_results] draws lie between
    the least and the greatest close, both of which are closes of the
    candles, and come in decreasing order: the level 0.236 is the highest
    and the level 0.618 the lowest. *)
Theorem retracement_levels_lie_in_range symbol candles fig :
  candles <> [] ->
  snd (Fib.plot_results
         (snd (Fib.find_local_highs_lows
                 (Fib.get_data candles (Fib.init symbol)))))
  = inr (Some fig) ->
  exists top bottom a b c,
    In top (map c_close candles) /\ In bottom (map c_close candles) /\
    (forall k, In k candles -> bottom <= c_close k <= top) /\
    Fib.levels fig =
    [(236 / 1000, Some a); (382 / 1000, Some b); (618 / 1000, Some c)] /\
    a = top - (top - bottom) * (236 / 1000) /\
    b = top - (top - bottom) * (382 / 1000) /\
    c = top - (top - bottom) * (618 / 1000) /\
    bottom <= c <= b /\ b <= a <= top.
Proof.
  intros Hne. destruct candles as [|k candles]; [congruence|].
  unfold Fib.find_local_highs_lows, Fib.get_data, Fib.init, Fib.plot_results.
  cbn [Fib.data Fib.symbol Fib.index Fib.Close Fib.returns Fib.local_high
       Fib.local_low snd].
  unfold Fib.np_max, Fib.np_min. rewrite sequence_closes.
  cbn [map option_map snd]. intros H. injection H as <-.
  set (xs := map c_close candles).
  exists (Rlist_max (c_close k :: xs)), (Rlist_min (c_close k :: xs)).
  do 3 eexists.
  assert (Hb : forall x, In x (c_close k :: xs) ->
                 Rlist_min (c_close k :: xs) <= x <= Rlist_max (c_close k :: xs)).
  { intros x Hx. split; [now apply Rlist_min_le|now apply Rlist_max_ge]. }
  assert (Htop : In (Rlist_max (c_close k :: xs)) (c_close k :: xs))
    by apply fold_Rmax_In.
  assert (Hbot : In (Rlist_min (c_close k :: xs)) (c_close k :: xs))
    by apply fold_Rmin_In.
  split; [exact Htop|]. split; [exact Hbot|]. split.
  { intros k' Hk'. apply Hb. change (In (c_close k') (map c_close (k :: candles))).
    now apply in_map. }
  cbn [Fib.levels Fib.fib_levels map csub cmul cell_lift2].
  split; [reflexivity|]. split; [reflexivity|]. split; [reflexivity|].
  split; [reflexivity|].
  destruct (Hb _ Htop) as [Hle _]. unfold Rlist_max, Rlist_min in *. lra.
Qed.

(** ** Moving averages stay within the prices *)

Section Ewm.

Variables a b alpha : R.
Hypothesis alpha_range : 0 <= 1 - alpha.

Let inside (acc : ewm_acc) : Prop :=
  0 <= old_wt acc /\ forall w, weighted acc = Some w -> a <= w <= b.

Lemma ewm_step_inside acc cur :
  inside acc -> (forall x, cur = Some x -> a <= x <= b) ->
  inside (ewm_step alpha acc cur).
Proof.
  intros [Hwt Hw] Hx. unfold ewm_step.
  destruct (weighted acc) as [w|] eqn:E; destruct cur as [x|].
  - assert (H := Rmult_le_pos _ _ Hwt alpha_range).
    split; cbn [old_wt weighted]; [lra|].
    intros w' H'. injection H' as <-.
    specialize (Hw w eq_refl). specialize (Hx x eq_refl).
    set (wt := old_wt acc * (1 - alpha)) in *.
    assert (Hpos : 0 < wt + 1) by lra.
    split.
    + apply Rmult_le_reg_r with (wt + 1); [exact Hpos|].
      unfold Rdiv. rewrite Rmult_assoc, Rinv_l by lra. nra.
    + apply Rmult_le_reg_r with (wt + 1); [exact Hpos|].
      unfold Rdiv. rewrite Rmult_assoc, Rinv_l by lra. nra.
  - split; cbn [old_wt weighted]; [now apply Rmult_le_pos|].
    intros w' H'. injection H' as <-. now apply Hw.
  - split; cbn [old_wt weighted]; [exact Hwt|].
    intros w' H'. injection H' as <-. now apply Hx.
  - split; [exact Hwt|]. intros w' H'. congruence.
Qed.

Lemma ewm_scan_inside minp c :
  forall acc,
    inside acc ->
    Forall (fun cell => forall x, cell = Some x -> a <= x <= b) c ->
    Forall (fun cell => forall x, cell = Some x -> a <= x <= b)
      (ewm_scan alpha minp acc c).
Proof.
  induction c as [|cur c IH]; intros acc Hacc Hc; cbn [ewm_scan];
    constructor.
  - inversion_clear Hc as [|? ? Hcur _].
    destruct (ewm_step_inside acc cur Hacc Hcur) as [_ Hw].
    destruct (minp <=? nobs (ewm_step alpha acc cur))%nat;
      [exact Hw|discriminate].
  - inversion_clear Hc as [|? ? Hcur Hrest].
    apply IH; [now apply ewm_step_inside|exact Hrest].
Qed.

End Ewm.

Lemma ewmed_bounds a b span c :
  (1 <= span)%Z ->
  Forall (fun cell => forall x, cell = Some x -> a <= x <= b) c ->
  Forall (fun cell => forall x, cell = Some x -> a <= x <= b) (ewmed span c).
Proof.
  intros Hs Hc. unfold ewmed. apply ewm_scan_inside; [| |exact Hc].
  - assert (H : 1 <= IZR span) by now apply IZR_le.
    assert (H2 : 2 / (IZR span + 1) <= 1).
    { apply Rmult_le_reg_r with (IZR span + 1); [lra|].
      unfold Rdiv. rewrite Rmult_assoc, Rinv_l by lra. lra. }
    lra.
  - split; cbn [old_wt weighted]; [lra|discriminate].
Qed.

Lemma rolled_mean_bounds a b w c :
  Forall (fun cell => forall x, cell = Some x -> a <= x <= b) c ->
  Forall (fun cell => forall x, cell = Some x -> a <= x <= b)
    (rolled mean w c).
Proof.
  intros Hc. apply Forall_cells. intros t x H.
  assert (Ht := nth_Some_lt _ _ _ H). rewrite length_rolled in Ht.
  unfold rolled in H. rewrite nth_map_seq in H by exact Ht.
  eapply rolling_mean_bounds; eassumption.
Qed.

(** X25.  A moving average never leaves the range of the prices.  In the
    frame a constructor of [SMABacktester] or [EMABacktester] returns,
    every value of the two average columns that is not [nan] lies between
    any two bounds of the closes. *)
Theorem moving_averages_stay_within_prices
    f symbol (p : params f) tc candles i a b name t x :
  f = SMA_class \/ f = EMA_class ->
  construct f symbol p tc candles = inr i ->
  (forall k, In k candles -> a <= c_close k <= b) ->
  In name (indicator_columns i) ->
  nth t (df_get name (data_of i)) None = Some x ->
  a <= x <= b.
Proof.
  intros Hf Hc Hb Hn Hx. apply construct_inr in Hc. destruct Hc as [Ha ->].
  assert (Hcl : Forall (fun cell => forall x, cell = Some x -> a <= x <= b)
                  (map (fun k => Some (c_close k)) candles)).
  { apply Forall_map, Forall_forall. intros k Hk y H. injection H as <-.
    now apply Hb. }
  assert (G : Forall (fun cell => forall x, cell = Some x -> a <= x <= b)
                (df_get name
                   (data_of (fresh f symbol p tc (frame_of f p candles))))).
  { destruct Hf as [-> | ->]; cbn [acceptable params] in *;
      cbn [fresh frame_of data_of indicator_columns] in *; projections;
      unfold sma_frame, ema_frame; cbv zeta;
      destruct Hn as [<-|[<-|[]]]; columns; cells;
      first [ apply (rolled_mean_bounds a b _ _ Hcl)
            | apply ewmed_bounds; [tauto|exact Hcl] ]. }
  rewrite Forall_forall in G. apply (G (Some x)); [|reflexivity].
  rewrite <- Hx. apply nth_In. eapply nth_Some_lt, Hx.
Qed.

(** ** The warm-up of [EMABacktester] *)

Lemma ewm_step_full alpha acc x :
  nobs (ewm_step alpha acc (Some x)) = S (nobs acc) /\
  notna (weighted (ewm_step alpha acc (Some x))) = true.
Proof.
  unfold ewm_step. destruct (weighted acc); cbn [nobs weighted notna]; auto.
Qed.

Lemma notna_ewm_scan alpha minp c :
  full c ->
  forall acc t, (t < length c)%nat ->
    notna (nth t (ewm_scan alpha minp acc c) None)
    = (minp <=? nobs acc + S t)%nat.
Proof.
  induction 1 as [|[x|] c Hx _ IH]; intros acc t Ht; try discriminate;
    [simpl in Ht; lia|].
  cbn [ewm_scan]. destruct (ewm_step_full alpha acc x) as [Hn Hw].
  destruct t as [|t]; cbn [nth].
  - rewrite Hn, Nat.add_1_r.
    destruct (minp <=? S (nobs acc))%nat; [exact Hw|reflexivity].
  - rewrite IH by (simpl in Ht; lia). rewrite Hn. f_equal. lia.
Qed.

Lemma notna_ewmed span c t :
  full c -> (t < length c)%nat ->
  notna (nth t (ewmed span c) None) = (Z.to_nat (Z.max span 1) <=? S t)%nat.
Proof.
  intros Hc Ht. unfold ewmed. now rewrite notna_ewm_scan.
Qed.

Lemma ema_frame_mask a b candles :
  valid_candles candles -> (1 <= a)%Z -> (1 <= b)%Z ->
  notna_mask (ema_frame a b candles) =
  map (fun t => (Nat.max 1 (Z.to_nat (Z.max a b) - 1) <=? t)%nat)
    (seq 0 (length candles)).
Proof.
  intros Hv Ha Hb. unfold notna_mask, nrows, ema_frame. cbv zeta.
  cbn [df_index df_set candle_frame].
  replace (length (map c_time candles)) with (length candles)
    by (symmetry; apply length_map).
  apply map_ext_in. intros t Ht. apply in_seq in Ht.
  unfold row_notna, log_returns.
  cbn [df_cols df_set df_get candle_frame assoc_set assoc_get String.eqb
       Ascii.eqb Bool.eqb forallb snd].
  rewrite !(notna_candle_column) by lia.
  rewrite notna_log_returns by (exact Hv || lia).
  rewrite !notna_ewmed by (apply full_closes || (rewrite length_map; lia)).
  destruct (Nat.leb_spec 1 t),
    (Nat.leb_spec (Z.to_nat (Z.max a 1)) (S t)),
    (Nat.leb_spec (Z.to_nat (Z.max b 1)) (S t)),
    (Nat.leb_spec (Nat.max 1 (Z.to_nat (Z.max a b) - 1)) t);
    simpl; try reflexivity; lia.
Qed.

(** X26.  [EMABacktester] warms up like [SMABacktester].  On candles with
    positive closes and spans of at least 1, each exponentially weighted
    mean ([min_periods] being the span) is [nan] on its first [span - 1]
    rows and on no other; the position is computed on
    [len - max(1, max(EMA_S, EMA_L) - 1)] rows and the position column of
    the result has [len - max(2, EMA_S, EMA_L)] entries. *)
Theorem ema_warm_up symbol a b tc candles i :
  valid_candles candles -> (1 <= a)%Z -> (1 <= b)%Z ->
  construct EMA_class symbol (a, b) tc candles = inr i ->
  (forall t, (t < length candles)%nat ->
     (nth t (df_get "EMA_S" (data_of i)) None = None
      <-> (Z.of_nat t < a - 1)%Z) /\
     (nth t (df_get "EMA_L" (data_of i)) None = None
      <-> (Z.of_nat t < b - 1)%Z)) /\
  length (positions i) =
  (length candles - Nat.max 1 (Z.to_nat (Z.max a b) - 1))%nat /\
  length (df_get "position" (backtest_frame i)) =
  (length candles - Nat.max 2 (Z.to_nat (Z.max a b)))%nat.
Proof.
  intros Hv Ha Hb Hc. apply construct_inr in Hc. destruct Hc as [Hacc ->].
  assert (Hwf := proj1 (fresh_good EMA_class symbol (a, b) tc candles Hacc)).
  cbn [fresh frame_of data_of fst snd] in *. projections. split.
  - intros t Ht. unfold ema_frame. cbv zeta. columns. cells.
    rewrite !notna_None_iff.
    rewrite !notna_ewmed by (apply full_closes || (rewrite length_map; lia)).
    rewrite !Nat.leb_gt. lia.
  - assert (Hp := length_positions _ Hwf). cbn [data_of] in Hp.
    projections.
    assert (Hk : nrows (dropna (ema_frame a b candles)) =
                 (length candles
                  - Nat.max 1 (Z.to_nat (Z.max a b) - 1))%nat).
    { unfold nrows, dropna. cbn [df_index].
      rewrite ema_frame_mask by assumption.
      unfold ema_frame. cbv zeta. cbn [df_index df_set candle_frame].
      replace (length candles) with (length (map c_time candles)) at 1
        by apply length_map.
      rewrite select_threshold, length_skipn, length_map. reflexivity. }
    rewrite Hk in Hp. split; [exact Hp|].
    rewrite result_position by exact Hwf.
    rewrite length_tl. unfold column, cell in *. rewrite Hp. lia.
Qed.

(** ** The theorems above on concrete candles *)

Lemma construct_sma_zigzag :
  construct SMA_class "X" (1, 2)%Z (1 / 100) zigzag = inr (SMA_of sma_zigzag).
Proof. unfold construct. cbn [fst snd]. now rewrite sma_zigzag_init. Qed.

Lemma construct_ema_zigzag :
  construct EMA_class "X" (1, 2)%Z (1 / 100) zigzag = inr (EMA_of ema_zigzag).
Proof. unfold construct. cbn [fst snd]. now rewrite ema_zigzag_init. Qed.

Lemma construct_rsi_up_up_down :
  construct RSI_class "X" (2, 70, 30)%Z 0 up_up_down
  = inr (RSI_of rsi_up_up_down).
Proof. unfold construct. cbn [fst snd]. now rewrite rsi_up_up_down_init. Qed.

Lemma valid_zigzag : valid_candles zigzag.
Proof. repeat constructor; simpl; lra. Qed.

Lemma good_sma_zigzag : good (SMA_of sma_zigzag).
Proof. split; [reflexivity|exact I]. Qed.

Lemma constructed_instance_is_consistent_witness :
  let i := SMA_of sma_zigzag in
  wf i = true /\ valid_parameters i /\ indicators_current i /\
  nrows (data_of i) = length zigzag /\
  df_get "Close" (data_of i) = map (fun k => Some (c_close k)) zigzag /\
  df_get "High" (data_of i) = map (fun k => Some (c_high k)) zigzag /\
  df_get "Low" (data_of i) = map (fun k => Some (c_low k)) zigzag /\
  df_get "returns" (data_of i) = log_returns (candle_frame zigzag).
Proof.
  exact (constructed_instance_is_consistent SMA_class "X" (1, 2)%Z (1 / 100)
           zigzag (SMA_of sma_zigzag) construct_sma_zigzag).
Defined.

Lemma set_parameters_rebuilds_witness :
  set_parameters (map Some (values SMA_class (1, 3)%Z)) (SMA_of sma_zigzag) =
  (inr tt,
   fresh SMA_class "X" (1, 3)%Z (1 / 100) (frame_of SMA_class (1, 3)%Z zigzag)).
Proof.
  apply (set_parameters_rebuilds SMA_class "X" (1, 2)%Z (1, 3)%Z (1 / 100)
           zigzag).
  - exact construct_sma_zigzag.
  - apply construct_acceptable. simpl. lia.
Defined.

Lemma set_parameters_failure_is_not_rolled_back_witness :
  let i1 := SMA_of (SMA.set_SMA_S (-1) sma_zigzag) in
  ValueError = ValueError /\
  nth 0 (parameters_of i1) 0%Z = (-1)%Z /\
  data_of i1 = data_of (SMA_of sma_zigzag) /\
  results_of i1 = results_of (SMA_of sma_zigzag) /\
  tc_of i1 = tc_of (SMA_of sma_zigzag) /\
  ~ indicators_current i1.
Proof.
  apply (set_parameters_failure_is_not_rolled_back (SMA_of sma_zigzag) 0
           (-1)%Z ValueError).
  - exact good_sma_zigzag.
  - reflexivity.
Defined.

Lemma crossover_position_rule_witness :
  let res := backtest_frame (SMA_of sma_zigzag) in
  exists x y,
    nth 0 (df_get "SMA_S" res) None = Some x /\
    nth 0 (df_get "SMA_L" res) None = Some y /\
    nth 0 (df_get "position" res) None = Some (if Rgtb x y then 1 else -1).
Proof.
  eapply (crossover_position_rule (SMA_of sma_zigzag) "SMA_S" "SMA_L"
            _ _ _ _ 0%nat).
  - reflexivity.
  - reflexivity.
  - rewrite test_strategy_eq. f_equal.
    unfold sma_zigzag. eval_py. reflexivity.
  - unfold sma_zigzag. eval_py. lia.
Defined.

Lemma trades_count_position_changes_witness :
  let res := backtest_frame (EMA_of ema_zigzag) in
  nth 0 (df_get "trades" res) None = Some 0 /\
  ((1 < nrows res)%nat ->
   exists p q,
     nth 0 (df_get "position" res) None = Some p /\
     nth 1 (df_get "position" res) None = Some q /\
     nth 1 (df_get "trades" res) None = Some (Rabs (q - p)) /\
     (Rabs (q - p) = 0 \/ Rabs (q - p) = 2 \/
      (Rabs (q - p) = 1 /\ family_of (EMA_of ema_zigzag) = RSI_class))).
Proof.
  eapply (trades_count_position_changes (EMA_of ema_zigzag) _ _ _ _ 0%nat).
  - reflexivity.
  - intros self H. discriminate H.
  - rewrite test_strategy_eq. f_equal.
    unfold ema_zigzag. eval_py. reflexivity.
Defined.

Lemma performance_is_positive_witness :
  exists perf outperf,
    test_strategy (SMA_of sma_zigzag) =
    (inr (perf, outperf, backtest_frame (SMA_of sma_zigzag)),
     with_results (backtest_frame (SMA_of sma_zigzag)) (SMA_of sma_zigzag)) /\
    exists p c,
      perf = Some p /\ outperf = Some (p - c) /\ 0 < p /\ 0 < c /\
      iloc_last (df_get "cstrategy" (backtest_frame (SMA_of sma_zigzag)))
        = inr (Some p) /\
      iloc_last (df_get "creturns" (backtest_frame (SMA_of sma_zigzag)))
        = inr (Some c).
Proof.
  do 2 eexists.
  refine ((fun H => conj H
             (performance_is_positive (SMA_of sma_zigzag) _ _ _ _
                eq_refl H)) _).
  rewrite test_strategy_eq. f_equal.
  unfold sma_zigzag. eval_py. reflexivity.
Defined.

Lemma result_rows_witness :
  let i := SMA_of sma_zigzag in
  let res := backtest_frame i in
  all_notna res /\ rectangular res = true /\
  results_of (with_results res i) = Some res /\
  df_index res = tl (df_index (dropna (data_of i))) /\
  forall n, In n (base_columns ++ indicator_columns i) ->
            df_get n res = tl (df_get n (dropna (data_of i))).
Proof.
  eapply (result_rows (SMA_of sma_zigzag)).
  - reflexivity.
  - rewrite test_strategy_eq. f_equal.
    unfold sma_zigzag. eval_py. reflexivity.
Defined.

Lemma performance_decreases_with_cost_witness :
  let free :=
    EMA_of {| EMA.symbol := "X"; EMA.EMA_S := 1; EMA.EMA_L := 2;
              EMA.tc := 0; EMA.results := None;
              EMA.data := EMA.data ema_zigzag |} in
  exists perf outperf,
    test_strategy (EMA_of ema_zigzag) =
    (inr (perf, outperf, backtest_frame (EMA_of ema_zigzag)),
     with_results (backtest_frame (EMA_of ema_zigzag)) (EMA_of ema_zigzag)) /\
    exists p p0 outperf0 res0 i0',
      perf = Some p /\
      test_strategy free = (inr (Some p0, outperf0, res0), i0') /\
      p <= p0 /\
      df_get "position" res0
        = df_get "position" (backtest_frame (EMA_of ema_zigzag)) /\
      df_get "creturns" res0
        = df_get "creturns" (backtest_frame (EMA_of ema_zigzag)).
Proof.
  intros free. do 2 eexists.
  refine ((fun H => conj H
             (performance_decreases_with_cost (EMA_of ema_zigzag) free
                _ _ _ _ eq_refl eq_refl eq_refl eq_refl _ H)) _).
  - simpl. lra.
  - rewrite test_strategy_eq. f_equal.
    unfold ema_zigzag. eval_py. reflexivity.
Defined.

Lemma sma_buy_and_hold_is_price_ratio_witness :
  nth 0 (df_get "creturns" (backtest_frame (SMA_of sma_zigzag))) None =
  Some (c_close (nth (Nat.max 2 (Z.to_nat (Z.max 1 2)) + 0) zigzag
                   (flat_candle 0 0))
        / c_close (nth (Nat.max 2 (Z.to_nat (Z.max 1 2)) - 1) zigzag
                     (flat_candle 0 0))).
Proof.
  eapply (sma_buy_and_hold_is_price_ratio "X" 1 2 (1 / 100) zigzag
            (SMA_of sma_zigzag) _ _ _ _ 0%nat).
  - exact valid_zigzag.
  - lia.
  - lia.
  - exact construct_sma_zigzag.
  - rewrite test_strategy_eq. f_equal.
    unfold sma_zigzag. eval_py. reflexivity.
  - simpl. lia.
Defined.

Lemma rsi_is_a_percentage_witness : 0 <= 50 <= 100.
Proof.
  apply (rsi_is_a_percentage "X" (2, 70, 30)%Z 0 up_up_down
           (RSI_of rsi_up_up_down) 3 50).
  - exact construct_rsi_up_up_down.
  - reflexivity.
Defined.

Lemma stochastic_oscillator_is_a_percentage_witness :
  let i := fresh SO_class "X" (2, 1)%Z 0 (frame_of SO_class (2, 1)%Z zigzag) in
  exists x,
    nth 1 (df_get "K" (data_of i)) None = Some x /\ 0 <= x <= 100.
Proof.
  intros i. eexists.
  refine ((fun H => conj H
             (proj1 (stochastic_oscillator_is_a_percentage "X" (2, 1)%Z 0
                       zigzag i 1 _ valid_zigzag _) H)) _).
  - apply construct_acceptable. simpl. lia.
  - unfold i. eval_py.
    rewrite (Rmax_right 100 101), (Rmin_left 100 101) by lra.
    eval_py. reflexivity.
Defined.

Lemma update_and_run_short_point_witness :
  update_and_run [1%Q] (SMA_of sma_zigzag)
  = (inl IndexError, SMA_of sma_zigzag).
Proof.
  apply (update_and_run_short_point (SMA_of sma_zigzag) [1%Q]).
  simpl. lia.
Defined.

Lemma update_and_run_truncates_witness :
  update_and_run [19 # 10; 5 # 2; 7 # 1]%Q (SMA_of sma_zigzag) =
  update_and_run
    (map (fun q => inject_Z (py_int q))
       (firstn (axes (SMA_of sma_zigzag)) [19 # 10; 5 # 2; 7 # 1]%Q))
    (SMA_of sma_zigzag).
Proof.
  apply (update_and_run_truncates (SMA_of sma_zigzag)
           [19 # 10; 5 # 2; 7 # 1]%Q).
  simpl. lia.
Defined.

Lemma optimize_zero_step_witness :
  optimize_parameters [(1, 2, 0)%Q; (2, 4, 1)%Q] (SMA_of sma_zigzag)
  = (inl ZeroDivisionError, SMA_of sma_zigzag).
Proof.
  apply (optimize_zero_step (SMA_of sma_zigzag)
           [(1, 2, 0)%Q; (2, 4, 1)%Q] 0).
  - simpl. lia.
  - reflexivity.
Defined.

Lemma optimize_empty_range_witness :
  optimize_parameters [(2, 2, 1)%Q; (2, 4, 1)%Q] (SMA_of sma_zigzag)
  = (inl ValueError, SMA_of sma_zigzag).
Proof.
  apply (optimize_empty_range (SMA_of sma_zigzag)
           [(2, 2, 1)%Q; (2, 4, 1)%Q] 0 2%Q 2%Q 1%Q).
  - repeat constructor.
  - simpl. lia.
  - reflexivity.
  - reflexivity.
  - apply Qle_refl.
Defined.

Lemma optimize_stops_at_first_failure_witness :
  fst (optimize_parameters [(1, 2, 1)%Q; (2, 7, 3)%Q] (SMA_of sma_zigzag))
  = inl IndexError.
Proof.
  apply (optimize_stops_at_first_failure (SMA_of sma_zigzag)
           [(1, 2, 1)%Q; (2, 7, 3)%Q] [[1; 2]%Q] [1; 5]%Q []).
  - exact good_sma_zigzag.
  - reflexivity.
  - unfold sma_zigzag. eval_py. reflexivity.
  - constructor; [|constructor]. eexists.
    unfold sma_zigzag. eval_py. reflexivity.
Defined.

Lemma NoDup_zigzag_times : NoDup (map c_time zigzag).
Proof.
  cbn. repeat constructor; cbn; intuition discriminate.
Qed.

Lemma local_extrema_are_marked_witness :
  exists d high low,
    Fib.find_local_highs_lows (Fib.get_data zigzag (Fib.init "X")) =
    ([], {| Fib.symbol := "X"; Fib.data := Some d |}) /\
    Fib.index d = map c_time zigzag /\
    Fib.Close d = map (fun k => Some (c_close k)) zigzag /\
    Fib.local_high d = Some high /\ Fib.local_low d = Some low /\
    length high = length zigzag /\ length low = length zigzag /\
    forall j, (j < length zigzag)%nat ->
      let close k := c_close (nth k zigzag (flat_candle 0 0)) in
      (nth j high false = true <->
       (1 <= j)%nat /\ (S j < length zigzag)%nat /\
       close j > close (j - 1)%nat /\ close j > close (j + 1)%nat) /\
      (nth j low false = true <->
       (1 <= j)%nat /\ (S j < length zigzag)%nat /\
       close j < close (j - 1)%nat /\ close j < close (j + 1)%nat).
Proof.
  exact (local_extrema_are_marked "X" zigzag NoDup_zigzag_times).
Defined.

Lemma local_extrema_are_isolated_witness :
  let high := [false; true; false; false] in
  let low := [false; false; true; false] in
  ~ (nth 1 high false = true /\ nth 1 low false = true) /\
  ~ (nth 1 high false = true /\ nth 2 high false = true) /\
  ~ (nth 1 low false = true /\ nth 2 low false = true).
Proof.
  eapply (local_extrema_are_isolated (Fib.get_data zigzag (Fib.init "X"))
            _ _ [false; true; false; false] [false; false; true; false] 1).
  - reflexivity.
  - exact NoDup_zigzag_times.
  - eval_py. reflexivity.
  - reflexivity.
  - reflexivity.
Defined.

Lemma retracement_levels_lie_in_range_witness :
  exists fig,
    snd (Fib.plot_results
           (snd (Fib.find_local_highs_lows
                   (Fib.get_data zigzag (Fib.init "X")))))
    = inr (Some fig) /\
    exists top bottom a b c,
      In top (map c_close zigzag) /\ In bottom (map c_close zigzag) /\
      (forall k, In k zigzag -> bottom <= c_close k <= top) /\
      Fib.levels fig =
      [(236 / 1000, Some a); (382 / 1000, Some b); (618 / 1000, Some c)] /\
      a = top - (top - bottom) * (236 / 1000) /\
      b = top - (top - bottom) * (382 / 1000) /\
      c = top - (top - bottom) * (618 / 1000) /\
      bottom <= c <= b /\ b <= a <= top.
Proof.
  eexists.
  refine ((fun H => conj H
             (retracement_levels_lie_in_range "X" zigzag _ _ H)) _).
  - discriminate.
  - eval_py. reflexivity.
Defined.

Lemma moving_averages_stay_within_prices_witness : 100 <= 201 / 2 <= 101.
Proof.
  apply (moving_averages_stay_within_prices SMA_class "X" (1, 2)%Z (1 / 100)
           zigzag (SMA_of sma_zigzag) 100 101 "SMA_L" 1 (201 / 2)).
  - now left.
  - exact construct_sma_zigzag.
  - intros k Hk. cbn in Hk.
    destruct Hk as [<-|[<-|[<-|[<-|[]]]]]; cbn; lra.
  - cbn. tauto.
  - reflexivity.
Defined.

Lemma ema_warm_up_witness :
  let i := EMA_of ema_zigzag in
  (forall t, (t < length zigzag)%nat ->
     (nth t (df_get "EMA_S" (data_of i)) None = None
      <-> (Z.of_nat t < 1 - 1)%Z) /\
     (nth t (df_get "EMA_L" (data_of i)) None = None
      <-> (Z.of_nat t < 2 - 1)%Z)) /\
  length (positions i) =
  (length zigzag - Nat.max 1 (Z.to_nat (Z.max 1 2) - 1))%nat /\
  length (df_get "position" (backtest_frame i)) =
  (length zigzag - Nat.max 2 (Z.to_nat (Z.max 1 2)))%nat.
Proof.
  apply (ema_warm_up "X" 1 2 (1 / 100) zigzag (EMA_of ema_zigzag)).
  - exact valid_zigzag.
  - lia.
  - lia.
  - exact construct_ema_zigzag.
Defined.

Lemma constructor_checks_windows_witness :
  (exists i,
     construct SMA_class "X" (1, 2)%Z (1 / 100) zigzag = inr i /\
     family_of i = SMA_class /\
     parameters_of i = values SMA_class (1, 2)%Z /\
     tc_of i = 1 / 100 /\ results_of i = None /\
     df_index (data_of i) = map c_time zigzag) /\
  construct SMA_class "X" (-1, 2)%Z (1 / 100) zigzag = inl ValueError.
Proof.
  split.
  - apply (proj1 (constructor_checks_windows SMA_class "X" (1, 2)%Z
                    (1 / 100) zigzag)).
    simpl. lia.
  - apply (proj2 (constructor_checks_windows SMA_class "X" (-1, 2)%Z
                    (1 / 100) zigzag)).
    simpl. lia.
Defined.

Lemma plot_results_needs_the_flags_witness :
  exists fig,
    Fib.plot_results
      (snd (Fib.find_local_highs_lows (Fib.get_data zigzag (Fib.init "X"))))
    = ([], inr (Some fig)) /\
    Fib.price fig =
    combine (map c_time zigzag) (map (fun k => Some (c_close k)) zigzag).
Proof.
  apply (proj2 (proj2 (proj2 (plot_results_needs_the_flags "X" zigzag)))).
  discriminate.
Defined.

(** ** The warm-up of [MACDBacktester]

    The signal line is an exponentially weighted mean of a column that
    starts with [nan]: its [min_periods] counts the values seen, not the
    rows. *)

Lemma ewm_step_nobs alpha acc cur :
  notna (weighted acc) = (0 <? nobs acc)%nat ->
  notna (weighted (ewm_step alpha acc cur))
  = (0 <? nobs (ewm_step alpha acc cur))%nat /\
  nobs (ewm_step alpha acc cur)
  = (nobs acc + length (filter notna [cur]))%nat.
Proof.
  unfold ewm_step. intros Hacc.
  destruct (weighted acc) as [w|] eqn:Ew, cur as [x|];
    cbn [nobs weighted notna filter length] in *.
  - split; [reflexivity|lia].
  - split; [exact Hacc|lia].
  - split; [reflexivity|lia].
  - rewrite Ew. cbn [notna]. split; [exact Hacc|lia].
Qed.

(** An output of the scan is a number when enough values have been seen. *)
Lemma notna_ewm_scan_seen alpha minp c :
  (1 <= minp)%nat ->
  forall acc t,
    notna (weighted acc) = (0 <? nobs acc)%nat -> (t < length c)%nat ->
    notna (nth t (ewm_scan alpha minp acc c) None)
    = (minp <=? nobs acc + length (filter notna (firstn (S t) c)))%nat.
Proof.
  intros Hminp. induction c as [|cur c IH]; intros acc t Hacc Ht;
    [cbn [length] in Ht; lia|].
  cbn [ewm_scan]. destruct (ewm_step_nobs alpha acc cur Hacc) as [Hw Hn].
  destruct t as [|t]; cbn [nth].
  - cbn [firstn]. rewrite <- Hn.
    destruct (Nat.leb_spec minp (nobs (ewm_step alpha acc cur)))
      as [Hle|Hlt]; [|reflexivity].
    rewrite Hw. apply Nat.ltb_lt. lia.
  - rewrite IH by (cbn [length] in Ht; (exact Hw || lia)).
    rewrite Hn. f_equal.
    change (firstn (S (S t)) (cur :: c)) with (cur :: firstn (S t) c).
    cbn [filter]. destruct (notna cur); cbn [length]; lia.
Qed.

(** The values among the first rows of a column that is [nan] on its first
    [k] rows and on no other. *)
Lemma seen_after_prefix k (c : column) :
  forall s,
    (forall j, (j < length c)%nat ->
               notna (nth j c None) = (k <=? s + j)%nat) ->
    forall n, (n <= length c)%nat ->
      length (filter notna (firstn n c)) = (s + n - Nat.max k s)%nat.
Proof.
  induction c as [|x c IH]; intros s Hc n Hn.
  - cbn [length] in Hn. replace n with 0%nat by lia. cbn. lia.
  - destruct n as [|n]; [cbn; lia|].
    cbn [firstn filter].
    assert (Hx := Hc 0%nat ltac:(cbn [length]; lia)). cbn [nth] in Hx.
    assert (Hrest : length (filter notna (firstn n c))
                    = (S s + n - Nat.max k (S s))%nat).
    { apply IH; [|cbn [length] in Hn; lia].
      intros j Hj. specialize (Hc (S j) ltac:(cbn [length]; lia)).
      cbn [nth] in Hc. rewrite Hc. f_equal. lia. }
    rewrite Hx. destruct (Nat.leb_spec k (s + 0)); cbn [length]; lia.
Qed.

Lemma notna_macd_line a b closes t :
  full closes -> (t < length closes)%nat ->
  notna (nth t (series_sub (ewmed a closes) (ewmed b closes)) None)
  = (Z.to_nat (Z.max a 1) <=? S t)%nat && (Z.to_nat (Z.max b 1) <=? S t)%nat.
Proof.
  intros Hc Ht. unfold series_sub.
  rewrite nth_zip_with by (apply csub_None_l || apply csub_None_r).
  rewrite <- !(notna_ewmed _ closes) by assumption.
  destruct (nth t (ewmed a closes) None), (nth t (ewmed b closes) None);
    reflexivity.
Qed.

Lemma notna_macd_signal a b s closes t :
  full closes -> (1 <= a)%Z -> (1 <= b)%Z -> (t < length closes)%nat ->
  notna (nth t (ewmed s (series_sub (ewmed a closes) (ewmed b closes))) None)
  = (Z.to_nat (Z.max s 1) + (Z.to_nat (Z.max a b) - 1) <=? S t)%nat.
Proof.
  intros Hc Ha Hb Ht.
  assert (Hlen : length (series_sub (ewmed a closes) (ewmed b closes))
                 = length closes).
  { unfold series_sub. rewrite length_zip_with, !length_ewmed. lia. }
  unfold ewmed at 1.
  rewrite notna_ewm_scan_seen by (cbn [weighted nobs notna]; (reflexivity || lia)).
  cbn [nobs].
  rewrite (seen_after_prefix (Z.to_nat (Z.max a b) - 1) _ 0%nat).
  - destruct (Nat.leb_spec (Z.to_nat (Z.max s 1))
                (0 + (0 + S t - Nat.max (Z.to_nat (Z.max a b) - 1) 0))),
      (Nat.leb_spec (Z.to_nat (Z.max s 1) + (Z.to_nat (Z.max a b) - 1))
         (S t)); try reflexivity; lia.
  - intros j Hj. rewrite Hlen in Hj. rewrite notna_macd_line by assumption.
    destruct (Nat.leb_spec (Z.to_nat (Z.max a 1)) (S j)),
      (Nat.leb_spec (Z.to_nat (Z.max b 1)) (S j)),
      (Nat.leb_spec (Z.to_nat (Z.max a b) - 1) (0 + j));
      try reflexivity; lia.
  - rewrite Hlen. lia.
Qed.

(** The rows of the MACD frame without [nan] are those on which the signal
    line is a number. *)
Lemma macd_frame_mask a b s candles :
  valid_candles candles -> (1 <= a)%Z -> (1 <= b)%Z -> (1 <= s)%Z ->
  notna_mask (macd_frame a b s candles) =
  map (fun t => (Nat.max 1 (Z.to_nat (Z.max a b + s) - 2) <=? t)%nat)
    (seq 0 (length candles)).
Proof.
  intros Hv Ha Hb Hs. unfold notna_mask, nrows, macd_frame. cbv zeta.
  cbn [df_index df_set candle_frame].
  replace (length (map c_time candles)) with (length candles)
    by (symmetry; apply length_map).
  apply map_ext_in. intros t Ht. apply in_seq in Ht.
  unfold row_notna, log_returns.
  cbn [df_cols df_set df_get candle_frame assoc_set assoc_get String.eqb
       Ascii.eqb Bool.eqb forallb snd].
  rewrite !(notna_candle_column) by lia.
  rewrite notna_log_returns by (exact Hv || lia).
  rewrite notna_macd_signal
    by (apply full_closes || assumption || (rewrite length_map; lia)).
  rewrite notna_macd_line by (apply full_closes || (rewrite length_map; lia)).
  rewrite !notna_ewmed by (apply full_closes || (rewrite length_map; lia)).
  destruct (Nat.leb_spec 1 t),
    (Nat.leb_spec (Z.to_nat (Z.max a 1)) (S t)),
    (Nat.leb_spec (Z.to_nat (Z.max b 1)) (S t)),
    (Nat.leb_spec (Z.to_nat (Z.max s 1) + (Z.to_nat (Z.max a b) - 1)) (S t)),
    (Nat.leb_spec (Nat.max 1 (Z.to_nat (Z.max a b + s) - 2)) t);
    simpl; try reflexivity; lia.
Qed.

(** X27.  The warm-up of [MACDBacktester] is the sum of two.  On candles
    with positive closes and spans of at least 1, the MACD line is [nan] on
    its first [max(EMA_S, EMA_L) - 1] rows and the signal line, whose
    [min_periods] counts the values of the MACD line it has seen, on its
    first [max(EMA_S, EMA_L) + signal_mw - 2] rows, and on no other; the
    position column of the result has
    [len - max(2, max(EMA_S, EMA_L) + signal_mw - 1)] entries. *)
Theorem macd_warm_up symbol a b s tc candles i :
  valid_candles candles -> (1 <= a)%Z -> (1 <= b)%Z -> (1 <= s)%Z ->
  construct MACD_class symbol (a, b, s) tc candles = inr i ->
  (forall t, (t < length candles)%nat ->
     (nth t (df_get "MACD" (data_of i)) None = None
      <-> (Z.of_nat t < Z.max a b - 1)%Z) /\
     (nth t (df_get "MACD_Signal" (data_of i)) None = None
      <-> (Z.of_nat t < Z.max a b + s - 2)%Z)) /\
  length (positions i) =
  (length candles - Nat.max 1 (Z.to_nat (Z.max a b + s) - 2))%nat /\
  length (df_get "position" (backtest_frame i)) =
  (length candles - Nat.max 2 (Z.to_nat (Z.max a b + s) - 1))%nat.
Proof.
  intros Hv Ha Hb Hs Hc. apply construct_inr in Hc.
  destruct Hc as [Hacc ->].
  assert (Hwf := proj1 (fresh_good MACD_class symbol (a, b, s) tc candles
                          Hacc)).
  cbn [fresh frame_of data_of fst snd] in *. projections. split.
  - intros t Ht. unfold macd_frame. cbv zeta. columns. cells.
    rewrite !notna_None_iff.
    rewrite notna_macd_signal
      by (apply full_closes || assumption || (rewrite length_map; lia)).
    rewrite notna_macd_line
      by (apply full_closes || (rewrite length_map; lia)).
    rewrite andb_false_iff, !Nat.leb_gt. lia.
  - assert (Hp := length_positions _ Hwf). cbn [data_of] in Hp.
    projections.
    assert (Hk : nrows (dropna (macd_frame a b s candles)) =
                 (length candles
                  - Nat.max 1 (Z.to_nat (Z.max a b + s) - 2))%nat).
    { unfold nrows, dropna. cbn [df_index].
      rewrite macd_frame_mask by assumption.
      unfold macd_frame. cbv zeta. cbn [df_index df_set candle_frame].
      replace (length candles) with (length (map c_time candles)) at 1
        by apply length_map.
      rewrite select_threshold, length_skipn, length_map. reflexivity. }
    rewrite Hk in Hp. split; [exact Hp|].
    rewrite result_position by exact Hwf.
    rewrite length_tl. unfold column, cell in *. rewrite Hp. lia.
Qed.

Lemma macd_warm_up_witness :
  let i :=
    fresh MACD_class "X" (1, 2, 2)%Z 0
      (frame_of MACD_class (1, 2, 2)%Z zigzag) in
  (forall t, (t < length zigzag)%nat ->
     (nth t (df_get "MACD" (data_of i)) None = None
      <-> (Z.of_nat t < Z.max 1 2 - 1)%Z) /\
     (nth t (df_get "MACD_Signal" (data_of i)) None = None
      <-> (Z.of_nat t < Z.max 1 2 + 2 - 2)%Z)) /\
  length (positions i) =
  (length zigzag - Nat.max 1 (Z.to_nat (Z.max 1 2 + 2) - 2))%nat /\
  length (df_get "position" (backtest_frame i)) =
  (length zigzag - Nat.max 2 (Z.to_nat (Z.max 1 2 + 2) - 1))%nat.
Proof.
  apply (macd_warm_up "X" 1 2 2 0 zigzag).
  - exact valid_zigzag.
  - lia.
  - lia.
  - lia.
  - apply construct_acceptable. simpl. lia.
Defined.
